(** * exchange-smtp: MIME message assembly

    A shallow embedding of the message assembler of the [exchangesmtp]
    package: the address validator, the boundary generator, the base64
    writer with its 76-column wrap, and both variants of [Mail.ToBytes],
    together with the pieces of Go's standard library they call
    ([encoding/base64], [regexp] for one anchored pattern,
    [mime.QEncoding], [mime/quotedprintable]).

    Go's [string] and [[]byte] are both byte sequences; they are modelled
    as [list ascii].  A value of Go's [error] interface is modelled by its
    message. *)

From Stdlib Require Import Ascii String List NArith ZArith Arith Lia Bool.
From Stdlib Require Import ZifyNat.
Import ListNotations.

(* ================================================================= *)
(** * Part I: the embedding *)
(* ================================================================= *)

(** ** Bytes *)

Definition bytes := list ascii.

(** A Go string literal. *)
Definition lit (s : string) : bytes := list_ascii_of_string s.

Definition CR : ascii := ascii_of_nat 13.
Definition LF : ascii := ascii_of_nat 10.
Definition TAB : ascii := ascii_of_nat 9.
Definition DQUOTE : ascii := ascii_of_nat 34.
Definition NUL : ascii := ascii_of_nat 0.

(** The Go literal for carriage return, line feed. *)
Definition CRLF : bytes := [CR; LF].

Definition error := bytes.

Definition code (c : ascii) : N := N_of_ascii c.

(** [lo <= c && c <= hi] on bytes. *)
Definition between (lo hi : ascii) (c : ascii) : bool :=
  (code lo <=? code c)%N && (code c <=? code hi)%N.

Definition isByte (x : ascii) (c : ascii) : bool := Ascii.eqb c x.

Definition bytes_eqb (a b : bytes) : bool :=
  if list_eq_dec ascii_dec a b then true else false.

(** [strings.Join]. *)
Fixpoint Join (elems : list bytes) (sep : bytes) : bytes :=
  match elems with
  | [] => []
  | [e] => e
  | e :: rest => e ++ sep ++ Join rest sep
  end.

(** The lines of a byte stream, cut at every CRLF (the terminator is not
    part of a line; a stream that ends in CRLF has an empty last line). *)
Fixpoint linesFrom (cur : bytes) (s : bytes) : list bytes :=
  match s with
  | [] => [rev cur]
  | c :: rest =>
      match rest with
      | d :: rest' =>
          if isByte CR c && isByte LF d then rev cur :: linesFrom [] rest'
          else linesFrom (c :: cur) rest
      | [] => [rev (c :: cur)]
      end
  end.

Definition lines (s : bytes) : list bytes := linesFrom [] s.

(** [bytes.Contains] / [strings.Contains]. *)
Fixpoint hasPrefix (p s : bytes) : bool :=
  match p, s with
  | [], _ => true
  | a :: p', b :: s' => Ascii.eqb a b && hasPrefix p' s'
  | _ :: _, [] => false
  end.

Fixpoint Contains (s sub : bytes) : bool :=
  hasPrefix sub s ||
  match s with
  | [] => false
  | _ :: s' => Contains s' sub
  end.

(** ** encoding/base64, [StdEncoding] *)

(** Go's standard library, not part of the repository: [Encode] and
    [EncodedLen] follow encoding/base64/base64.go for the padded standard
    alphabet. *)
Module Base64.

Definition encodeStd : bytes :=
  lit "ABCDEFGHIJKLMNOPQRSTUVWXYZabcdefghijklmnopqrstuvwxyz0123456789+/".

Definition StdPadding : ascii := "="%char.

(** [enc.encode[val>>sh&0x3F]] *)
Definition sextet (val : N) (sh : N) : ascii :=
  nth (N.to_nat (N.land (N.shiftr val sh) 63)) encodeStd NUL.

(** [EncodedLen] of the padded encoding: [(n + 2) / 3 * 4]. *)
Definition EncodedLen (n : nat) : nat := (n + 2) / 3 * 4.

(** [Encode]: three source bytes become four characters; a remainder of
    one or two bytes is padded to a full quantum. *)
Fixpoint Encode (src : bytes) : bytes :=
  match src with
  | [] => []
  | [s0] =>
      let val := N.shiftl (code s0) 16 in
      [sextet val 18; sextet val 12; StdPadding; StdPadding]
  | [s0; s1] =>
      let val := N.lor (N.shiftl (code s0) 16) (N.shiftl (code s1) 8) in
      [sextet val 18; sextet val 12; sextet val 6; StdPadding]
  | s0 :: s1 :: s2 :: rest =>
      let val :=
        N.lor (N.lor (N.shiftl (code s0) 16) (N.shiftl (code s1) 8)) (code s2) in
      sextet val 18 :: sextet val 12 :: sextet val 6 :: sextet val 0
        :: Encode rest
  end.

(** The decoding side, for the round trip: the index of a character in
    the alphabet. *)
Fixpoint indexOf (c : ascii) (alphabet : bytes) (i : N) : option N :=
  match alphabet with
  | [] => None
  | a :: rest => if Ascii.eqb a c then Some i else indexOf c rest (N.succ i)
  end.

Definition decodeChar (c : ascii) : option N := indexOf c encodeStd 0.

Definition byteAt (val : N) (sh : N) : ascii :=
  ascii_of_N (N.land (N.shiftr val sh) 255).

(** Strict decoding of a padded stream, one quantum of four characters at
    a time; padding is accepted in the last quantum only, and the bits it
    leaves unused must be zero. *)
Fixpoint decodeQuanta (s : bytes) : option bytes :=
  match s with
  | [] => Some []
  | c0 :: c1 :: c2 :: c3 :: rest =>
      match decodeChar c0, decodeChar c1 with
      | Some v0, Some v1 =>
          match decodeChar c2, decodeChar c3 with
          | Some v2, Some v3 =>
              let val := (v0 * 262144 + v1 * 4096 + v2 * 64 + v3)%N in
              match decodeQuanta rest with
              | Some out =>
                  Some (byteAt val 16 :: byteAt val 8 :: byteAt val 0 :: out)
              | None => None
              end
          | Some v2, None =>
              if Ascii.eqb c3 StdPadding && (v2 mod 4 =? 0)%N then
                match rest with
                | [] =>
                    let val := (v0 * 262144 + v1 * 4096 + v2 * 64)%N in
                    Some [byteAt val 16; byteAt val 8]
                | _ :: _ => None
                end
              else None
          | None, _ =>
              if Ascii.eqb c2 StdPadding && Ascii.eqb c3 StdPadding
                 && (v1 mod 16 =? 0)%N then
                match rest with
                | [] =>
                    let val := (v0 * 262144 + v1 * 4096)%N in
                    Some [byteAt val 16]
                | _ :: _ => None
                end
              else None
          end
      | _, _ => None
      end
  | _ => None
  end.

(** [DecodeString] ignores carriage returns and line feeds in its input;
    the quanta are decoded strictly, as [StdEncoding.Strict()] does. *)
Definition unwrap (s : bytes) : bytes :=
  filter (fun c => negb (isByte CR c || isByte LF c)) s.

Definition DecodeString (s : bytes) : option bytes := decodeQuanta (unwrap s).

End Base64.

(** ** regexp, for anchored patterns *)

(** Go's standard library, not part of the repository.  Only what the
    one pattern of the validator needs is modelled: the syntax tree, and
    whether a whole string is in the language of the pattern, decided by
    taking the pattern through the string one byte at a time. *)
Module Regexp.

(** The syntax tree of a pattern ([regexp/syntax]'s [OpNoMatch],
    [OpEmptyMatch], [OpLiteral], [OpCharClass], [OpConcat], [OpAlternate]
    and [OpStar]); a character class is its membership test on bytes.  No
    class of the pattern below holds a byte above 0x7F, so matching bytes
    and matching runes agree. *)
Inductive Regexp : Type :=
| NoMatch
| EmptyMatch
| Literal (c : ascii)
| CharClass (p : ascii -> bool)
| Concat (r1 r2 : Regexp)
| Alternate (r1 r2 : Regexp)
| Star (r : Regexp).

(** [x+] and [x{2,}], as [regexp/syntax] simplifies them. *)
Definition Plus (r : Regexp) : Regexp := Concat r (Star r).
Definition AtLeast2 (r : Regexp) : Regexp := Concat r (Concat r (Star r)).

(** Whether the pattern matches the empty string. *)
Fixpoint nullable (r : Regexp) : bool :=
  match r with
  | NoMatch => false
  | EmptyMatch => true
  | Literal _ => false
  | CharClass _ => false
  | Concat r1 r2 => nullable r1 && nullable r2
  | Alternate r1 r2 => nullable r1 || nullable r2
  | Star _ => true
  end.

(** What is left of the pattern after it has read [c]. *)
Fixpoint step (c : ascii) (r : Regexp) : Regexp :=
  match r with
  | NoMatch => NoMatch
  | EmptyMatch => NoMatch
  | Literal d => if Ascii.eqb d c then EmptyMatch else NoMatch
  | CharClass p => if p c then EmptyMatch else NoMatch
  | Concat r1 r2 =>
      if nullable r1
      then Alternate (Concat (step c r1) r2) (step c r2)
      else Concat (step c r1) r2
  | Alternate r1 r2 => Alternate (step c r1) (step c r2)
  | Star r1 => Concat (step c r1) (Star r1)
  end.

(** [MatchString] for a pattern written between [^] and [$] (no flags):
    the whole input must match. *)
Fixpoint MatchString (r : Regexp) (s : bytes) : bool :=
  match s with
  | [] => nullable r
  | c :: s' => MatchString (step c r) s'
  end.

(** The language of a pattern. *)
Inductive Matches : Regexp -> bytes -> Prop :=
| MEmpty : Matches EmptyMatch []
| MLiteral c : Matches (Literal c) [c]
| MClass (p : ascii -> bool) c : p c = true -> Matches (CharClass p) [c]
| MConcat r1 r2 s1 s2 :
    Matches r1 s1 -> Matches r2 s2 -> Matches (Concat r1 r2) (s1 ++ s2)
| MAltL r1 r2 s : Matches r1 s -> Matches (Alternate r1 r2) s
| MAltR r1 r2 s : Matches r2 s -> Matches (Alternate r1 r2) s
| MStar0 r : Matches (Star r) []
| MStarS r s1 s2 :
    Matches r s1 -> Matches (Star r) s2 -> Matches (Star r) (s1 ++ s2).

End Regexp.

(** ** The address validator (part_000, lines 31-36) *)

Definition isLower : ascii -> bool := between "a" "z".
Definition isUpper : ascii -> bool := between "A" "Z".
Definition isDigit : ascii -> bool := between "0" "9".
Definition isLetter (c : ascii) : bool := isLower c || isUpper c.

(** [[a-zA-Z0-9._%+\-]] *)
Definition localChar (c : ascii) : bool :=
  isLower c || isUpper c || isDigit c
  || isByte "." c || isByte "_" c || isByte "%" c || isByte "+" c
  || isByte "-" c.

(** [[a-zA-Z0-9.\-]] *)
Definition domainChar (c : ascii) : bool :=
  isLower c || isUpper c || isDigit c || isByte "." c || isByte "-" c.

(** [^[a-zA-Z0-9._%+\-]+@[a-zA-Z0-9.\-]+\.[a-zA-Z]{2,}$] *)
Definition emailRegex : Regexp.Regexp :=
  Regexp.Concat (Regexp.Plus (Regexp.CharClass localChar))
    (Regexp.Concat (Regexp.Literal "@")
       (Regexp.Concat (Regexp.Plus (Regexp.CharClass domainChar))
          (Regexp.Concat (Regexp.Literal ".")
             (Regexp.AtLeast2 (Regexp.CharClass isLetter))))).

Definition ValidateEmail (email : bytes) : bool :=
  Regexp.MatchString emailRegex email.

(** The form of an address in the words of the specification, to be
    compared with [ValidateEmail]: a local part, an at sign, one or more
    labels of letters, digits and hyphens, each followed by a dot, and a
    final label of two or more letters.  [emptyLabels] says whether a
    label may be empty. *)
Fixpoint splitOn (sep : ascii) (cur : bytes) (s : bytes) : list bytes :=
  match s with
  | [] => [rev cur]
  | c :: rest =>
      if Ascii.eqb c sep then rev cur :: splitOn sep [] rest
      else splitOn sep (c :: cur) rest
  end.

Definition labelChar (c : ascii) : bool :=
  isLower c || isUpper c || isDigit c || isByte "-" c.

Definition isLabel (emptyLabels : bool) (l : bytes) : bool :=
  (emptyLabels || negb (length l =? 0)) && forallb labelChar l.

Definition isFinalLabel (l : bytes) : bool :=
  forallb isLetter l && (2 <=? length l).

Definition specDomain (emptyLabels : bool) (domain : bytes) : bool :=
  let labels := splitOn "." [] domain in
  (2 <=? length labels)
  && forallb (isLabel emptyLabels) (removelast labels)
  && isFinalLabel (last labels []).

Definition specAddress (emptyLabels : bool) (s : bytes) : bool :=
  match splitOn "@" [] s with
  | [localPart; domain] =>
      negb (length localPart =? 0) && forallb localChar localPart
      && specDomain emptyLabels domain
  | _ => false
  end.

(** ** unicode/utf8: the width of the first rune *)

(** Go's standard library, not part of the repository (unicode/utf8,
    [DecodeRuneInString]); only the size it returns is needed. *)
Module Utf8.

Definition inRange (lo hi : N) (c : ascii) : bool :=
  (lo <=? code c)%N && (code c <=? hi)%N.

(** The size [DecodeRuneInString] returns: the length of a well-formed
    UTF-8 sequence at the head of [s], and 1 for any byte that starts
    none (the [first] table and [acceptRanges]). *)
Definition runeLen (s : bytes) : nat :=
  match s with
  | [] => 0
  | s0 :: t =>
      let x := code s0 in
      if (x <? 194)%N then 1
      else if (x <? 224)%N then
        match t with
        | s1 :: _ => if inRange 128 191 s1 then 2 else 1
        | _ => 1
        end
      else if (x <? 240)%N then
        let lo := if (x =? 224)%N then 160%N else 128%N in
        let hi := if (x =? 237)%N then 159%N else 191%N in
        match t with
        | s1 :: s2 :: _ =>
            if inRange lo hi s1 && inRange 128 191 s2 then 3 else 1
        | _ => 1
        end
      else if (x <? 245)%N then
        let lo := if (x =? 240)%N then 144%N else 128%N in
        let hi := if (x =? 244)%N then 143%N else 191%N in
        match t with
        | s1 :: s2 :: s3 :: _ =>
            if inRange lo hi s1 && inRange 128 191 s2 && inRange 128 191 s3
            then 4 else 1
        | _ => 1
        end
      else 1
  end.

End Utf8.

(** ** Hexadecimal digits ([fmt]'s [%x], and the encoders' [upperhex]) *)

Definition lowerhex : bytes := lit "0123456789abcdef".
Definition upperhex : bytes := lit "0123456789ABCDEF".

(** [table[b>>4]], [table[b&0x0f]] *)
Definition hexByte (table : bytes) (b : ascii) : bytes :=
  [nth (N.to_nat (N.shiftr (code b) 4)) table NUL;
   nth (N.to_nat (N.land (code b) 15)) table NUL].

(** ** mime: [QEncoding.Encode] *)

(** Go's standard library, not part of the repository: the definitions
    follow mime/encodedword.go ([WordEncoder.Encode], [needsEncoding],
    [encodeWord], [qEncode], [writeQString], [openWord], [closeWord],
    [splitWord], [isUTF8]). *)
Module Mime.

(** [needsEncoding] is
    [for _, b := range s { if (b < ' ' || b > '~') && b != '\t' { return true } }]:
    some rune is below the space or above the tilde and is not a tab.  An
    ASCII byte is its own rune, and every byte from 0x80 up belongs to a
    rune above the tilde (or decodes to U+FFFD), so the test on runes is
    this test on bytes. *)
Definition needsEncoding (s : bytes) : bool :=
  existsb (fun b => ((code b <? 32)%N || (126 <? code b)%N)
                    && negb (isByte TAB b)) s.

(** [maxEncodedWordLen - len("=?UTF-8?q?") - len("?=")] *)
Definition maxContentLen : nat := 75 - 10 - 2.

(** The bytes [writeQString] leaves as they are. *)
Definition qSafe (b : ascii) : bool :=
  between "!" "~" b && negb (isByte "=" b) && negb (isByte "?" b)
  && negb (isByte "_" b).

Definition writeQByte (b : ascii) : bytes :=
  if isByte " " b then ["_"%char]
  else if qSafe b then [b]
  else "="%char :: hexByte upperhex b.

Definition writeQString (buf s : bytes) : bytes :=
  buf ++ flat_map writeQByte s.

(** [openWord] for the Q encoder, [closeWord], [splitWord]. *)
Definition openWord (buf charset : bytes) : bytes :=
  buf ++ lit "=?" ++ charset ++ lit "?q?".

Definition closeWord (buf : bytes) : bytes := buf ++ lit "?=".

Definition splitWord (buf charset : bytes) : bytes :=
  openWord (closeWord buf ++ lit " ") charset.

Definition toLower (c : ascii) : ascii :=
  if isUpper c then ascii_of_N (code c + 32) else c.

(** [strings.EqualFold(charset, "UTF-8")] *)
Definition isUTF8 (charset : bytes) : bool :=
  bytes_eqb (map toLower charset) (lit "utf-8").

(** The loop of [qEncode] for a UTF-8 charset: [s] is what is left of the
    input from index [i] on, each turn consumes one rune ([runeLen] bytes,
    never fewer than one), so [fuel] turns suffice for an input of [fuel]
    bytes. *)
Fixpoint qEncodeLoop (fuel : nat) (charset buf : bytes) (currentLen : nat)
    (s : bytes) : bytes :=
  match fuel, s with
  | _, [] => buf
  | 0, _ :: _ => buf
  | S fuel', b :: _ =>
      let runeLen :=
        if between " " "~" b && negb (isByte "=" b) && negb (isByte "?" b)
           && negb (isByte "_" b)
        then 1 else Utf8.runeLen s in
      let encLen :=
        if between " " "~" b && negb (isByte "=" b) && negb (isByte "?" b)
           && negb (isByte "_" b)
        then 1 else 3 * runeLen in
      let split := maxContentLen <? currentLen + encLen in
      let buf := if split then splitWord buf charset else buf in
      let currentLen := if split then 0 else currentLen in
      qEncodeLoop fuel' charset (writeQString buf (firstn runeLen s))
        (currentLen + encLen) (skipn runeLen s)
  end.

Definition qEncode (buf charset s : bytes) : bytes :=
  if negb (isUTF8 charset) then writeQString buf s
  else qEncodeLoop (length s) charset buf 0 s.

Definition encodeWord (charset s : bytes) : bytes :=
  closeWord (qEncode (openWord [] charset) charset s).

(** [QEncoding.Encode(charset, s)] *)
Definition Encode (charset s : bytes) : bytes :=
  if negb (needsEncoding s) then s else encodeWord charset s.

End Mime.

(** ** mime/quotedprintable: the [Writer] *)

(** Go's standard library, not part of the repository: the definitions
    follow mime/quotedprintable/writer.go ([Write], [Close], [write],
    [encode], [checkLastByte], [insertSoftLineBreak], [insertCRLF],
    [flush]). *)
Module QuotedPrintable.

Definition lineMaxLen : nat := 76.

(** The writer's state: [line] is [w.line[:w.i]], the line being built
    (so [w.i] is its length), [cr] says the last byte read was a carriage
    return.  [Binary] stays false.  The underlying [io.Writer] is the
    message buffer; [out] collects what has been written to it. *)
Record Writer : Type := mkWriter { line : bytes; cr : bool }.

Definition isWhitespace (b : ascii) : bool := isByte " " b || isByte TAB b.

Definition flush (w : Writer) (out : bytes) : Writer * bytes :=
  (mkWriter [] (cr w), out ++ line w).

Definition insertCRLF (w : Writer) (out : bytes) : Writer * bytes :=
  flush (mkWriter (line w ++ [CR; LF]) (cr w)) out.

Definition insertSoftLineBreak (w : Writer) (out : bytes) : Writer * bytes :=
  insertCRLF (mkWriter (line w ++ ["="%char]) (cr w)) out.

(** [encode]: the byte as an equals sign and two hexadecimal digits, on a
    new line when fewer than three columns are left. *)
Definition encode (b : ascii) (w : Writer) (out : bytes) : Writer * bytes :=
  let '(w, out) :=
    if lineMaxLen - 1 - length (line w) <? 3
    then insertSoftLineBreak w out else (w, out) in
  (mkWriter (line w ++ "="%char :: hexByte upperhex b) (cr w), out).

(** [checkLastByte]: a space or tab that ends the line is encoded. *)
Definition checkLastByte (w : Writer) (out : bytes) : Writer * bytes :=
  match rev (line w) with
  | [] => (w, out)
  | b :: before =>
      if isWhitespace b
      then encode b (mkWriter (rev before) (cr w)) out
      else (w, out)
  end.

(** One turn of the loop of [write]. *)
Definition write1 (b : ascii) (w : Writer) (out : bytes) : Writer * bytes :=
  if isByte LF b || isByte CR b then
    if cr w && isByte LF b then (mkWriter (line w) false, out)
    else
      let w := if isByte CR b then mkWriter (line w) true else w in
      let '(w, out) := checkLastByte w out in
      insertCRLF w out
  else
    let '(w, out) :=
      if length (line w) =? lineMaxLen - 1
      then insertSoftLineBreak w out else (w, out) in
    (mkWriter (line w ++ [b]) false, out).

(** One byte of the input of [Write]: printable bytes other than the
    equals sign, blanks and line ends go through [write] (in batches, in
    input order), every other byte through [encode]. *)
Definition Write1 (b : ascii) (w : Writer) (out : bytes) : Writer * bytes :=
  if between "!" "~" b && negb (isByte "=" b) then write1 b w out
  else if isWhitespace b || isByte LF b || isByte CR b then write1 b w out
  else encode b w out.

Fixpoint Write (p : bytes) (w : Writer) (out : bytes) : Writer * bytes :=
  match p with
  | [] => (w, out)
  | b :: p' => let '(w, out) := Write1 b w out in Write p' w out
  end.

Definition Close (w : Writer) (out : bytes) : Writer * bytes :=
  let '(w, out) := checkLastByte w out in
  flush w out.

Definition NewWriter : Writer := mkWriter [] false.

(** What a fresh writer leaves in the buffer for [p]: [Write] then
    [Close]. *)
Definition encodeAll (p : bytes) : bytes :=
  let '(w, out) := Write p NewWriter [] in
  snd (Close w out).

End QuotedPrintable.

(** ** The collaborators of the assembler *)

(** A quoted-printable writer as [ToBytes] uses one: created, written to
    once, closed once.  [qpWrite] and [qpClose] give the bytes that reach
    the message buffer and the error returned. *)
Record QPWriter : Type := mkQPWriter {
  qpState : Type;
  qpNew : qpState;
  qpWrite : qpState -> bytes -> qpState * bytes * option error;
  qpClose : qpState -> bytes * option error
}.

(** Go's writer over a [bytes.Buffer], whose [Write] never fails. *)
Definition stdQP : QPWriter :=
  {| qpState := QuotedPrintable.Writer;
     qpNew := QuotedPrintable.NewWriter;
     qpWrite := fun w p =>
       let '(w, out) := QuotedPrintable.Write p w [] in (w, out, None);
     qpClose := fun w => (snd (QuotedPrintable.Close w []), None) |}.

(** [rand_Read k]: the [k]-th call of [crypto/rand.Read] in one assembly,
    as the bytes it stored in the buffer it was given and the error it
    returned.  [os_ReadFile]: the content of the file of that name, or
    the error. *)
Record Collab : Type := mkCollab {
  rand_Read : nat -> bytes * option error;
  os_ReadFile : bytes -> bytes * option error;
  QP : QPWriter
}.

(** ** The message model (part_000, lines 16-62) *)

(** [MailType] is an [int] with the two named values; [String] indexes
    an array of two names and panics on any other value, so the model
    has the two values only. *)
Inductive MailType : Type := PlainText | HTML.

(** [mailTypeNames[mt]] *)
Definition MailType_String (mt : MailType) : bytes :=
  match mt with
  | PlainText => lit "text/plain"
  | HTML => lit "text/html"
  end.

Definition charset : bytes := lit "UTF-8".

Record AttachmentFile : Type := mkAttachmentFile {
  aName : bytes;
  aContentType : bytes;
  aBody : bytes
}.

Record InlineFile : Type := mkInlineFile {
  iCID : bytes;
  iName : bytes;
  iContentType : bytes;
  iBody : bytes
}.

Record Mail : Type := mkMail {
  MT : MailType;
  From : bytes;
  To : list bytes;
  Subject : bytes;
  Body : bytes;
  Attachment : list AttachmentFile;
  Inline : list InlineFile
}.

(** ** Boundaries (part_000, lines 64-69; mail.go, lines 49-54) *)

(** The array [buf] after [rand.Read(buf[:])]: sixteen zero bytes,
    overwritten from the front by what was read. *)
Definition fill16 (read : bytes) : bytes :=
  firstn 16 (read ++ repeat NUL 16).

(** The result of [rand.Read] is dropped; the boundary is rendered from
    the buffer. *)
Definition generateBoundary (c : Collab) (k : nat) : bytes :=
  let buf := fill16 (fst (rand_Read c k)) in
  lit "boundary-" ++ flat_map (hexByte lowerhex) buf.

(** ** The binary encoder (part_000, lines 197-222; mail.go, 123-148) *)

(** The loop of [writeBytes] from [index] on; [payload] is what is left
    of the encoded bytes. *)
Fixpoint writeLoop (msg : bytes) (index : nat) (payload : bytes) : bytes :=
  match payload with
  | [] => msg
  | b :: rest =>
      let msg := msg ++ [b] in
      let msg := if (index + 1) mod 76 =? 0 then msg ++ CRLF else msg in
      writeLoop msg (index + 1) rest
  end.

Definition writeBytes (msg file : bytes) : bytes * option error :=
  let payload := Base64.Encode file in
  let msg := msg ++ CRLF in
  (writeLoop msg 0 payload, None).

Definition writeFile (c : Collab) (msg fileName : bytes)
  : bytes * option error :=
  match os_ReadFile c fileName with
  | (_, Some err) => (msg, Some err)
  | (file, None) =>
      match writeBytes msg file with
      | (msg, Some err) => (msg, Some err)
      | (msg, None) => (msg, None)
      end
  end.

(** The binary encoder in the words of the specification: the padded
    base64 text cut into lines of 76 characters, every line, the last
    one too, followed by CRLF. *)
Fixpoint chunks (fuel n : nat) (s : bytes) : list bytes :=
  match fuel, s with
  | _, [] => []
  | 0, _ :: _ => [s]
  | S fuel', _ :: _ => firstn n s :: chunks fuel' n (skipn n s)
  end.

Definition spec_encodeBinary (data : bytes) : bytes :=
  let text := Base64.Encode data in
  flat_map (fun l => l ++ CRLF) (chunks (length text) 76 text).

(** ** The assembler (part_000, lines 71-195) *)

Definition isEmpty (s : bytes) : bool := length s =? 0.

(** The loop over [m.To] of lines 88-92. *)
Fixpoint checkTo (to : list bytes) : option error :=
  match to with
  | [] => None
  | addr :: rest =>
      if negb (ValidateEmail addr)
      then Some (lit "invalid To email address: " ++ addr)
      else checkTo rest
  end.

(** Lines 95-99. *)
Definition writeHeaders (msg from : bytes) (to : list bytes) (subject : bytes)
  : bytes :=
  let msg := msg ++ lit "From: " ++ from ++ CRLF in
  let msg := msg ++ lit "To: " ++ Join to (lit ", ") ++ CRLF in
  let sbj := Mime.Encode (lit "utf-8") subject in
  let msg := msg ++ lit "Subject: " ++ sbj ++ CRLF in
  msg ++ lit "MIME-Version: 1.0" ++ CRLF.

(** Lines 117-128 and again 151-162: the header of the body part and the
    body through a quoted-printable writer. *)
Definition writeBody (c : Collab) (msg : bytes) (mt : MailType) (body : bytes)
  : bytes * option error :=
  let msg :=
    msg ++ lit "Content-Type: " ++ MailType_String mt ++ lit "; charset="
        ++ charset ++ CRLF in
  let msg :=
    msg ++ lit "Content-Transfer-Encoding: quoted-printable" ++ CRLF ++ CRLF in
  let qp := qpNew (QP c) in
  let '(qp, out, err) := qpWrite (QP c) qp body in
  let msg := msg ++ out in
  match err with
  | Some e => (msg, Some e)
  | None =>
      let '(out, err) := qpClose (QP c) qp in
      (msg ++ out, err)
  end.

Definition orOctetStream (contentType : bytes) : bytes :=
  if isEmpty contentType then lit "application/octet-stream" else contentType.

(** Lines 131-147: the loop over [m.Inline]. *)
Fixpoint writeInline (relatedBoundary msg : bytes) (files : list InlineFile)
  : bytes * option error :=
  match files with
  | [] => (msg, None)
  | file :: rest =>
      let msg := msg ++ CRLF ++ lit "--" ++ relatedBoundary ++ CRLF in
      let contentType := orOctetStream (iContentType file) in
      let msg :=
        msg ++ lit "Content-Type: " ++ contentType ++ lit "; name="
            ++ [DQUOTE] ++ iName file ++ [DQUOTE] ++ CRLF in
      let msg := msg ++ lit "Content-Transfer-Encoding: base64" ++ CRLF in
      let msg := msg ++ lit "Content-ID: <" ++ iCID file ++ lit ">" ++ CRLF in
      let msg :=
        msg ++ lit "Content-Disposition: inline; filename=" ++ [DQUOTE]
            ++ iName file ++ [DQUOTE] ++ CRLF in
      match writeBytes msg (iBody file) with
      | (msg, Some err) => (msg, Some err)
      | (msg, None) => writeInline relatedBoundary msg rest
      end
  end.

(** Lines 167-187: the loop over [m.Attachment]. *)
Fixpoint writeAttachments (c : Collab) (boundary msg : bytes)
    (files : list AttachmentFile) : bytes * option error :=
  match files with
  | [] => (msg, None)
  | file :: rest =>
      let msg := msg ++ CRLF ++ lit "--" ++ boundary ++ CRLF in
      let contentType := orOctetStream (aContentType file) in
      let msg :=
        msg ++ lit "Content-Type: " ++ contentType ++ lit "; name="
            ++ [DQUOTE] ++ aName file ++ [DQUOTE] ++ CRLF in
      let msg := msg ++ lit "Content-Transfer-Encoding: base64" ++ CRLF in
      let msg :=
        msg ++ lit "Content-Disposition: attachment; filename=" ++ [DQUOTE]
            ++ aName file ++ [DQUOTE] ++ CRLF in
      match (if 0 <? length (aBody file)
             then writeBytes msg (aBody file)
             else writeFile c msg (aName file)) with
      | (msg, Some err) => (msg, Some err)
      | (msg, None) => writeAttachments c boundary msg rest
      end
  end.

(** [ToBytes] returns a byte slice and an error; [None] in the first
    place is Go's [nil] slice. *)
Definition ToBytes (c : Collab) (m : Mail) : option bytes * option error :=
  let msg : bytes := [] in
  if length (To m) =? 0 then (None, Some (lit "recipient list is empty"))
  else if length (Body m) =? 0 then (None, Some (lit "email body is empty"))
  else if negb (ValidateEmail (From m))
  then (None, Some (lit "invalid From email address: " ++ From m))
  else
    match checkTo (To m) with
    | Some err => (None, Some err)
    | None =>
        let msg := writeHeaders msg (From m) (To m) (Subject m) in
        let boundary := generateBoundary c 0 in
        let hasAttachments := 0 <? length (Attachment m) in
        let hasInline := 0 <? length (Inline m) in
        let msg :=
          if hasAttachments || hasInline then
            (msg ++ lit "Content-Type: multipart/mixed; boundary=" ++ boundary
                 ++ CRLF ++ CRLF)
              ++ lit "--" ++ boundary ++ CRLF
          else msg in
        let bodyPart :=
          if hasInline then
            let relatedBoundary := generateBoundary c 1 in
            let msg :=
              (msg ++ lit "Content-Type: multipart/related; boundary="
                   ++ relatedBoundary ++ CRLF ++ CRLF)
                ++ lit "--" ++ relatedBoundary ++ CRLF in
            match writeBody c msg (MT m) (Body m) with
            | (msg, Some err) => (msg, Some err)
            | (msg, None) =>
                match writeInline relatedBoundary msg (Inline m) with
                | (msg, Some err) => (msg, Some err)
                | (msg, None) =>
                    (msg ++ CRLF ++ lit "--" ++ relatedBoundary ++ lit "--"
                         ++ CRLF, None)
                end
            end
          else writeBody c msg (MT m) (Body m) in
        match bodyPart with
        | (_, Some err) => (None, Some err)
        | (msg, None) =>
            let attachments :=
              if hasAttachments
              then writeAttachments c boundary msg (Attachment m)
              else (msg, None) in
            match attachments with
            | (_, Some err) => (None, Some err)
            | (msg, None) =>
                let msg :=
                  if hasAttachments || hasInline
                  then msg ++ CRLF ++ lit "--" ++ boundary ++ lit "--" ++ CRLF
                  else msg in
                (Some msg, None)
            end
        end
    end.

(** ** The variant of src/mail.go: no validation, no inline files *)

Module Legacy.

Record Mail : Type := mkMail {
  MT : MailType;
  From : bytes;
  To : list bytes;
  Subject : bytes;
  Body : bytes;
  contentType : bytes;
  Attachment : list AttachmentFile
}.

(** mail.go, lines 56-121. *)
Definition ToBytes (c : Collab) (m : Mail) : option bytes * option error :=
  let msg : bytes := [] in
  if length (To m) =? 0 then (None, Some (lit "recipient list is empty"))
  else if length (Body m) =? 0 then (None, Some (lit "email body is empty"))
  else
    let msg := writeHeaders msg (From m) (To m) (Subject m) in
    let boundary := generateBoundary c 0 in
    let msg :=
      if 0 <? length (Attachment m) then
        (msg ++ lit "Content-Type: multipart/mixed; boundary=" ++ boundary
             ++ CRLF ++ CRLF)
          ++ lit "--" ++ boundary ++ CRLF
      else msg in
    match writeBody c msg (MT m) (Body m) with
    | (_, Some err) => (None, Some err)
    | (msg, None) =>
        if 0 <? length (Attachment m) then
          match writeAttachments c boundary msg (Attachment m) with
          | (_, Some err) => (None, Some err)
          | (msg, None) =>
              (Some (msg ++ CRLF ++ lit "--" ++ boundary ++ lit "--" ++ CRLF),
               None)
          end
        else (Some msg, None)
    end.

End Legacy.

(** The message of the validating variant without inline files, seen as a
    message of the other variant. *)
Definition toLegacy (m : Mail) : Legacy.Mail :=
  Legacy.mkMail (MT m) (From m) (To m) (Subject m) (Body m) []
    (Attachment m).

(** ** Sample collaborators and messages *)

(** A random source that stores nothing and reports an error. *)
Definition noEntropy (k : nat) : bytes * option error :=
  ([], Some (lit "entropy source unavailable")).

(** A file system without files. *)
Definition noFiles (name : bytes) : bytes * option error :=
  ([], Some (lit "open " ++ name ++ lit ": no such file or directory")).

Definition offline : Collab := mkCollab noEntropy noFiles stdQP.

(** A quoted-printable writer whose underlying writer is broken. *)
Definition brokenQP : QPWriter :=
  {| qpState := unit;
     qpNew := tt;
     qpWrite := fun _ _ => (tt, [], Some (lit "short write"));
     qpClose := fun _ => ([], Some (lit "short write")) |}.

(** The scenario of the specification: a plain message from [a@b.com]
    to [c@d.com]. *)
Definition plainMail : Mail :=
  mkMail PlainText (lit "a@b.com") [lit "c@d.com"] (lit "Hi") (lit "hello")
    [] [].

Definition withTo (to : list bytes) (m : Mail) : Mail :=
  mkMail (MT m) (From m) to (Subject m) (Body m) (Attachment m) (Inline m).

Definition withFrom (from : bytes) (m : Mail) : Mail :=
  mkMail (MT m) from (To m) (Subject m) (Body m) (Attachment m) (Inline m).

Definition withSubject (subject : bytes) (m : Mail) : Mail :=
  mkMail (MT m) (From m) (To m) subject (Body m) (Attachment m) (Inline m).

Definition withBody (body : bytes) (m : Mail) : Mail :=
  mkMail (MT m) (From m) (To m) (Subject m) body (Attachment m) (Inline m).

Definition withAttachment (files : list AttachmentFile) (m : Mail) : Mail :=
  mkMail (MT m) (From m) (To m) (Subject m) (Body m) files (Inline m).

Definition withInline (files : list InlineFile) (m : Mail) : Mail :=
  mkMail (MT m) (From m) (To m) (Subject m) (Body m) (Attachment m) files.

(** An attachment given by name only, to be read from disk. *)
Definition onDisk : AttachmentFile :=
  mkAttachmentFile (lit "report.pdf") [] [].

(** The attachment of [TestMail_ToBytes_Attachment]. *)
Definition testfile : AttachmentFile :=
  mkAttachmentFile (lit "testfile.txt") []
    (lit "This is the content of the file.").

(** The inline file of [TestMail_ToBytes_InlineImage]. *)
Definition logo : InlineFile :=
  mkInlineFile (lit "logo") (lit "logo.png") (lit "image/png")
    (lit "fake-image-data").

(** The messages of the tests of part_002. *)
Definition testMail (mt : MailType) (to : list bytes) (subject body : bytes)
  : Mail :=
  mkMail mt (lit "sender@example.com") to subject body [] [].

Definition testPlain : Mail :=
  testMail PlainText [lit "recipient@example.com"] (lit "Test Subject")
    (lit "This is a plain text body.").

Definition testHTML : Mail :=
  testMail HTML [lit "recipient@example.com"] (lit "Test HTML Subject")
    (lit "<h1>This is HTML content.</h1>").

Definition testAttachment : Mail :=
  withAttachment [testfile]
    (testMail PlainText [lit "recipient@example.com"] (lit "Test Attachment")
       (lit "Please see the attached file.")).

Definition testInline : Mail :=
  withInline [logo]
    (testMail HTML [lit "recipient@example.com"] (lit "Test Inline Image")
       (lit "<html><body><img src=" ++ [DQUOTE] ++ lit "cid:logo" ++ [DQUOTE]
            ++ lit " /></body></html>")).

Definition testRecipients : Mail :=
  testMail PlainText
    [lit "recipient1@example.com"; lit "recipient2@example.com"]
    (lit "Test Multiple Recipients") (lit "Test body").

(** A body with a line of a hundred characters. *)
Definition longBody : bytes := repeat "x"%char 100 ++ lit " =" ++ CRLF.

(** A subject of ASCII bytes only that tries to add a header line. *)
Definition injectedSubject : bytes := lit "Hi" ++ CRLF ++ lit "Bcc: x@y.zz".

(** The output of a call that succeeded. *)
Definition output (r : option bytes * option error) : bytes :=
  match fst r with
  | Some out => out
  | None => []
  end.

(** The boundary rendered from a buffer that was never written. *)
Definition zeroBoundary : bytes :=
  lit "boundary-00000000000000000000000000000000".


(** ** The error of [ToBytes], read off its collaborators *)

(** The error a quoted-printable writer gives for a body. *)
Definition qpError (q : QPWriter) (body : bytes) : option error :=
  let '(st, _, err) := qpWrite q (qpNew q) body in
  match err with
  | Some e => Some e
  | None => snd (qpClose q st)
  end.

(** The error of the first attachment that has to be read from disk and
    cannot be. *)
Fixpoint readError (readFile : bytes -> bytes * option error)
    (files : list AttachmentFile) : option error :=
  match files with
  | [] => None
  | file :: rest =>
      if 0 <? length (aBody file) then readError readFile rest
      else
        match snd (readFile (aName file)) with
        | Some e => Some e
        | None => readError readFile rest
        end
  end.

(** ** Auxiliary definitions for the proofs *)

(** What the loop of [writeBytes] appends, without the accumulator. *)
Fixpoint wrapFrom (index : nat) (payload : bytes) : bytes :=
  match payload with
  | [] => []
  | b :: rest =>
      b :: (if (index + 1) mod 76 =? 0 then CRLF else [])
        ++ wrapFrom (index + 1) rest
  end.

(** The 24-bit group of three source bytes. *)
Definition val3 (s0 s1 s2 : ascii) : N :=
  N.lor (N.lor (N.shiftl (code s0) 16) (N.shiftl (code s1) 8)) (code s2).

Definition noCR (l : bytes) : bool := forallb (fun c => negb (isByte CR c)) l.

Definition plain (c : ascii) : bool := negb (isByte CR c || isByte LF c).

Definition endLine (l : bytes) : bytes := l ++ CRLF.

(** All 256 bytes, to settle a fact about every byte by evaluation. *)
Definition allBytes : bytes := map ascii_of_nat (seq 0 256).

(** A line under construction in the quoted-printable writer, and a
    finished line of its output. *)
Definition lineOK (l : bytes) : Prop := noCR l = true /\ length l <= 75.
Definition fullOK (l : bytes) : Prop := noCR l = true /\ length l <= 76.

(** What a quoted-printable writer leaves in the buffer for a body. *)
Definition qpOutput (q : QPWriter) (body : bytes) : bytes :=
  let '(st, out, err) := qpWrite q (qpNew q) body in
  match err with
  | Some _ => out
  | None => out ++ fst (qpClose q st)
  end.

(** The bytes of an accepted address. *)
Definition addrChar (c : ascii) : bool := localChar c || isByte "@" c.

(** The test of [needsEncoding] on one byte. *)
Definition needs1 (b : ascii) : bool :=
  ((code b <? 32)%N || (126 <? code b)%N) && negb (isByte TAB b).

(** Empty, or starting with CRLF. *)
Definition crlfOrNil (s : bytes) : Prop := s = [] \/ exists t, s = CRLF ++ t.

(** The pieces of the output of [ToBytes], without the buffer: the four
    header lines; the header lines of the body part; the delimiter and
    header lines of an inline part and of an attachment; the base64 text
    of a part; the bytes an attachment stands for. *)
Definition headerLines (from : bytes) (to : list bytes) (subject : bytes)
  : list bytes :=
  [lit "From: " ++ from;
   lit "To: " ++ Join to (lit ", ");
   lit "Subject: " ++ Mime.Encode (lit "utf-8") subject;
   lit "MIME-Version: 1.0"].

Definition bodyLines (mt : MailType) : list bytes :=
  [lit "Content-Type: " ++ MailType_String mt ++ lit "; charset=" ++ charset;
   lit "Content-Transfer-Encoding: quoted-printable"].

Definition inlineHead (relatedBoundary : bytes) (file : InlineFile) : bytes :=
  lit "--" ++ relatedBoundary ++ CRLF
  ++ lit "Content-Type: " ++ orOctetStream (iContentType file)
  ++ lit "; name=" ++ [DQUOTE] ++ iName file ++ [DQUOTE] ++ CRLF
  ++ lit "Content-Transfer-Encoding: base64" ++ CRLF
  ++ lit "Content-ID: <" ++ iCID file ++ lit ">" ++ CRLF
  ++ lit "Content-Disposition: inline; filename=" ++ [DQUOTE] ++ iName file
  ++ [DQUOTE] ++ CRLF.

Definition attachHead (boundary : bytes) (file : AttachmentFile) : bytes :=
  lit "--" ++ boundary ++ CRLF
  ++ lit "Content-Type: " ++ orOctetStream (aContentType file)
  ++ lit "; name=" ++ [DQUOTE] ++ aName file ++ [DQUOTE] ++ CRLF
  ++ lit "Content-Transfer-Encoding: base64" ++ CRLF
  ++ lit "Content-Disposition: attachment; filename=" ++ [DQUOTE]
  ++ aName file ++ [DQUOTE] ++ CRLF.

Definition base64Text (data : bytes) : bytes :=
  wrapFrom 0 (Base64.Encode data).

Definition inlinePart (relatedBoundary : bytes) (file : InlineFile) : bytes :=
  CRLF ++ inlineHead relatedBoundary file ++ CRLF ++ base64Text (iBody file).

Definition attachContent (readFile : bytes -> bytes * option error)
    (file : AttachmentFile) : bytes :=
  if 0 <? length (aBody file) then aBody file
  else fst (readFile (aName file)).

Definition attachPart (readFile : bytes -> bytes * option error)
    (boundary : bytes) (file : AttachmentFile) : bytes :=
  CRLF ++ attachHead boundary file ++ CRLF
  ++ base64Text (attachContent readFile file).

(** ** The header block and the boundaries of a message *)

(** The header block of a message: its lines up to the first empty one. *)
Fixpoint headerBlock (ls : list bytes) : list bytes :=
  match ls with
  | [] => []
  | [] :: _ => []
  | l :: rest => l :: headerBlock rest
  end.

(** The message declares the boundary [b]: a [Content-Type] header of its
    header block names a multipart type and gives [b] as its boundary. *)
Definition declaresBoundary (out b : bytes) : Prop :=
  exists sub,
    In (lit "Content-Type: multipart/" ++ sub ++ lit "; boundary=" ++ b)
       (headerBlock (lines out)).

(** A boundary delimiter line of the message: two hyphens and a boundary
    the message declares, or the same with two more hyphens (the closing
    delimiter). *)
Definition delimiterLine (out l : bytes) : Prop :=
  exists b,
    declaresBoundary out b
    /\ (l = lit "--" ++ b \/ l = lit "--" ++ b ++ lit "--").

(** The lines that complete the header block after [MIME-Version]: the
    [Content-Type] of the container (line 106), or the two headers of
    the body (lines 151-152). *)
Definition topLines (c : Collab) (m : Mail) : list bytes :=
  if (0 <? length (Attachment m)) || (0 <? length (Inline m))
  then [lit "Content-Type: multipart/mixed; boundary=" ++ generateBoundary c 0]
  else bodyLines (MT m).

(** ** The random source as the toolchain gives it *)

(** What one call of [rand.Read(buf[:])] can do.  Up to Go 1.23 it
    returns, with the bytes it stored and the error of the Reader, if
    any.  From Go 1.24 on it returns only after it has filled the buffer
    and aborts the process when the Reader fails. *)
Inductive ReadOutcome : Type :=
| Returns (stored : bytes) (err : option error)
| Aborts.

Definition aborts (o : ReadOutcome) : bool :=
  match o with
  | Aborts => true
  | Returns _ _ => false
  end.

(** What the caller of a read that returned has in hand. *)
Definition returned (o : ReadOutcome) : bytes * option error :=
  match o with
  | Returns stored err => (stored, err)
  | Aborts => ([], None)
  end.

(** The calls of [generateBoundary] in one call of [ToBytes], by their
    number: none when a check fails (the returns of lines 74-92 come
    before line 101), the one of line 101 otherwise, and after it that
    of line 112 when there are inline files.  Both come before the body
    is written and before any file is read. *)
Definition boundaryReads (m : Mail) : list nat :=
  if length (To m) =? 0 then []
  else if length (Body m) =? 0 then []
  else if negb (ValidateEmail (From m)) then []
  else
    match checkTo (To m) with
    | Some _ => []
    | None => if 0 <? length (Inline m) then [0; 1] else [0]
    end.

(** A call of [ToBytes] with such a source: [None] when one of its reads
    aborts the process, so that the call does not return; otherwise what
    [ToBytes] returns. *)
Definition runToBytes (read : nat -> ReadOutcome)
    (readFile : bytes -> bytes * option error) (q : QPWriter) (m : Mail)
  : option (option bytes * option error) :=
  if existsb (fun k => aborts (read k)) (boundaryReads m) then None
  else Some (ToBytes (mkCollab (fun k => returned (read k)) readFile q) m).

(** A Reader that fails, before Go 1.24 and from Go 1.24 on. *)
Definition failingRead (k : nat) : ReadOutcome :=
  Returns [] (Some (lit "entropy source unavailable")).

Definition abortingRead (k : nat) : ReadOutcome := Aborts.

(** A Reader that works: the [k]-th read stores sixteen bytes of value
    [k]. *)
Definition countingRead (k : nat) : ReadOutcome :=
  Returns (repeat (ascii_of_nat k) 16) None.

(** ** Definitions for the further properties *)

(** A lowercase hexadecimal digit. *)
Definition isLowerHex (c : ascii) : bool := isDigit c || between "a" "f" c.

(** The byte two hexadecimal digits of [table] stand for. *)
Definition unhexByte (table : bytes) (h l : ascii) : option ascii :=
  match Base64.indexOf h table 0, Base64.indexOf l table 0 with
  | Some a, Some b => Some (ascii_of_N (a * 16 + b))
  | _, _ => None
  end.

Definition unhexPair (table : bytes) (p : bytes) : option ascii :=
  match p with
  | [h; l] => unhexByte table h l
  | _ => None
  end.

(** A random source whose [k]-th read stores sixteen bytes of value [k]. *)
Definition counting (k : nat) : bytes * option error :=
  (repeat (ascii_of_nat k) 16, None).

(** A file system with one file, [report.pdf]. *)
Definition oneFile (name : bytes) : bytes * option error :=
  if bytes_eqb name (lit "report.pdf") then (lit "%PDF-1.7", None)
  else noFiles name.

(** An address that is no address, with a line break in it. *)
Definition brokenAddress : bytes := lit "nobody" ++ CRLF ++ lit "X-Extra: 1".

(** A byte of base64 text as [writeBytes] lays it out: a character of the
    standard alphabet, the padding character, or one of the two bytes of
    a line break. *)
Definition base64Byte (c : ascii) : bool :=
  isLetter c || isDigit c || isByte "+" c || isByte "/" c || isByte "=" c
  || isByte CR c || isByte LF c.

(** A byte the quoted-printable writer copies: a printable character
    other than the equals sign, a space or a tab. *)
Definition simpleByte (c : ascii) : bool :=
  (between "!" "~" c && negb (isByte "=" c)) || QuotedPrintable.isWhitespace c.

Definition endsBlank (l : bytes) : bool :=
  match rev l with
  | [] => false
  | b :: _ => QuotedPrintable.isWhitespace b
  end.

(** A line the writer has nothing to do to: at most 75 bytes, all of them
    copied, the last one no space and no tab. *)
Definition verbatimLine (l : bytes) : bool :=
  forallb simpleByte l && (length l <=? 75) && negb (endsBlank l).

(** A byte of the 7-bit range. *)
Definition ascii7 (c : ascii) : bool := (code c <? 128)%N.

Definition sevenBit (l : bytes) : bool := forallb ascii7 l.

(** The quoted-printable writer holds and has written 7-bit bytes only. *)
Definition sevenBitState (s : QuotedPrintable.Writer * bytes) : bool :=
  sevenBit (QuotedPrintable.line (fst s)) && sevenBit (snd s).

(* ================================================================= *)
(** * Part II: properties *)
(* ================================================================= *)

Ltac div_lia := zify; Z.to_euclidean_division_equations; lia.

(** ** Lines *)

Lemma linesFrom_cons2 : forall c d t cur,
  linesFrom cur (c :: d :: t) =
  if isByte CR c && isByte LF d then rev cur :: linesFrom [] t
  else linesFrom (c :: cur) (d :: t).
Proof. reflexivity. Qed.

Lemma linesFrom_noCR : forall l cur,
  noCR l = true -> linesFrom cur l = [rev cur ++ l].
Proof.
  induction l as [|c l IH]; intros cur H.
  - simpl. now rewrite app_nil_r.
  - simpl in H. apply andb_true_iff in H as [Hc Hl].
    destruct l as [|d l'].
    + reflexivity.
    + apply negb_true_iff in Hc. rewrite linesFrom_cons2, Hc. cbn [andb].
      rewrite IH by assumption. simpl. now rewrite <- app_assoc.
Qed.

Lemma linesFrom_break : forall l cur rest,
  noCR l = true ->
  linesFrom cur (l ++ CRLF ++ rest) = (rev cur ++ l) :: linesFrom [] rest.
Proof.
  induction l as [|c l IH]; intros cur rest H.
  - cbn. now rewrite app_nil_r.
  - simpl in H. apply andb_true_iff in H as [Hc Hl].
    apply negb_true_iff in Hc.
    change ((c :: l) ++ CRLF ++ rest) with (c :: (l ++ CRLF ++ rest)).
    destruct (l ++ CRLF ++ rest) as [|d t] eqn:E.
    + destruct l; discriminate.
    + rewrite linesFrom_cons2, Hc. cbn [andb]. rewrite <- E, IH by assumption.
      simpl. now rewrite <- app_assoc.
Qed.

Lemma lines_endLines : forall ls last,
  Forall (fun l => noCR l = true) ls -> noCR last = true ->
  lines (flat_map endLine ls ++ last) = ls ++ [last].
Proof.
  unfold lines. induction ls as [|l ls IH]; intros last Hls Hlast; simpl.
  - now apply (linesFrom_noCR last []).
  - inversion Hls; subst. unfold endLine at 1.
    rewrite <- !app_assoc.
    rewrite (linesFrom_break l [] (flat_map endLine ls ++ last)) by assumption.
    simpl. f_equal. now apply IH.
Qed.

(** ** Facts about single bytes *)

Lemma forall_bytes : forall P : ascii -> bool,
  forallb P allBytes = true -> forall c, P c = true.
Proof.
  intros P H c. rewrite forallb_forall in H. apply H.
  rewrite <- (ascii_nat_embedding c). unfold allBytes.
  apply in_map, in_seq. pose proof (nat_ascii_bounded c). lia.
Qed.

Lemma noCR_app : forall a b, noCR (a ++ b) = noCR a && noCR b.
Proof. intros. apply forallb_app. Qed.

Lemma noCR_flat_map : forall (f : ascii -> bytes) s,
  (forall b, noCR (f b) = true) -> noCR (flat_map f s) = true.
Proof.
  intros f s H. induction s as [|b s IH]; [reflexivity|].
  simpl. now rewrite noCR_app, H, IH.
Qed.

Lemma noCR_hex : forall b, noCR ("="%char :: hexByte upperhex b) = true.
Proof.
  apply (forall_bytes (fun b => noCR ("="%char :: hexByte upperhex b))).
  vm_compute; reflexivity.
Qed.

Lemma forallb_impl : forall (P Q : ascii -> bool) l,
  (forall c, implb (P c) (Q c) = true) ->
  forallb P l = true -> forallb Q l = true.
Proof.
  intros P Q l H. induction l as [|c l IH]; simpl; [reflexivity|].
  intro Hl. apply andb_true_iff in Hl as [Hc Hl].
  specialize (H c). rewrite Hc in H. simpl in H. rewrite H. now apply IH.
Qed.

(** ** Base64: bits, alphabet, round trip *)

Section Base64Facts.

Import Base64.

Lemma testbit_above : forall b k n : N,
  (b < 2 ^ k)%N -> (k <= n)%N -> N.testbit b n = false.
Proof.
  intros b k n Hb Hn. destruct (N.eq_dec b 0) as [->|Hz].
  - apply N.bits_0.
  - apply N.bits_above_log2.
    assert (N.log2 b < k)%N by (apply N.log2_lt_pow2; lia). lia.
Qed.

Lemma lor_shiftl_add : forall a b k : N,
  (b < 2 ^ k)%N -> N.lor (N.shiftl a k) b = (a * 2 ^ k + b)%N.
Proof.
  intros a b k Hb.
  assert (Z0 : N.land (N.shiftl a k) b = 0%N).
  { apply N.bits_inj; intro n. rewrite N.land_spec, N.bits_0.
    destruct (N.lt_ge_cases n k).
    - now rewrite N.shiftl_spec_low.
    - rewrite (testbit_above b k n) by assumption. apply andb_false_r. }
  rewrite <- N.lxor_lor, <- N.add_nocarry_lxor, N.shiftl_mul_pow2 by assumption.
  reflexivity.
Qed.

Lemma code_bound : forall c, (code c < 256)%N.
Proof. intro c. apply N_ascii_bounded. Qed.

Lemma val3_arith : forall s0 s1 s2,
  val3 s0 s1 s2 = (code s0 * 65536 + code s1 * 256 + code s2)%N.
Proof.
  intros. unfold val3.
  pose proof (code_bound s0). pose proof (code_bound s1).
  pose proof (code_bound s2).
  rewrite (N.shiftl_mul_pow2 (code s1)).
  rewrite (lor_shiftl_add (code s0) (code s1 * 2 ^ 8) 16)
    by (change (2 ^ 8)%N with 256%N; change (2 ^ 16)%N with 65536%N; lia).
  change (2 ^ 8)%N with 256%N; change (2 ^ 16)%N with 65536%N.
  transitivity (N.lor (N.shiftl (code s0 * 256 + code s1) 8) (code s2)).
  - f_equal. rewrite N.shiftl_mul_pow2. change (2 ^ 8)%N with 256%N. lia.
  - rewrite lor_shiftl_add by (change (2 ^ 8)%N with 256%N; lia).
    change (2 ^ 8)%N with 256%N. lia.
Qed.

Lemma val2_arith : forall s0 s1,
  N.lor (N.shiftl (code s0) 16) (N.shiftl (code s1) 8)
  = (code s0 * 65536 + code s1 * 256)%N.
Proof.
  intros. pose proof (code_bound s0). pose proof (code_bound s1).
  rewrite (N.shiftl_mul_pow2 (code s1)).
  rewrite lor_shiftl_add
    by (change (2 ^ 8)%N with 256%N; change (2 ^ 16)%N with 65536%N; lia).
  reflexivity.
Qed.

Lemma val1_arith : forall s0, N.shiftl (code s0) 16 = (code s0 * 65536)%N.
Proof. intros. now rewrite N.shiftl_mul_pow2. Qed.

Lemma land_63 : forall x, N.land x 63 = (x mod 64)%N.
Proof. intro x. change 63%N with (N.ones 6). now rewrite N.land_ones. Qed.

Lemma land_255 : forall x, N.land x 255 = (x mod 256)%N.
Proof. intro x. change 255%N with (N.ones 8). now rewrite N.land_ones. Qed.

(** Every character of the alphabet decodes to its index. *)
Lemma decodeChar_alphabet : forall n,
  (n < 64)%N -> decodeChar (nth (N.to_nat n) encodeStd NUL) = Some n.
Proof.
  intros n Hn.
  assert (All : forallb
            (fun i => match decodeChar (nth i encodeStd NUL) with
                      | Some m => N.eqb m (N.of_nat i)
                      | None => false
                      end) (seq 0 64) = true) by (vm_compute; reflexivity).
  rewrite forallb_forall in All.
  specialize (All (N.to_nat n)). rewrite in_seq in All.
  assert (Hi : 0 <= N.to_nat n < 0 + 64) by lia. specialize (All Hi).
  destruct (decodeChar (nth (N.to_nat n) encodeStd NUL)) as [m|];
    [|discriminate].
  apply N.eqb_eq in All. f_equal. lia.
Qed.

Lemma decodeChar_sextet : forall val sh,
  decodeChar (sextet val sh) = Some ((val / 2 ^ sh) mod 64)%N.
Proof.
  intros. unfold sextet. rewrite land_63, N.shiftr_div_pow2.
  apply decodeChar_alphabet. apply N.mod_upper_bound. discriminate.
Qed.

Lemma decodeChar_padding : decodeChar StdPadding = None.
Proof. vm_compute; reflexivity. Qed.

(** No character of the encoding is a carriage return or a line feed. *)
Lemma plain_sextet : forall val sh, plain (sextet val sh) = true.
Proof.
  intros. unfold sextet.
  assert (All : forallb plain encodeStd = true) by (vm_compute; reflexivity).
  rewrite forallb_forall in All. apply All. apply nth_In.
  rewrite land_63.
  assert ((N.shiftr val sh) mod 64 < 64)%N by (apply N.mod_upper_bound; discriminate).
  change (length encodeStd) with 64. lia.
Qed.

Lemma Encode_plain : forall src, forallb plain (Encode src) = true.
Proof.
  fix IH 1. intros [|s0 [|s1 [|s2 rest]]]; try reflexivity.
  - cbn [Encode forallb]. now rewrite !plain_sextet.
  - cbn [Encode forallb]. now rewrite !plain_sextet.
  - cbn [Encode forallb]. rewrite !plain_sextet. cbn [andb]. apply IH.
Qed.

Lemma byteAt_arith : forall val sh c,
  ((val / 2 ^ sh) mod 256 = code c)%N -> byteAt val sh = c.
Proof.
  intros val sh c H. unfold byteAt.
  rewrite land_255, N.shiftr_div_pow2, H. apply ascii_N_embedding.
Qed.

Lemma decodeQuanta_cons4 : forall c0 c1 c2 c3 rest,
  decodeQuanta (c0 :: c1 :: c2 :: c3 :: rest) =
  match decodeChar c0, decodeChar c1 with
  | Some v0, Some v1 =>
      match decodeChar c2, decodeChar c3 with
      | Some v2, Some v3 =>
          let val := (v0 * 262144 + v1 * 4096 + v2 * 64 + v3)%N in
          match decodeQuanta rest with
          | Some out =>
              Some (byteAt val 16 :: byteAt val 8 :: byteAt val 0 :: out)
          | None => None
          end
      | Some v2, None =>
          if Ascii.eqb c3 StdPadding && (v2 mod 4 =? 0)%N then
            match rest with
            | [] =>
                let val := (v0 * 262144 + v1 * 4096 + v2 * 64)%N in
                Some [byteAt val 16; byteAt val 8]
            | _ :: _ => None
            end
          else None
      | None, _ =>
          if Ascii.eqb c2 StdPadding && Ascii.eqb c3 StdPadding
             && (v1 mod 16 =? 0)%N then
            match rest with
            | [] =>
                let val := (v0 * 262144 + v1 * 4096)%N in
                Some [byteAt val 16]
            | _ :: _ => None
            end
          else None
      end
  | _, _ => None
  end.
Proof. reflexivity. Qed.

Lemma decode_quantum3 : forall s0 s1 s2 rest,
  let val := val3 s0 s1 s2 in
  decodeQuanta
    (sextet val 18 :: sextet val 12 :: sextet val 6 :: sextet val 0 :: rest)
  = match decodeQuanta rest with
    | Some out => Some (s0 :: s1 :: s2 :: out)
    | None => None
    end.
Proof.
  intros. rewrite decodeQuanta_cons4, !decodeChar_sextet. cbv zeta.
  subst val. rewrite val3_arith.
  pose proof (code_bound s0). pose proof (code_bound s1).
  pose proof (code_bound s2).
  set (v := (code s0 * 65536 + code s1 * 256 + code s2)%N).
  change (2 ^ 18)%N with 262144%N. change (2 ^ 12)%N with 4096%N.
  change (2 ^ 6)%N with 64%N. change (2 ^ 0)%N with 1%N.
  replace ((v / 262144) mod 64 * 262144 + (v / 4096) mod 64 * 4096
           + (v / 64) mod 64 * 64 + (v / 1) mod 64)%N with v
    by (subst v; div_lia).
  destruct (decodeQuanta rest); [|reflexivity].
  rewrite (byteAt_arith v 16 s0), (byteAt_arith v 8 s1), (byteAt_arith v 0 s2);
    [reflexivity| | |].
  - change (2 ^ 0)%N with 1%N. subst v; div_lia.
  - change (2 ^ 8)%N with 256%N. subst v; div_lia.
  - change (2 ^ 16)%N with 65536%N. subst v; div_lia.
Qed.

Lemma decode_quantum2 : forall s0 s1,
  let val := N.lor (N.shiftl (code s0) 16) (N.shiftl (code s1) 8) in
  decodeQuanta [sextet val 18; sextet val 12; sextet val 6; StdPadding]
  = Some [s0; s1].
Proof.
  intros. rewrite decodeQuanta_cons4, !decodeChar_sextet, decodeChar_padding.
  subst val. rewrite val2_arith.
  pose proof (code_bound s0). pose proof (code_bound s1).
  set (v := (code s0 * 65536 + code s1 * 256)%N).
  change (2 ^ 18)%N with 262144%N. change (2 ^ 12)%N with 4096%N.
  change (2 ^ 6)%N with 64%N.
  rewrite Ascii.eqb_refl. cbn [andb].
  replace (((v / 64) mod 64) mod 4 =? 0)%N with true
    by (symmetry; apply N.eqb_eq; subst v; div_lia).
  cbv zeta.
  replace ((v / 262144) mod 64 * 262144 + (v / 4096) mod 64 * 4096
           + (v / 64) mod 64 * 64)%N with v by (subst v; div_lia).
  rewrite (byteAt_arith v 16 s0), (byteAt_arith v 8 s1); [reflexivity| |].
  - change (2 ^ 8)%N with 256%N. subst v; div_lia.
  - change (2 ^ 16)%N with 65536%N. subst v; div_lia.
Qed.

Lemma decode_quantum1 : forall s0,
  let val := N.shiftl (code s0) 16 in
  decodeQuanta [sextet val 18; sextet val 12; StdPadding; StdPadding]
  = Some [s0].
Proof.
  intros. rewrite decodeQuanta_cons4, !decodeChar_sextet, decodeChar_padding.
  subst val. rewrite val1_arith.
  pose proof (code_bound s0).
  set (v := (code s0 * 65536)%N).
  change (2 ^ 18)%N with 262144%N. change (2 ^ 12)%N with 4096%N.
  rewrite !Ascii.eqb_refl. cbn [andb].
  replace (((v / 4096) mod 64) mod 16 =? 0)%N with true
    by (symmetry; apply N.eqb_eq; subst v; div_lia).
  cbv zeta.
  replace ((v / 262144) mod 64 * 262144 + (v / 4096) mod 64 * 4096)%N with v
    by (subst v; div_lia).
  rewrite (byteAt_arith v 16 s0); [reflexivity|].
  change (2 ^ 16)%N with 65536%N. subst v; div_lia.
Qed.

(** Decoding undoes encoding. *)
Lemma decodeQuanta_Encode : forall src, decodeQuanta (Encode src) = Some src.
Proof.
  fix IH 1. intros [|s0 [|s1 [|s2 rest]]].
  - reflexivity.
  - apply decode_quantum1.
  - apply decode_quantum2.
  - change (Encode (s0 :: s1 :: s2 :: rest))
      with (let val := val3 s0 s1 s2 in
            sextet val 18 :: sextet val 12 :: sextet val 6 :: sextet val 0
              :: Encode rest).
    cbv zeta. rewrite decode_quantum3, IH. reflexivity.
Qed.

Lemma Encode_length : forall src,
  length (Encode src) = EncodedLen (length src).
Proof.
  fix IH 1. intros [|s0 [|s1 [|s2 rest]]]; try reflexivity.
  cbn [Encode length]. rewrite IH. unfold EncodedLen.
  replace (S (S (S (length rest))) + 2) with ((length rest + 2) + 1 * 3) by lia.
  rewrite Nat.div_add by discriminate. lia.
Qed.

Lemma unwrap_plain : forall s, forallb plain s = true -> unwrap s = s.
Proof.
  induction s as [|c s IH]; intro H; [reflexivity|].
  simpl in H. apply andb_true_iff in H as [Hc Hs].
  unfold unwrap in *. simpl. unfold plain in Hc. rewrite Hc.
  now rewrite IH.
Qed.

End Base64Facts.

(** ** The binary encoder: [writeBytes] *)

Lemma writeLoop_wrapFrom : forall payload msg index,
  writeLoop msg index payload = msg ++ wrapFrom index payload.
Proof.
  induction payload as [|b rest IH]; intros msg index;
    cbn [writeLoop wrapFrom].
  - now rewrite app_nil_r.
  - rewrite IH. destruct ((index + 1) mod 76 =? 0);
      rewrite <- !app_assoc; reflexivity.
Qed.

Lemma writeBytes_eq : forall msg file,
  writeBytes msg file = (msg ++ CRLF ++ wrapFrom 0 (Base64.Encode file), None).
Proof.
  intros. unfold writeBytes. now rewrite writeLoop_wrapFrom, <- app_assoc.
Qed.

Lemma wrapFrom_short : forall a index b,
  index mod 76 + length a < 76 ->
  wrapFrom index (a ++ b) = a ++ wrapFrom (index + length a) b.
Proof.
  induction a as [|x a IH]; intros index b H;
    cbn [length app wrapFrom] in *.
  - now rewrite Nat.add_0_r.
  - assert (E : (index + 1) mod 76 = index mod 76 + 1) by div_lia.
    rewrite E. replace (index mod 76 + 1 =? 0) with false
      by (symmetry; apply Nat.eqb_neq; lia).
    cbn [app]. rewrite IH by (rewrite E; lia). do 3 f_equal. lia.
Qed.

Lemma wrapFrom_full : forall a index b,
  index mod 76 = 0 -> length a = 76 ->
  wrapFrom index (a ++ b) = a ++ CRLF ++ wrapFrom (index + 76) b.
Proof.
  intros a index b Hi Ha.
  destruct (exists_last (l := a)) as [a' [x ->]];
    [intros ->; discriminate|].
  rewrite length_app in Ha. cbn [length] in Ha.
  rewrite <- !app_assoc. rewrite wrapFrom_short by lia.
  cbn [app wrapFrom].
  assert (E : (index + length a' + 1) mod 76 = 0) by div_lia.
  rewrite E. cbn [Nat.eqb].
  replace (index + length a' + 1) with (index + 76) by lia. reflexivity.
Qed.

Lemma chunks_nil : forall fuel n, chunks fuel n [] = [].
Proof. destruct fuel; reflexivity. Qed.

(** The encoded text is a run of full lines and a shorter rest; the loop
    ends every full line with CRLF and writes the rest bare. *)
Lemma wrap_decompose : forall n p index,
  length p <= n -> index mod 76 = 0 ->
  exists full last,
    p = concat full ++ last
    /\ Forall (fun l => length l = 76) full
    /\ length last < 76
    /\ wrapFrom index p = flat_map endLine full ++ last
    /\ (forall fuel, length p <= fuel ->
        flat_map endLine (chunks fuel 76 p)
        = flat_map endLine full ++ (if isEmpty last then [] else endLine last)).
Proof.
  induction n as [|n IH]; intros p index Hn Hi.
  - destruct p; [|simpl in Hn; lia].
    exists [], []. repeat split; simpl; auto; try lia.
    intros. now rewrite chunks_nil.
  - destruct (Nat.lt_ge_cases (length p) 76) as [Hs|Hl].
    + exists [], p. repeat split; simpl; auto.
      * rewrite <- (app_nil_r p) at 1.
        rewrite wrapFrom_short by lia. simpl. apply app_nil_r.
      * intros fuel Hf. destruct p as [|x p]; [now rewrite chunks_nil|].
        destruct fuel as [|fuel]; [simpl in Hf; lia|].
        cbn [chunks]. rewrite firstn_all2, skipn_all2, chunks_nil by lia.
        simpl. now rewrite app_nil_r.
    + destruct (IH (skipn 76 p) (index + 76)) as (full & last & E & F & L & W & C).
      * rewrite length_skipn. lia.
      * div_lia.
      * exists (firstn 76 p :: full), last.
        assert (Hf : length (firstn 76 p) = 76) by (rewrite length_firstn; lia).
        repeat split; auto.
        -- cbn [concat]. rewrite <- app_assoc, <- E. symmetry.
           apply firstn_skipn.
        -- rewrite <- (firstn_skipn 76 p) at 1.
           rewrite wrapFrom_full by assumption. rewrite W.
           cbn [flat_map]. unfold endLine at 2. now rewrite <- !app_assoc.
        -- intros fuel Hfu. destruct p as [|x p]; [cbn [length] in Hl; lia|].
           destruct fuel as [|fuel]; [cbn [length] in Hfu; lia|].
           cbn [chunks flat_map]. rewrite C; [now rewrite <- app_assoc|].
           rewrite length_skipn. cbn [length] in *. lia.
Qed.

Lemma unwrap_app : forall a b,
  Base64.unwrap (a ++ b) = Base64.unwrap a ++ Base64.unwrap b.
Proof. intros. apply filter_app. Qed.

Lemma unwrap_wrapFrom : forall p index,
  Base64.unwrap (wrapFrom index p) = Base64.unwrap p.
Proof.
  induction p as [|b rest IH]; intro index; [reflexivity|].
  cbn [wrapFrom].
  change (b :: (if (index + 1) mod 76 =? 0 then CRLF else [])
            ++ wrapFrom (index + 1) rest)
    with ([b] ++ (if (index + 1) mod 76 =? 0 then CRLF else [])
            ++ wrapFrom (index + 1) rest).
  change (b :: rest) with ([b] ++ rest).
  rewrite !unwrap_app, IH. f_equal.
  now destruct ((index + 1) mod 76 =? 0).
Qed.

(** C1, as amended.  [writeBytes] appends one CRLF (the empty line that
    ends the part's header block) and then the padded base64 text of the
    input, with a CRLF after every full line of 76 characters and nothing
    after a shorter last line; the text the specification describes,
    [spec_encodeBinary], is the same lines with a CRLF after the last one
    as well. *)
Theorem writeBytes_wraps_at_76 : forall msg file,
  exists full last,
    Base64.Encode file = concat full ++ last
    /\ Forall (fun l => length l = 76) full
    /\ length last < 76
    /\ writeBytes msg file
       = (msg ++ CRLF ++ flat_map endLine full ++ last, None)
    /\ spec_encodeBinary file
       = flat_map endLine full ++ (if isEmpty last then [] else endLine last).
Proof.
  intros msg file.
  destruct (wrap_decompose (length (Base64.Encode file)) (Base64.Encode file) 0)
    as (full & last & E & F & L & W & C); [lia|reflexivity|].
  exists full, last. repeat split; auto.
  - now rewrite writeBytes_eq, W.
  - unfold spec_encodeBinary. apply C. lia.
Qed.

(** C1, the counterexample: for the one byte [a] the encoder writes a
    CRLF and [YQ==] and no CRLF after it, where the described output is
    [YQ==] followed by CRLF; the two differ even when the leading CRLF is
    set aside. *)
Lemma writeBytes_short_line_unterminated :
  writeBytes [] (lit "a") = (CRLF ++ lit "YQ==", None)
  /\ spec_encodeBinary (lit "a") = lit "YQ==" ++ CRLF
  /\ bytes_eqb (skipn 2 (fst (writeBytes [] (lit "a"))))
       (spec_encodeBinary (lit "a")) = false.
Proof. repeat split; vm_compute; reflexivity. Qed.

(** C7.  Taking the carriage returns and line feeds out of what
    [writeBytes] appended and decoding the rest as base64 gives back the
    input. *)
Theorem writeBytes_round_trip : forall msg file,
  exists part,
    writeBytes msg file = (msg ++ part, None)
    /\ Base64.decodeQuanta (Base64.unwrap part) = Some file
    /\ Base64.DecodeString part = Some file.
Proof.
  intros msg file. exists (CRLF ++ wrapFrom 0 (Base64.Encode file)).
  assert (D : Base64.decodeQuanta
                (Base64.unwrap (CRLF ++ wrapFrom 0 (Base64.Encode file)))
              = Some file).
  { rewrite unwrap_app, unwrap_wrapFrom.
    change (Base64.unwrap CRLF) with (@nil ascii). cbn [app].
    rewrite unwrap_plain by apply Encode_plain.
    apply decodeQuanta_Encode. }
  repeat split; [apply writeBytes_eq | exact D | exact D].
Qed.

(** ** The matcher decides the language of the pattern *)

Section RegexpFacts.

Import Regexp.

Lemma nullable_Matches : forall r, nullable r = true <-> Matches r [].
Proof.
  intro r; split.
  - induction r; simpl; intro H; try discriminate.
    + constructor.
    + apply andb_true_iff in H as [H1 H2].
      change (@nil ascii) with (@nil ascii ++ []). constructor; auto.
    + apply orb_true_iff in H as [H|H]; [apply MAltL|apply MAltR]; auto.
    + constructor.
  - intro H. remember (@nil ascii) as s eqn:Es.
    induction H; simpl; auto; try discriminate.
    + apply app_eq_nil in Es as [-> ->]. rewrite IHMatches1, IHMatches2; auto.
    + rewrite IHMatches; auto.
    + rewrite IHMatches; auto. apply orb_true_r.
Qed.

Lemma Matches_step : forall r c s, Matches (step c r) s -> Matches r (c :: s).
Proof.
  induction r; intros a s H; simpl in H.
  - inversion H.
  - inversion H.
  - destruct (Ascii.eqb c a) eqn:E; inversion H; subst.
    apply Ascii.eqb_eq in E; subst. constructor.
  - destruct (p a) eqn:E; inversion H; subst. now constructor.
  - assert (L : forall t, Matches (Concat (step a r1) r2) t ->
                          Matches (Concat r1 r2) (a :: t)).
    { intros t Ht. inversion Ht; subst.
      change (a :: s1 ++ s2) with ((a :: s1) ++ s2). constructor; auto. }
    destruct (nullable r1) eqn:N; [|now apply L].
    inversion H; subst; [now apply L|].
    change (a :: s) with ([] ++ a :: s). constructor; auto.
    now apply nullable_Matches.
  - inversion H; subst; [apply MAltL|apply MAltR]; auto.
  - inversion H; subst.
    change (a :: s1 ++ s2) with ((a :: s1) ++ s2). constructor; auto.
Qed.

Lemma step_Matches : forall r t, Matches r t ->
  forall c s, t = c :: s -> Matches (step c r) s.
Proof.
  induction 1; intros a t E; try discriminate.
  - injection E as -> <-. simpl. rewrite Ascii.eqb_refl. constructor.
  - injection E as -> <-. simpl. rewrite H. constructor.
  - destruct s1 as [|x s1]; simpl in E.
    + subst s2. simpl. apply nullable_Matches in H. rewrite H.
      apply MAltR. now apply IHMatches2.
    + injection E as -> <-. simpl.
      assert (M : Matches (Concat (step a r1) r2) (s1 ++ s2))
        by (constructor; auto).
      destruct (nullable r1); [now apply MAltL|exact M].
  - simpl. apply MAltL. now apply IHMatches.
  - simpl. apply MAltR. now apply IHMatches.
  - destruct s1 as [|x s1]; simpl in E.
    + now apply IHMatches2.
    + injection E as -> <-. simpl. constructor; auto.
Qed.

Lemma MatchString_Matches : forall s r,
  MatchString r s = true <-> Matches r s.
Proof.
  induction s as [|c s IH]; intro r; simpl.
  - apply nullable_Matches.
  - rewrite IH. split; [apply Matches_step|].
    intro H. now apply (step_Matches r (c :: s) H).
Qed.

Lemma Matches_Concat : forall r1 r2 s,
  Matches (Concat r1 r2) s <->
  exists s1 s2, s = s1 ++ s2 /\ Matches r1 s1 /\ Matches r2 s2.
Proof.
  intros; split.
  - intro H; inversion H; subst. eauto.
  - intros (s1 & s2 & -> & H1 & H2). now constructor.
Qed.

Lemma Matches_Literal : forall c s, Matches (Literal c) s <-> s = [c].
Proof.
  intros; split.
  - intro H; now inversion H.
  - intros ->. constructor.
Qed.

Lemma Matches_CharClass : forall p s,
  Matches (CharClass p) s <-> exists c, s = [c] /\ p c = true.
Proof.
  intros; split.
  - intro H; inversion H; subst. eauto.
  - intros (c & -> & H). now constructor.
Qed.

Lemma Matches_Star_class : forall p s,
  Matches (Star (CharClass p)) s <-> forallb p s = true.
Proof.
  intros p s; split.
  - intro H. remember (Star (CharClass p)) as r eqn:Er.
    induction H; try discriminate; [reflexivity|].
    injection Er as ->. apply Matches_CharClass in H as (c & -> & Hc).
    simpl. rewrite Hc. now apply IHMatches2.
  - induction s as [|c s IH]; simpl; intro H; [constructor|].
    apply andb_true_iff in H as [Hc Hs].
    change (c :: s) with ([c] ++ s). constructor; [now constructor|auto].
Qed.

Lemma Matches_Plus_class : forall p s,
  Matches (Plus (CharClass p)) s <-> s <> [] /\ forallb p s = true.
Proof.
  intros p s. unfold Plus. rewrite Matches_Concat. split.
  - intros (s1 & s2 & -> & H1 & H2).
    apply Matches_CharClass in H1 as (c & -> & Hc).
    apply Matches_Star_class in H2. simpl. rewrite Hc, H2.
    split; [discriminate|reflexivity].
  - intros [Hn H]. destruct s as [|c s]; [contradiction|].
    simpl in H. apply andb_true_iff in H as [Hc Hs].
    exists [c], s. repeat split.
    + apply Matches_CharClass; eauto.
    + now apply Matches_Star_class.
Qed.

Lemma Matches_AtLeast2_class : forall p s,
  Matches (AtLeast2 (CharClass p)) s <->
  forallb p s = true /\ 2 <= length s.
Proof.
  intros p s. unfold AtLeast2. rewrite Matches_Concat. split.
  - intros (s1 & s2 & -> & H1 & H2).
    apply Matches_CharClass in H1 as (c & -> & Hc).
    apply (Matches_Plus_class p s2) in H2 as [Hn H2].
    simpl. rewrite Hc, H2. split; [reflexivity|].
    destruct s2; [contradiction|simpl; lia].
  - intros [H Hl]. destruct s as [|c [|d s]]; simpl in Hl; try lia.
    cbn [forallb] in H. apply andb_true_iff in H as [Hc Hs].
    exists [c], (d :: s). repeat split.
    + apply Matches_CharClass; eauto.
    + apply (Matches_Plus_class p (d :: s)). split; [discriminate|exact Hs].
Qed.

End RegexpFacts.

(** ** The address validator *)

(** The test cases of [TestValidateEmail] (part_002, lines 9-30). *)
Example TestValidateEmail :
  map (fun e => ValidateEmail (lit e))
    ["user@example.com"; "user.name@example.com"; "user+tag@example.co.uk";
     "invalid"; "@example.com"; "user@"; "user @example.com"; ""]%string
  = [true; true; true; false; false; false; false; false].
Proof. vm_compute; reflexivity. Qed.

(** The strings the pattern matches. *)
Lemma ValidateEmail_form : forall s,
  ValidateEmail s = true <->
  exists localPart pre final,
    s = localPart ++ lit "@" ++ pre ++ lit "." ++ final
    /\ localPart <> [] /\ forallb localChar localPart = true
    /\ pre <> [] /\ forallb domainChar pre = true
    /\ forallb isLetter final = true /\ 2 <= length final.
Proof.
  intro s. unfold ValidateEmail, emailRegex.
  rewrite MatchString_Matches, Matches_Concat. split.
  - intros (l & r1 & -> & Hl & H1).
    apply Matches_Plus_class in Hl as [Hl1 Hl2].
    apply Matches_Concat in H1 as (a & r2 & -> & Ha & H2).
    apply Matches_Literal in Ha as ->.
    apply Matches_Concat in H2 as (d & r3 & -> & Hd & H3).
    apply Matches_Plus_class in Hd as [Hd1 Hd2].
    apply Matches_Concat in H3 as (dot & t & -> & Hdot & Ht).
    apply Matches_Literal in Hdot as ->.
    apply Matches_AtLeast2_class in Ht as [Ht1 Ht2].
    exists l, d, t. repeat split; auto.
  - intros (l & d & t & -> & Hl1 & Hl2 & Hd1 & Hd2 & Ht1 & Ht2).
    exists l, (lit "@" ++ d ++ lit "." ++ t). repeat split.
    + now apply Matches_Plus_class.
    + apply Matches_Concat. exists (lit "@"), (d ++ lit "." ++ t).
      repeat split; [now apply Matches_Literal|].
      apply Matches_Concat. exists d, (lit "." ++ t). repeat split.
      * now apply Matches_Plus_class.
      * apply Matches_Concat. exists (lit "."), t.
        repeat split; [now apply Matches_Literal|].
        now apply Matches_AtLeast2_class.
Qed.

(** Cutting a string at a separator and joining the pieces again. *)
Lemma splitOn_not_nil : forall sep s cur, splitOn sep cur s <> [].
Proof.
  induction s as [|c s IH]; intro cur; simpl; [discriminate|].
  destruct (Ascii.eqb c sep); [discriminate|apply IH].
Qed.

Lemma Join_cons : forall e rest sep,
  rest <> [] -> Join (e :: rest) sep = e ++ sep ++ Join rest sep.
Proof. intros e [|x rest] sep H; [contradiction|reflexivity]. Qed.

Lemma Join_splitOn : forall sep s cur,
  Join (splitOn sep cur s) [sep] = rev cur ++ s.
Proof.
  induction s as [|c s IH]; intro cur; simpl.
  - now rewrite app_nil_r.
  - destruct (Ascii.eqb c sep) eqn:E.
    + apply Ascii.eqb_eq in E; subst c.
      rewrite Join_cons by apply splitOn_not_nil. now rewrite IH.
    + rewrite IH. simpl. now rewrite <- app_assoc.
Qed.

Lemma Join_snoc : forall front final sep,
  front <> [] -> Join (front ++ [final]) sep = Join front sep ++ sep ++ final.
Proof.
  induction front as [|e front IH]; intros final sep H; [contradiction|].
  destruct front as [|e' front].
  - reflexivity.
  - change ((e :: e' :: front) ++ [final])
      with (e :: ((e' :: front) ++ [final])).
    rewrite Join_cons by (now destruct front).
    rewrite IH by discriminate.
    rewrite (Join_cons e (e' :: front)) by discriminate.
    now rewrite <- !app_assoc.
Qed.

Lemma Join_labels : forall labels,
  labels <> [] -> forallb (isLabel false) labels = true ->
  Join labels (lit ".") <> []
  /\ forallb domainChar (Join labels (lit ".")) = true.
Proof.
  assert (D : forall l, forallb labelChar l = true ->
                        forallb domainChar l = true).
  { intro l. apply forallb_impl.
    apply (forall_bytes (fun c => implb (labelChar c) (domainChar c))).
    vm_compute; reflexivity. }
  induction labels as [|l labels IH]; intros Hn H; [contradiction|].
  simpl in H. apply andb_true_iff in H as [Hl H].
  unfold isLabel in Hl. apply andb_true_iff in Hl as [Hne Hc].
  simpl in Hne. apply negb_true_iff, Nat.eqb_neq in Hne.
  destruct labels as [|l' labels].
  - simpl. split; [destruct l; [contradiction|discriminate]|now apply D].
  - rewrite Join_cons by discriminate. split.
    + destruct l; [contradiction|discriminate].
    + rewrite !forallb_app, (D l Hc). simpl.
      apply IH; [discriminate|exact H].
Qed.

(** C4, as amended.  [ValidateEmail] accepts exactly the strings made of a
    non-empty local part of letters, digits and [._%+-], an at sign, a
    non-empty run of letters, digits, dots and hyphens, a dot, and a final
    label of two or more letters.  The run before the last dot is not
    cut into labels: dots may stand next to each other or first in it.
    Every string of the form the claim describes, with labels of one or
    more characters, is accepted. *)
Theorem ValidateEmail_accepts : forall s,
  (ValidateEmail s = true <->
   exists localPart pre final,
     s = localPart ++ lit "@" ++ pre ++ lit "." ++ final
     /\ localPart <> [] /\ forallb localChar localPart = true
     /\ pre <> [] /\ forallb domainChar pre = true
     /\ forallb isLetter final = true /\ 2 <= length final)
  /\ (specAddress false s = true -> ValidateEmail s = true).
Proof.
  intro s. split; [apply ValidateEmail_form|].
  unfold specAddress. intro H.
  pose proof (Join_splitOn "@" s []) as J.
  destruct (splitOn "@" [] s) as [|l [|d [|x rest]]]; try discriminate.
  apply andb_true_iff in H as [H Hd]. apply andb_true_iff in H as [Hl1 Hl2].
  apply negb_true_iff, Nat.eqb_neq in Hl1.
  unfold specDomain in Hd.
  pose proof (Join_splitOn "." d []) as Jd.
  set (labels := splitOn "." [] d) in *.
  apply andb_true_iff in Hd as [Hd Hfin]. apply andb_true_iff in Hd as [Hn Hlab].
  apply Nat.leb_le in Hn.
  assert (Lne : labels <> []) by (destruct labels; [simpl in Hn; lia|discriminate]).
  assert (Rne : removelast labels <> []).
  { destruct labels as [|a [|b t]]; simpl in Hn; try lia. discriminate. }
  rewrite (app_removelast_last [] Lne), Join_snoc in Jd by assumption.
  destruct (Join_labels (removelast labels) Rne Hlab) as [Pne Pch].
  unfold isFinalLabel in Hfin. apply andb_true_iff in Hfin as [F1 F2].
  apply Nat.leb_le in F2.
  apply ValidateEmail_form.
  exists l, (Join (removelast labels) (lit ".")), (last labels []).
  repeat split; auto.
  - change (rev [] ++ s) with s in J. change (rev [] ++ d) with d in Jd.
    rewrite <- J. change (Join [l; d] ["@"%char]) with (l ++ lit "@" ++ d).
    now rewrite <- Jd.
  - intros ->. now apply Hl1.
Qed.

(** C4, at an address of the described form. *)
Lemma ValidateEmail_accepts_witness :
  ValidateEmail (lit "user+tag@example.co.uk") = true.
Proof.
  apply (proj2 (ValidateEmail_accepts (lit "user+tag@example.co.uk"))).
  vm_compute; reflexivity.
Defined.

(** C4, the counterexample.  With labels of one or more characters, as
    the claim describes the domain, [a@b..com] is not of the described
    form (its second label is empty) and is accepted.  Reading the claim
    with labels that may be empty does not save it: then [a@.com] is of
    the described form and is rejected. *)
Lemma ValidateEmail_empty_label :
  ValidateEmail (lit "a@b..com") = true
  /\ specAddress false (lit "a@b..com") = false
  /\ ValidateEmail (lit "a@.com") = false
  /\ specAddress true (lit "a@.com") = true.
Proof. repeat split; vm_compute; reflexivity. Qed.

(** ** The assembler: preconditions and errors *)

Lemma isEmpty_false : forall A (l : list A), l <> [] -> (length l =? 0) = false.
Proof. intros A [|x l] H; [contradiction|reflexivity]. Qed.

Lemma checkTo_first_invalid : forall valid addr rest,
  forallb ValidateEmail valid = true -> ValidateEmail addr = false ->
  checkTo (valid ++ addr :: rest)
  = Some (lit "invalid To email address: " ++ addr).
Proof.
  induction valid as [|a valid IH]; intros addr rest Hv Ha; simpl.
  - now rewrite Ha.
  - simpl in Hv. apply andb_true_iff in Hv as [H1 H2]. rewrite H1. simpl.
    now apply IH.
Qed.

Lemma checkTo_all_valid : forall to,
  forallb ValidateEmail to = true -> checkTo to = None.
Proof.
  induction to as [|a to IH]; simpl; intro H; [reflexivity|].
  apply andb_true_iff in H as [H1 H2]. rewrite H1. simpl. now apply IH.
Qed.

(** C2.  The checks of [ToBytes] run in this order, and each failure ends
    the call with its own error and no buffer: an empty [To]; then an
    empty [Body]; then an invalid [From], named in the error; then the
    first invalid entry of [To], named in the error.  The four errors
    differ from one another whatever the addresses are. *)
Theorem ToBytes_checks_in_order : forall c m,
  (To m = [] ->
   ToBytes c m = (None, Some (lit "recipient list is empty")))
  /\ (To m <> [] -> Body m = [] ->
      ToBytes c m = (None, Some (lit "email body is empty")))
  /\ (To m <> [] -> Body m <> [] -> ValidateEmail (From m) = false ->
      ToBytes c m
      = (None, Some (lit "invalid From email address: " ++ From m)))
  /\ (forall valid addr rest,
      To m = valid ++ addr :: rest -> Body m <> [] ->
      ValidateEmail (From m) = true ->
      forallb ValidateEmail valid = true -> ValidateEmail addr = false ->
      ToBytes c m
      = (None, Some (lit "invalid To email address: " ++ addr)))
  /\ (forall a b,
      lit "recipient list is empty" <> lit "email body is empty"
      /\ lit "recipient list is empty" <> lit "invalid From email address: " ++ a
      /\ lit "recipient list is empty" <> lit "invalid To email address: " ++ a
      /\ lit "email body is empty" <> lit "invalid From email address: " ++ a
      /\ lit "email body is empty" <> lit "invalid To email address: " ++ a
      /\ lit "invalid From email address: " ++ a
         <> lit "invalid To email address: " ++ b).
Proof.
  intros c m. repeat split; try (intro; discriminate).
  - intro H. unfold ToBytes. now rewrite H.
  - intros H1 H2. unfold ToBytes.
    rewrite (isEmpty_false _ _ H1), H2. reflexivity.
  - intros H1 H2 H3. unfold ToBytes.
    rewrite (isEmpty_false _ _ H1), (isEmpty_false _ _ H2), H3. reflexivity.
  - intros valid addr rest H1 H2 H3 H4 H5. unfold ToBytes.
    rewrite (isEmpty_false _ (To m)) by (rewrite H1; now destruct valid).
    rewrite (isEmpty_false _ _ H2), H3. cbn [negb].
    rewrite H1, checkTo_first_invalid by assumption. reflexivity.
Qed.

(** C2, at concrete messages: the scenario message with its recipients
    removed, and with a second recipient that is no address. *)
Lemma ToBytes_checks_in_order_witness :
  ToBytes offline (withTo [] (withBody [] (withFrom (lit "nobody") plainMail)))
  = (None, Some (lit "recipient list is empty"))
  /\ ToBytes offline (withTo [lit "c@d.com"; lit "invalid-email"] plainMail)
     = (None, Some (lit "invalid To email address: invalid-email")).
Proof.
  split.
  - apply (proj1 (ToBytes_checks_in_order offline
             (withTo [] (withBody [] (withFrom (lit "nobody") plainMail))))).
    reflexivity.
  - apply (proj1 (proj2 (proj2 (proj2 (ToBytes_checks_in_order offline
             (withTo [lit "c@d.com"; lit "invalid-email"] plainMail)))))
             [lit "c@d.com"] (lit "invalid-email") []).
    + reflexivity.
    + discriminate.
    + vm_compute; reflexivity.
    + vm_compute; reflexivity.
    + vm_compute; reflexivity.
Defined.

Lemma writeBody_error : forall c msg mt body,
  snd (writeBody c msg mt body) = qpError (QP c) body.
Proof.
  intros. unfold writeBody, qpError.
  destruct (qpWrite (QP c) (qpNew (QP c)) body) as [[st out] [e|]];
    [reflexivity|].
  now destruct (qpClose (QP c) st).
Qed.

Lemma writeInline_error : forall rb files msg,
  snd (writeInline rb msg files) = None.
Proof.
  induction files as [|f files IH]; intro msg; [reflexivity|].
  cbn [writeInline]. rewrite writeBytes_eq. apply IH.
Qed.

Lemma writeFile_error : forall c msg name,
  snd (writeFile c msg name) = snd (os_ReadFile c name).
Proof.
  intros. unfold writeFile.
  destruct (os_ReadFile c name) as [file [e|]]; [reflexivity|].
  now rewrite writeBytes_eq.
Qed.

Lemma writeAttachments_error : forall c b files msg,
  snd (writeAttachments c b msg files) = readError (os_ReadFile c) files.
Proof.
  induction files as [|f files IH]; intro msg; [reflexivity|].
  cbn [writeAttachments readError].
  destruct (0 <? length (aBody f)).
  - rewrite writeBytes_eq. apply IH.
  - match goal with
    | |- context [writeFile c ?m ?n] =>
        pose proof (writeFile_error c m n) as E;
        destruct (writeFile c m n) as [msg' [e|]]
    end; simpl in E; rewrite <- E; [reflexivity|apply IH].
Qed.

(** The two results of [ToBytes] go together in two ways only: a buffer
    and no error, or an error and no buffer. *)
Lemma ToBytes_result : forall c m,
  (exists out, ToBytes c m = (Some out, None))
  \/ (exists err, ToBytes c m = (None, Some err)).
Proof.
  intros c m. unfold ToBytes.
  repeat match goal with
  | |- context [if ?b then _ else _] => destruct b
  | |- context [match ?x with _ => _ end] => destruct x
  end; eauto.
Qed.

(** C3.  Whenever [ToBytes] returns an error, the buffer it returns with
    it is nil, whatever the quoted-printable writer, the file system and
    the random source do. *)
Theorem ToBytes_error_without_buffer : forall c m err,
  snd (ToBytes c m) = Some err -> fst (ToBytes c m) = None.
Proof.
  intros c m err H.
  destruct (ToBytes_result c m) as [[out E]|[e E]]; rewrite E in *.
  - discriminate.
  - reflexivity.
Qed.

(** C3, at concrete failures: an attachment that cannot be read from
    disk, and a writer that cannot write. *)
Lemma ToBytes_error_without_buffer_witness :
  fst (ToBytes offline (withAttachment [onDisk] plainMail)) = None
  /\ fst (ToBytes (mkCollab noEntropy noFiles brokenQP) plainMail) = None.
Proof.
  split.
  - apply (ToBytes_error_without_buffer offline
             (withAttachment [onDisk] plainMail)
             (lit "open report.pdf: no such file or directory")).
    vm_compute; reflexivity.
  - apply (ToBytes_error_without_buffer (mkCollab noEntropy noFiles brokenQP)
             plainMail (lit "short write")).
    vm_compute; reflexivity.
Defined.

(** The error of [ToBytes] is decided by the checks, the writer and the
    file system; the random source has no part in it. *)
Lemma ToBytes_error : forall c m,
  snd (ToBytes c m) =
  if length (To m) =? 0 then Some (lit "recipient list is empty")
  else if length (Body m) =? 0 then Some (lit "email body is empty")
  else if negb (ValidateEmail (From m))
  then Some (lit "invalid From email address: " ++ From m)
  else
    match checkTo (To m) with
    | Some err => Some err
    | None =>
        match qpError (QP c) (Body m) with
        | Some err => Some err
        | None =>
            if 0 <? length (Attachment m)
            then readError (os_ReadFile c) (Attachment m)
            else None
        end
    end.
Proof.
  intros c m. unfold ToBytes.
  destruct (length (To m) =? 0); [reflexivity|].
  destruct (length (Body m) =? 0); [reflexivity|].
  destruct (negb (ValidateEmail (From m))); [reflexivity|].
  destruct (checkTo (To m)); [reflexivity|].
  destruct (0 <? length (Inline m)); cbn [orb].
  - rewrite orb_true_r.
    match goal with
    | |- context [writeBody c ?msg ?mt ?b] =>
        pose proof (writeBody_error c msg mt b) as E;
        destruct (writeBody c msg mt b) as [msg1 [e|]]
    end; simpl in E; rewrite <- E; [reflexivity|].
    match goal with
    | |- context [writeInline ?rb ?msg ?fs] =>
        pose proof (writeInline_error rb fs msg) as E2;
        destruct (writeInline rb msg fs) as [msg2 [e|]]
    end; simpl in E2; [discriminate|].
    destruct (0 <? length (Attachment m)); [|reflexivity].
    match goal with
    | |- context [writeAttachments c ?b ?msg ?fs] =>
        pose proof (writeAttachments_error c b fs msg) as E3;
        destruct (writeAttachments c b msg fs) as [msg3 [e|]]
    end; simpl in E3; rewrite <- E3; reflexivity.
  - rewrite orb_false_r.
    match goal with
    | |- context [writeBody c ?msg ?mt ?b] =>
        pose proof (writeBody_error c msg mt b) as E;
        destruct (writeBody c msg mt b) as [msg1 [e|]]
    end; simpl in E; rewrite <- E; [reflexivity|].
    destruct (0 <? length (Attachment m)); [|reflexivity].
    match goal with
    | |- context [writeAttachments c ?b ?msg ?fs] =>
        pose proof (writeAttachments_error c b fs msg) as E3;
        destruct (writeAttachments c b msg fs) as [msg3 [e|]]
    end; simpl in E3; rewrite <- E3; reflexivity.
Qed.

(** A message that passes the checks is assembled when the writer and
    the file system report no error. *)
Lemma ToBytes_succeeds : forall c m,
  To m <> [] -> Body m <> [] ->
  ValidateEmail (From m) = true -> forallb ValidateEmail (To m) = true ->
  qpError (QP c) (Body m) = None ->
  readError (os_ReadFile c) (Attachment m) = None ->
  exists out, ToBytes c m = (Some out, None).
Proof.
  intros c m H1 H2 H3 H4 H5 H6.
  destruct (ToBytes_result c m) as [S|[e E]]; [exact S|].
  pose proof (ToBytes_error c m) as HE. rewrite E in HE. cbn [snd] in HE.
  rewrite (isEmpty_false _ _ H1), (isEmpty_false _ _ H2), H3 in HE.
  cbn [negb] in HE. rewrite (checkTo_all_valid _ H4), H5, H6 in HE.
  now destruct (0 <? length (Attachment m)).
Qed.

(** ** The two variants of [ToBytes] *)

(** C10.  On a message without inline files the validating variant and
    the variant of mail.go, run with the same collaborators and therefore
    the same boundary, return the same buffer and the same error when the
    sender and every recipient pass [ValidateEmail]; when [To] or [Body]
    is empty they return the same error whether or not the addresses
    are valid. *)
Theorem ToBytes_agrees_with_Legacy : forall c m,
  Inline m = [] ->
  (ValidateEmail (From m) = true /\ forallb ValidateEmail (To m) = true ->
   ToBytes c m = Legacy.ToBytes c (toLegacy m))
  /\ (To m = [] \/ Body m = [] ->
      ToBytes c m = Legacy.ToBytes c (toLegacy m)).
Proof.
  intros c m Hin.
  assert (Valid : ValidateEmail (From m) = true ->
                  forallb ValidateEmail (To m) = true ->
                  ToBytes c m = Legacy.ToBytes c (toLegacy m)).
  { intros Hf Ht. unfold ToBytes, Legacy.ToBytes, toLegacy.
    cbn [Legacy.MT Legacy.From Legacy.To Legacy.Subject Legacy.Body
         Legacy.Attachment].
    destruct (length (To m) =? 0); [reflexivity|].
    destruct (length (Body m) =? 0); [reflexivity|].
    rewrite Hf, (checkTo_all_valid _ Ht), Hin. cbn [negb].
    change (0 <? length (@nil InlineFile)) with false.
    rewrite orb_false_r.
    destruct (0 <? length (Attachment m)).
    - destruct (writeBody c _ (MT m) (Body m)) as [msg1 [e|]]; [reflexivity|].
      destruct (writeAttachments c _ msg1 (Attachment m)) as [msg2 [e|]];
        reflexivity.
    - destruct (writeBody c _ (MT m) (Body m)) as [msg1 [e|]]; reflexivity. }
  split.
  - intros [Hf Ht]. now apply Valid.
  - intros [H|H]; unfold ToBytes, Legacy.ToBytes, toLegacy;
      cbn [Legacy.To Legacy.Body]; rewrite H; cbn [length Nat.eqb].
    + reflexivity.
    + now destruct (length (To m) =? 0).
Qed.

(** C10, at the message of [TestMail_ToBytes_Attachment]. *)
Lemma ToBytes_agrees_with_Legacy_witness :
  ToBytes offline (withAttachment [testfile] plainMail)
  = Legacy.ToBytes offline (toLegacy (withAttachment [testfile] plainMail))
  /\ ToBytes offline (withTo [] (withFrom (lit "nobody") plainMail))
     = Legacy.ToBytes offline
         (toLegacy (withTo [] (withFrom (lit "nobody") plainMail))).
Proof.
  split.
  - apply (proj1 (ToBytes_agrees_with_Legacy offline
                    (withAttachment [testfile] plainMail) eq_refl)).
    split; vm_compute; reflexivity.
  - apply (proj2 (ToBytes_agrees_with_Legacy offline
                    (withTo [] (withFrom (lit "nobody") plainMail)) eq_refl)).
    left; reflexivity.
Defined.

(** ** The quoted-printable writer: lines of at most 76 characters *)

Section QuotedPrintableFacts.

Import QuotedPrintable.

Lemma lineOK_nil : lineOK [].
Proof. split; [reflexivity|simpl; lia]. Qed.

Lemma fullOK_soft : forall l, lineOK l -> fullOK (l ++ ["="%char]).
Proof.
  intros l [H1 H2]. split.
  - now rewrite noCR_app, H1.
  - rewrite length_app. simpl. lia.
Qed.

Lemma fullOK_of_lineOK : forall l, lineOK l -> fullOK l.
Proof. intros l [H1 H2]. split; [assumption|lia]. Qed.

Lemma insertCRLF_eq : forall w out,
  insertCRLF w out = (mkWriter [] (cr w), out ++ endLine (line w)).
Proof. reflexivity. Qed.

Lemma insertSoftLineBreak_eq : forall w out,
  insertSoftLineBreak w out
  = (mkWriter [] (cr w), out ++ endLine (line w ++ ["="%char])).
Proof. reflexivity. Qed.

Lemma encode_step : forall b w,
  lineOK (line w) ->
  exists w' ls,
    (forall out, encode b w out = (w', out ++ flat_map endLine ls))
    /\ lineOK (line w') /\ Forall fullOK ls /\ cr w' = cr w.
Proof.
  intros b w OK. unfold encode.
  destruct (lineMaxLen - 1 - length (line w) <? 3) eqn:E.
  - exists (mkWriter ("="%char :: hexByte upperhex b) (cr w)),
           [line w ++ ["="%char]].
    repeat split.
    + intro out. cbn. unfold endLine. now rewrite !app_nil_r, <- !app_assoc.
    + apply noCR_hex.
    + simpl; lia.
    + constructor; [now apply fullOK_soft|constructor].
  - exists (mkWriter (line w ++ "="%char :: hexByte upperhex b) (cr w)), [].
    apply Nat.ltb_ge in E. unfold lineMaxLen in E. destruct OK as [H1 H2].
    repeat split.
    + intro out. cbn. now rewrite app_nil_r.
    + cbn [line]. now rewrite noCR_app, H1, noCR_hex.
    + cbn [line]. rewrite length_app. simpl. lia.
    + constructor.
Qed.

Lemma lineOK_prefix : forall a b, lineOK (a ++ b) -> lineOK a.
Proof.
  intros a b [H1 H2]. rewrite noCR_app in H1.
  apply andb_true_iff in H1 as [H1 _]. rewrite length_app in H2.
  split; [assumption|lia].
Qed.

Lemma checkLastByte_step : forall w,
  lineOK (line w) ->
  exists w' ls,
    (forall out, checkLastByte w out = (w', out ++ flat_map endLine ls))
    /\ lineOK (line w') /\ Forall fullOK ls /\ cr w' = cr w.
Proof.
  intros w OK. unfold checkLastByte.
  destruct (rev (line w)) as [|b before] eqn:E.
  - exists w, []. repeat split; try apply OK; auto.
    intro; cbn; now rewrite app_nil_r.
  - destruct (isWhitespace b).
    + assert (L : line w = rev before ++ [b]).
      { rewrite <- (rev_involutive (line w)), E. reflexivity. }
      rewrite L in OK. apply lineOK_prefix in OK.
      destruct (encode_step b (mkWriter (rev before) (cr w)) OK)
        as (w' & ls & Hf & H1 & H2 & H3).
      exists w', ls. auto.
    + exists w, []. repeat split; try apply OK; auto.
    intro; cbn; now rewrite app_nil_r.
Qed.

Lemma write1_step : forall b w,
  lineOK (line w) ->
  exists w' ls,
    (forall out, write1 b w out = (w', out ++ flat_map endLine ls))
    /\ lineOK (line w') /\ Forall fullOK ls.
Proof.
  intros b w OK. unfold write1.
  destruct (isByte LF b || isByte CR b) eqn:NL.
  - destruct (cr w && isByte LF b).
    + exists (mkWriter (line w) false), []. repeat split; try apply OK.
      * intro; cbn; now rewrite app_nil_r.
      * constructor.
    + set (w1 := if isByte CR b then mkWriter (line w) true else w).
      assert (OK1 : lineOK (line w1)) by (subst w1; now destruct (isByte CR b)).
      destruct (checkLastByte_step w1 OK1) as (w2 & ls & Hf & H1 & H2 & H3).
      exists (mkWriter [] (cr w2)), (ls ++ [line w2]). repeat split.
      * intro out. rewrite Hf, insertCRLF_eq, flat_map_app. cbn [flat_map].
        now rewrite !app_nil_r, <- !app_assoc.
      * simpl; lia.
      * apply Forall_app. split; [assumption|].
        constructor; [now apply fullOK_of_lineOK|constructor].
  - apply orb_false_iff in NL as [_ NCR].
    assert (Hb : noCR [b] = true) by (unfold noCR; simpl; now rewrite NCR).
    destruct (length (line w) =? lineMaxLen - 1) eqn:E.
    + exists (mkWriter [b] false), [line w ++ ["="%char]]. repeat split.
      * intro out. cbn. unfold endLine.
        now rewrite !app_nil_r, <- !app_assoc.
      * exact Hb.
      * simpl; lia.
      * constructor; [now apply fullOK_soft|constructor].
    + apply Nat.eqb_neq in E. unfold lineMaxLen in E. destruct OK as [H1 H2].
      exists (mkWriter (line w ++ [b]) false), []. repeat split.
      * intro; cbn; now rewrite app_nil_r.
      * cbn [line]. now rewrite noCR_app, H1, Hb.
      * cbn [line]. rewrite length_app. simpl in *. lia.
      * constructor.
Qed.

Lemma Write1_step : forall b w,
  lineOK (line w) ->
  exists w' ls,
    (forall out, Write1 b w out = (w', out ++ flat_map endLine ls))
    /\ lineOK (line w') /\ Forall fullOK ls.
Proof.
  intros b w OK. unfold Write1.
  destruct (between "!" "~" b && negb (isByte "=" b));
    [now apply write1_step|].
  destruct (isWhitespace b || isByte LF b || isByte CR b);
    [now apply write1_step|].
  destruct (encode_step b w OK) as (w' & ls & Hf & H1 & H2 & _).
  exists w', ls. auto.
Qed.

Lemma Write_step : forall p w,
  lineOK (line w) ->
  exists w' ls,
    (forall out, Write p w out = (w', out ++ flat_map endLine ls))
    /\ lineOK (line w') /\ Forall fullOK ls.
Proof.
  induction p as [|b p IH]; intros w OK.
  - exists w, []. repeat split; try apply OK; auto.
    intro; cbn; now rewrite app_nil_r.
  - destruct (Write1_step b w OK) as (w1 & ls1 & Hf1 & OK1 & F1).
    destruct (IH w1 OK1) as (w2 & ls2 & Hf2 & OK2 & F2).
    exists w2, (ls1 ++ ls2).
    split; [|split; [assumption|apply Forall_app; auto]].
    intro out. cbn [Write]. rewrite Hf1, Hf2, flat_map_app.
    now rewrite <- app_assoc.
Qed.

Lemma Close_step : forall w,
  lineOK (line w) ->
  exists ls last,
    (forall out, snd (Close w out) = out ++ flat_map endLine ls ++ last)
    /\ Forall fullOK ls /\ lineOK last.
Proof.
  intros w OK. unfold Close.
  destruct (checkLastByte_step w OK) as (w1 & ls & Hf & OK1 & F & _).
  exists ls, (line w1). split; [|split; assumption].
  intro out. rewrite Hf. cbn. now rewrite <- app_assoc.
Qed.

(** The output of the writer for a whole body: finished lines, each
    followed by CRLF, and a last line without one. *)
Lemma encodeAll_lines : forall p,
  exists ls last,
    encodeAll p = flat_map endLine ls ++ last
    /\ Forall fullOK ls /\ lineOK last
    /\ qpOutput stdQP p = encodeAll p /\ qpError stdQP p = None.
Proof.
  intro p.
  destruct (Write_step p NewWriter lineOK_nil) as (w & ls1 & Hw & OK & F1).
  destruct (Close_step w OK) as (ls2 & last & Hc & F2 & OKl).
  exists (ls1 ++ ls2), last.
  assert (E : encodeAll p = flat_map endLine (ls1 ++ ls2) ++ last).
  { unfold encodeAll. rewrite Hw, Hc, flat_map_app. cbn [app].
    now rewrite <- app_assoc. }
  split; [exact E|]. split; [apply Forall_app; auto|].
  split; [exact OKl|]. split.
  - rewrite E. unfold qpOutput. cbn. rewrite Hw, Hc, flat_map_app.
    cbn [app]. now rewrite <- app_assoc.
  - unfold qpError. cbn. now rewrite Hw.
Qed.

End QuotedPrintableFacts.

(** ** More on lines *)

Lemma linesFrom_app_CRLF : forall n a cur b,
  length a <= n ->
  linesFrom cur (a ++ CRLF ++ b) = linesFrom cur a ++ linesFrom [] b.
Proof.
  induction n as [|n IH]; intros a cur b Hn.
  - destruct a; [reflexivity|simpl in Hn; lia].
  - destruct a as [|c [|d a]].
    + reflexivity.
    + change ([c] ++ CRLF ++ b) with (c :: CR :: LF :: b).
      rewrite linesFrom_cons2.
      replace (isByte CR c && isByte LF CR) with false
        by (now rewrite andb_false_r).
      reflexivity.
    + change ((c :: d :: a) ++ CRLF ++ b) with (c :: d :: (a ++ CRLF ++ b)).
      rewrite !linesFrom_cons2. simpl in Hn.
      destruct (isByte CR c && isByte LF d).
      * rewrite IH by lia. reflexivity.
      * change (d :: a ++ CRLF ++ b) with ((d :: a) ++ CRLF ++ b).
        rewrite IH by (simpl; lia). reflexivity.
Qed.

Lemma lines_app_CRLF : forall a b,
  lines (a ++ CRLF ++ b) = lines a ++ lines b.
Proof. intros. unfold lines. now apply (linesFrom_app_CRLF (length a)). Qed.

Lemma lines_noCR : forall l, noCR l = true -> lines l = [l].
Proof. intros. unfold lines. now rewrite linesFrom_noCR. Qed.

Lemma lines_prefix : forall ls rest,
  Forall (fun l => noCR l = true) ls ->
  lines (flat_map endLine ls ++ rest) = ls ++ lines rest.
Proof.
  induction ls as [|l ls IH]; intros rest H; [reflexivity|].
  inversion H; subst. cbn [flat_map]. unfold endLine at 1.
  rewrite <- !app_assoc, lines_app_CRLF, lines_noCR by assumption.
  cbn [app]. f_equal. now apply IH.
Qed.

(** A stretch of the output that follows a CRLF and is followed by a
    CRLF or by nothing is a run of whole lines of the output. *)
Lemma lines_segment : forall pre seg post,
  crlfOrNil post ->
  exists before after,
    lines (pre ++ CRLF ++ seg ++ post) = before ++ lines seg ++ after.
Proof.
  intros pre seg post [->|[t ->]].
  - exists (lines pre), []. now rewrite !app_nil_r, lines_app_CRLF.
  - exists (lines pre), (lines t). now rewrite !lines_app_CRLF.
Qed.

Lemma crlfOrNil_app : forall a b,
  crlfOrNil a -> crlfOrNil b -> crlfOrNil (a ++ b).
Proof.
  intros a b [->|[t ->]] Hb; [exact Hb|].
  right. exists (t ++ b). now rewrite <- app_assoc.
Qed.

Lemma crlfOrNil_flat_map : forall A (f : A -> bytes) l,
  (forall x, crlfOrNil (f x)) -> crlfOrNil (flat_map f l).
Proof.
  intros A f l H. induction l as [|x l IH]; [now left|].
  cbn [flat_map]. now apply crlfOrNil_app.
Qed.

(** ** Bytes of addresses and subjects *)

Lemma ValidateEmail_chars : forall s,
  ValidateEmail s = true -> forallb addrChar s = true.
Proof.
  intros s H. apply ValidateEmail_form in H
    as (l & d & t & -> & _ & Hl & _ & Hd & Ht & _).
  assert (H1 : forallb addrChar l = true).
  { revert Hl. apply forallb_impl.
    apply (forall_bytes (fun c => implb (localChar c) (addrChar c))).
    vm_compute; reflexivity. }
  assert (H2 : forallb addrChar d = true).
  { revert Hd. apply forallb_impl.
    apply (forall_bytes (fun c => implb (domainChar c) (addrChar c))).
    vm_compute; reflexivity. }
  assert (H3 : forallb addrChar t = true).
  { revert Ht. apply forallb_impl.
    apply (forall_bytes (fun c => implb (isLetter c) (addrChar c))).
    vm_compute; reflexivity. }
  rewrite !forallb_app, H1, H2, H3. reflexivity.
Qed.

Lemma ValidateEmail_noCR : forall s, ValidateEmail s = true -> noCR s = true.
Proof.
  intros s H. apply ValidateEmail_chars in H. revert H. apply forallb_impl.
  apply (forall_bytes (fun c => implb (addrChar c) (negb (isByte CR c)))).
  vm_compute; reflexivity.
Qed.

Lemma Join_noCR : forall elems sep,
  forallb noCR elems = true -> noCR sep = true ->
  noCR (Join elems sep) = true.
Proof.
  induction elems as [|e elems IH]; intros sep H Hs; [reflexivity|].
  simpl in H. apply andb_true_iff in H as [He H].
  destruct elems as [|e' elems]; [exact He|].
  change (Join (e :: e' :: elems) sep) with (e ++ sep ++ Join (e' :: elems) sep).
  now rewrite !noCR_app, He, Hs, IH.
Qed.

Lemma forallb_ValidateEmail_noCR : forall to,
  forallb ValidateEmail to = true -> forallb noCR to = true.
Proof.
  induction to as [|a to IH]; simpl; intro H; [reflexivity|].
  apply andb_true_iff in H as [Ha H].
  now rewrite (ValidateEmail_noCR a Ha), IH.
Qed.

Section MimeFacts.

Import Mime.

Lemma needsEncoding_needs1 : forall s,
  needsEncoding s = existsb needs1 s.
Proof. reflexivity. Qed.

Lemma needsEncoding_spec : forall s,
  needsEncoding s = true <->
  exists b, In b s /\ ((code b < 32)%N \/ (126 < code b)%N) /\ b <> TAB.
Proof.
  intro s. rewrite needsEncoding_needs1, existsb_exists. split.
  - intros (b & Hin & Hb). exists b. split; [assumption|].
    unfold needs1 in Hb. apply andb_true_iff in Hb as [Hr Ht].
    apply orb_true_iff in Hr. split.
    + destruct Hr as [Hr|Hr]; [left; now apply N.ltb_lt|right; now apply N.ltb_lt].
    + intros ->. unfold isByte in Ht. now rewrite Ascii.eqb_refl in Ht.
  - intros (b & Hin & Hr & Ht). exists b. split; [assumption|].
    unfold needs1. apply andb_true_iff. split.
    + apply orb_true_iff.
      destruct Hr as [Hr|Hr]; [left|right]; now apply N.ltb_lt.
    + apply negb_true_iff. unfold isByte. now apply Ascii.eqb_neq.
Qed.

Lemma Encode_unchanged : forall cs s,
  needsEncoding s = false -> Encode cs s = s.
Proof. intros cs s H. unfold Encode. now rewrite H. Qed.

Lemma plain_subject_noCR : forall s,
  needsEncoding s = false -> noCR s = true.
Proof.
  intros s H. rewrite needsEncoding_needs1 in H.
  induction s as [|b s IH]; [reflexivity|].
  simpl in H. apply orb_false_iff in H as [Hb Hs].
  simpl. rewrite IH by assumption. rewrite andb_true_r.
  pose proof (forall_bytes
                (fun c => implb (negb (needs1 c)) (negb (isByte CR c)))) as F.
  specialize (F ltac:(vm_compute; reflexivity) b). cbv beta in F.
  rewrite Hb in F. exact F.
Qed.

Lemma writeQByte_noCR : forall b, noCR (writeQByte b) = true.
Proof.
  apply (forall_bytes (fun b => noCR (writeQByte b))). vm_compute; reflexivity.
Qed.

(** The loop only adds to the buffer, and adds no carriage return. *)
Lemma qEncodeLoop_appends : forall fuel cs buf currentLen s,
  noCR cs = true ->
  exists text,
    qEncodeLoop fuel cs buf currentLen s = buf ++ text /\ noCR text = true.
Proof.
  induction fuel as [|fuel IH]; intros cs buf currentLen s Hcs.
  - exists []. destruct s; simpl; now rewrite app_nil_r.
  - destruct s as [|b s]; [exists []; simpl; now rewrite app_nil_r|].
    cbn [qEncodeLoop].
    set (safe := between " " "~" b && negb (isByte "=" b)
                 && negb (isByte "?" b) && negb (isByte "_" b)).
    set (runeLen := if safe then 1 else Utf8.runeLen (b :: s)).
    set (encLen := if safe then 1 else 3 * runeLen).
    set (split := maxContentLen <? currentLen + encLen).
    assert (B : exists a, (if split then splitWord buf cs else buf) = buf ++ a
                          /\ noCR a = true).
    { destruct split.
      - exists (lit "?=" ++ lit " " ++ lit "=?" ++ cs ++ lit "?q?"). split.
        + unfold splitWord, openWord, closeWord. now rewrite <- !app_assoc.
        + rewrite !noCR_app, Hcs. reflexivity.
      - exists []. now rewrite app_nil_r. }
    destruct B as (a & -> & Ha).
    destruct (IH cs (writeQString (buf ++ a) (firstn runeLen (b :: s)))
                ((if split then 0 else currentLen) + encLen)
                (skipn runeLen (b :: s)) Hcs) as (text & E & Ht).
    exists (a ++ flat_map writeQByte (firstn runeLen (b :: s)) ++ text).
    split.
    + rewrite E. unfold writeQString. now rewrite <- !app_assoc.
    + rewrite !noCR_app, Ha, Ht, noCR_flat_map by apply writeQByte_noCR.
      reflexivity.
Qed.

(** A subject that needs encoding comes out as encoded words that name
    the charset [utf-8] and the encoding [q]. *)
Lemma Encode_word : forall s,
  needsEncoding s = true ->
  exists text,
    Encode (lit "utf-8") s = lit "=?utf-8?q?" ++ text ++ lit "?="
    /\ noCR text = true.
Proof.
  intros s H. unfold Encode. rewrite H. cbn [negb].
  unfold encodeWord, qEncode.
  change (isUTF8 (lit "utf-8")) with true. cbn [negb].
  destruct (qEncodeLoop_appends (length s) (lit "utf-8")
              (openWord [] (lit "utf-8")) 0 s eq_refl) as (text & E & Ht).
  exists text. rewrite E. split; [|assumption].
  unfold closeWord, openWord. now rewrite <- !app_assoc.
Qed.

Lemma Encode_noCR : forall s, noCR (Encode (lit "utf-8") s) = true.
Proof.
  intro s. destruct (needsEncoding s) eqn:H.
  - destruct (Encode_word s H) as (text & -> & Ht).
    now rewrite !noCR_app, Ht.
  - rewrite Encode_unchanged by assumption. now apply plain_subject_noCR.
Qed.

End MimeFacts.

(** ** The output of the assembler, piece by piece *)

Lemma writeHeaders_eq : forall msg from to subject,
  writeHeaders msg from to subject
  = msg ++ flat_map endLine (headerLines from to subject).
Proof.
  intros. unfold writeHeaders, headerLines, endLine. cbn [flat_map].
  now rewrite !app_nil_r, <- !app_assoc.
Qed.

Lemma writeBody_eq : forall c msg mt body,
  writeBody c msg mt body
  = (msg ++ flat_map endLine (bodyLines mt) ++ CRLF ++ qpOutput (QP c) body,
     qpError (QP c) body).
Proof.
  intros. unfold writeBody, qpOutput, qpError, bodyLines, endLine.
  cbn [flat_map].
  destruct (qpWrite (QP c) (qpNew (QP c)) body) as [[st out] [e|]].
  - now rewrite !app_nil_r, <- !app_assoc.
  - destruct (qpClose (QP c) st) as [out2 e2]. cbn [fst snd].
    now rewrite !app_nil_r, <- !app_assoc.
Qed.

Lemma writeBytes_text : forall msg file,
  writeBytes msg file = (msg ++ CRLF ++ base64Text file, None).
Proof. intros. apply writeBytes_eq. Qed.

Lemma writeInline_eq : forall rb files msg,
  writeInline rb msg files = (msg ++ flat_map (inlinePart rb) files, None).
Proof.
  induction files as [|f files IH]; intro msg.
  - simpl. now rewrite app_nil_r.
  - cbn [writeInline flat_map]. rewrite writeBytes_text, IH.
    unfold inlinePart, inlineHead. now rewrite <- !app_assoc.
Qed.

Lemma writeAttachments_eq : forall c b files msg,
  readError (os_ReadFile c) files = None ->
  writeAttachments c b msg files
  = (msg ++ flat_map (attachPart (os_ReadFile c) b) files, None).
Proof.
  induction files as [|f files IH]; intros msg H.
  - simpl. now rewrite app_nil_r.
  - cbn [writeAttachments flat_map readError] in *.
    unfold attachPart at 1, attachContent, attachHead.
    destruct (0 <? length (aBody f)).
    + rewrite writeBytes_text, IH by assumption. now rewrite <- !app_assoc.
    + unfold writeFile.
      destruct (os_ReadFile c (aName f)) as [file [e|]]; [discriminate|].
      cbn [fst snd] in *. rewrite writeBytes_text, IH by assumption.
      now rewrite <- !app_assoc.
Qed.

Lemma success_inj : forall (a b : bytes) (e : option error),
  (Some a, e) = (Some b, None) -> b = a.
Proof. intros a b e H. now injection H as -> _. Qed.

(** The whole output of a successful call. *)
Lemma ToBytes_output : forall c m out,
  ToBytes c m = (Some out, None) ->
  let boundary := generateBoundary c 0 in
  let relatedBoundary := generateBoundary c 1 in
  let multipart := (0 <? length (Attachment m)) || (0 <? length (Inline m)) in
  ValidateEmail (From m) = true /\ checkTo (To m) = None
  /\ out =
     flat_map endLine (headerLines (From m) (To m) (Subject m))
     ++ (if multipart
         then lit "Content-Type: multipart/mixed; boundary=" ++ boundary
              ++ CRLF ++ CRLF ++ lit "--" ++ boundary ++ CRLF
         else [])
     ++ (if 0 <? length (Inline m)
         then lit "Content-Type: multipart/related; boundary="
              ++ relatedBoundary ++ CRLF ++ CRLF ++ lit "--"
              ++ relatedBoundary ++ CRLF
         else [])
     ++ flat_map endLine (bodyLines (MT m)) ++ CRLF
     ++ qpOutput (QP c) (Body m)
     ++ (flat_map (inlinePart relatedBoundary) (Inline m)
         ++ (if 0 <? length (Inline m)
             then CRLF ++ lit "--" ++ relatedBoundary ++ lit "--" ++ CRLF
             else []))
     ++ flat_map (attachPart (os_ReadFile c) boundary) (Attachment m)
     ++ (if multipart
         then CRLF ++ lit "--" ++ boundary ++ lit "--" ++ CRLF
         else []).
Proof.
  intros c m out H. cbv zeta.
  pose proof (ToBytes_error c m) as HE. rewrite H in HE. cbn [snd] in HE.
  unfold ToBytes in H.
  destruct (length (To m) =? 0); [discriminate|].
  destruct (length (Body m) =? 0); [discriminate|].
  destruct (ValidateEmail (From m)); [|discriminate]. cbn [negb] in *.
  destruct (checkTo (To m)); [discriminate|].
  destruct (qpError (QP c) (Body m)) eqn:QE; [discriminate|].
  split; [reflexivity|]. split; [reflexivity|].
  rewrite writeHeaders_eq, app_nil_l in H.
  assert (RE : readError (os_ReadFile c) (Attachment m) = None).
  { destruct (Attachment m) as [|f fs] eqn:EA; [reflexivity|].
    now change (0 <? length (f :: fs)) with true in HE. }
  assert (NI : forall A (l : list A), (0 <? length l) = false -> l = []).
  { intros A [|x l] Hl; [reflexivity|discriminate]. }
  destruct (0 <? length (Inline m)) eqn:HI;
    destruct (0 <? length (Attachment m)) eqn:HA;
    rewrite ?orb_true_r, ?orb_true_l, ?orb_false_r in *;
    rewrite ?writeBody_eq, ?QE, ?writeInline_eq in H;
    rewrite ?writeAttachments_eq in H by assumption;
    try rewrite (NI _ _ HI); try rewrite (NI _ _ HA);
    apply success_inj in H; rewrite H;
    change (flat_map (inlinePart (generateBoundary c 1)) [])
      with (@nil ascii);
    change (flat_map (attachPart (os_ReadFile c) (generateBoundary c 0)) [])
      with (@nil ascii);
    rewrite ?app_nil_r, ?app_nil_l, <- ?app_assoc; reflexivity.
Qed.

Lemma checkTo_None : forall to,
  checkTo to = None -> forallb ValidateEmail to = true.
Proof.
  induction to as [|a to IH]; simpl; intro H; [reflexivity|].
  destruct (ValidateEmail a); [now apply IH|discriminate].
Qed.

Lemma headerLines_noCR : forall m,
  ValidateEmail (From m) = true -> forallb ValidateEmail (To m) = true ->
  Forall (fun l => noCR l = true) (headerLines (From m) (To m) (Subject m)).
Proof.
  intros m Hf Ht. unfold headerLines. repeat constructor.
  - now rewrite noCR_app, (ValidateEmail_noCR _ Hf).
  - rewrite noCR_app, Join_noCR; [reflexivity| |reflexivity].
    now apply forallb_ValidateEmail_noCR.
  - now rewrite noCR_app, Encode_noCR.
Qed.

(** ** Encoded lines are at most 76 characters long *)

Lemma plain_noCR : forall l, forallb plain l = true -> noCR l = true.
Proof.
  intro l. apply forallb_impl.
  apply (forall_bytes (fun c => implb (plain c) (negb (isByte CR c)))).
  vm_compute; reflexivity.
Qed.

Lemma forallb_concat : forall (P : ascii -> bool) ls,
  forallb P (concat ls) = true -> Forall (fun l => forallb P l = true) ls.
Proof.
  induction ls as [|l ls IH]; simpl; intro H; [constructor|].
  rewrite forallb_app in H. apply andb_true_iff in H as [H1 H2].
  constructor; auto.
Qed.

Lemma base64Text_lines : forall data,
  Forall (fun l => length l <= 76) (lines (base64Text data)).
Proof.
  intro data. unfold base64Text.
  destruct (wrap_decompose (length (Base64.Encode data))
              (Base64.Encode data) 0)
    as (full & last & E & F & L & W & _); [lia|reflexivity|].
  pose proof (Encode_plain data) as P. rewrite E, forallb_app in P.
  apply andb_true_iff in P as [Pf Pl]. apply forallb_concat in Pf.
  rewrite W, lines_endLines.
  - apply Forall_app. split.
    + revert F. apply Forall_impl. intros l ->. lia.
    + constructor; [lia|constructor].
  - revert Pf. apply Forall_impl. intro l. apply plain_noCR.
  - now apply plain_noCR.
Qed.

Lemma encodeAll_line_lengths : forall p,
  Forall (fun l => length l <= 76) (lines (QuotedPrintable.encodeAll p)).
Proof.
  intro p. destruct (encodeAll_lines p) as (ls & last & E & F & [L1 L2] & _).
  rewrite E, lines_endLines.
  - apply Forall_app. split.
    + revert F. apply Forall_impl. now intros l [_ H].
    + constructor; [lia|constructor].
  - revert F. apply Forall_impl. now intros l [H _].
  - exact L1.
Qed.

Lemma crlfOrNil_CRLF : forall t, crlfOrNil (CRLF ++ t).
Proof. intro t. right. now exists t. Qed.

Lemma crlfOrNil_if : forall (b : bool) t,
  crlfOrNil (if b then CRLF ++ t else []).
Proof. intros [|] t; [apply crlfOrNil_CRLF|now left]. Qed.

Lemma inlinePart_CRLF : forall rb f, crlfOrNil (inlinePart rb f).
Proof. intros. unfold inlinePart. apply crlfOrNil_CRLF. Qed.

Lemma attachPart_CRLF : forall fs b f, crlfOrNil (attachPart fs b f).
Proof. intros. unfold attachPart. apply crlfOrNil_CRLF. Qed.

(** One part of a run of parts, with what stands before and after it. *)
Lemma flat_map_part : forall A (part : A -> bytes) (head text : A -> bytes)
    files f,
  (forall x, part x = CRLF ++ head x ++ CRLF ++ text x) ->
  In f files ->
  exists pre post,
    flat_map part files = pre ++ CRLF ++ text f ++ post /\ crlfOrNil post.
Proof.
  intros A part head text files f P Hin.
  destruct (in_split f files Hin) as (l1 & l2 & ->).
  exists (flat_map part l1 ++ CRLF ++ head f), (flat_map part l2). split.
  - rewrite flat_map_app. cbn [flat_map]. rewrite P.
    now rewrite <- !app_assoc.
  - apply crlfOrNil_flat_map. intro x. rewrite P. apply crlfOrNil_CRLF.
Qed.

(** C8.  In the output of a successful call (with Go's quoted-printable
    writer) the encoded text of the body, the base64 text of every inline
    file and the base64 text of every attachment (of its own bytes, or of
    the file read for it) each fill a run of whole lines of the output,
    and none of these lines is longer than 76 characters, the CRLF not
    counted. *)
Theorem encoded_lines_at_most_76 : forall rnd readFile m out,
  ToBytes (mkCollab rnd readFile stdQP) m = (Some out, None) ->
  (exists before after,
     lines out
     = before ++ lines (QuotedPrintable.encodeAll (Body m)) ++ after)
  /\ Forall (fun l => length l <= 76)
       (lines (QuotedPrintable.encodeAll (Body m)))
  /\ (forall f, In f (Inline m) ->
      exists text before after,
        writeBytes [] (iBody f) = (CRLF ++ text, None)
        /\ lines out = before ++ lines text ++ after
        /\ Forall (fun l => length l <= 76) (lines text))
  /\ (forall f, In f (Attachment m) ->
      exists text before after,
        writeBytes []
          (if 0 <? length (aBody f) then aBody f
           else fst (readFile (aName f)))
        = (CRLF ++ text, None)
        /\ lines out = before ++ lines text ++ after
        /\ Forall (fun l => length l <= 76) (lines text)).
Proof.
  intros rnd readFile m out S.
  set (c := mkCollab rnd readFile stdQP) in *.
  destruct (ToBytes_output c m out S) as (_ & _ & E). cbv zeta in E.
  destruct (encodeAll_lines (Body m)) as (_ & _ & _ & _ & _ & QO & _).
  change (QP c) with stdQP in E. rewrite QO in E.
  change (os_ReadFile c) with readFile in E.
  set (b := generateBoundary c 0) in *.
  set (rb := generateBoundary c 1) in *.
  set (H := flat_map endLine (headerLines (From m) (To m) (Subject m))) in *.
  set (M := if (0 <? length (Attachment m)) || (0 <? length (Inline m))
            then lit "Content-Type: multipart/mixed; boundary=" ++ b
                 ++ CRLF ++ CRLF ++ lit "--" ++ b ++ CRLF
            else []) in *.
  set (R := if 0 <? length (Inline m)
            then lit "Content-Type: multipart/related; boundary=" ++ rb
                 ++ CRLF ++ CRLF ++ lit "--" ++ rb ++ CRLF
            else []) in *.
  set (BL := flat_map endLine (bodyLines (MT m))) in *.
  set (RC := if 0 <? length (Inline m)
             then CRLF ++ lit "--" ++ rb ++ lit "--" ++ CRLF else []) in *.
  set (MC := if (0 <? length (Attachment m)) || (0 <? length (Inline m))
             then CRLF ++ lit "--" ++ b ++ lit "--" ++ CRLF else []) in *.
  assert (CRC : crlfOrNil RC) by apply crlfOrNil_if.
  assert (CMC : crlfOrNil MC) by apply crlfOrNil_if.
  assert (CI : forall l, crlfOrNil (flat_map (inlinePart rb) l))
    by (intro; apply crlfOrNil_flat_map, inlinePart_CRLF).
  assert (CA : forall l, crlfOrNil (flat_map (attachPart readFile b) l))
    by (intro; apply crlfOrNil_flat_map, attachPart_CRLF).
  split; [|split; [apply encodeAll_line_lengths|split]].
  - replace out
      with ((H ++ M ++ R ++ BL) ++ CRLF
            ++ QuotedPrintable.encodeAll (Body m)
            ++ ((flat_map (inlinePart rb) (Inline m) ++ RC)
                ++ flat_map (attachPart readFile b) (Attachment m) ++ MC))
      by (rewrite E; now rewrite <- !app_assoc).
    apply lines_segment. repeat apply crlfOrNil_app; auto.
  - intros f Hin.
    destruct (flat_map_part InlineFile (inlinePart rb) (inlineHead rb)
                (fun x => base64Text (iBody x)) (Inline m) f
                (fun x => eq_refl) Hin) as (pre & post & EI & CP).
    exists (base64Text (iBody f)).
    assert (RCne : RC = CRLF ++ lit "--" ++ rb ++ lit "--" ++ CRLF).
    { subst RC. destruct (Inline m); [contradiction|reflexivity]. }
    destruct (lines_segment
                (H ++ M ++ R ++ BL ++ CRLF
                   ++ QuotedPrintable.encodeAll (Body m) ++ pre)
                (base64Text (iBody f))
                (post ++ RC
                   ++ flat_map (attachPart readFile b) (Attachment m) ++ MC))
      as (before & after & L).
    { repeat apply crlfOrNil_app; auto. }
    exists before, after. split; [apply writeBytes_text|].
    split; [|apply base64Text_lines].
    rewrite <- L. f_equal. rewrite E, EI. now rewrite <- !app_assoc.
  - intros f Hin.
    destruct (flat_map_part AttachmentFile (attachPart readFile b)
                (attachHead b)
                (fun x => base64Text (attachContent readFile x))
                (Attachment m) f (fun x => eq_refl) Hin)
      as (pre & post & EA & CP).
    exists (base64Text (attachContent readFile f)).
    destruct (lines_segment
                (H ++ M ++ R ++ BL ++ CRLF
                   ++ QuotedPrintable.encodeAll (Body m)
                   ++ (flat_map (inlinePart rb) (Inline m) ++ RC) ++ pre)
                (base64Text (attachContent readFile f))
                (post ++ MC))
      as (before & after & L).
    { repeat apply crlfOrNil_app; auto. }
    exists before, after. split; [apply writeBytes_text|].
    split; [|apply base64Text_lines].
    rewrite <- L. f_equal. rewrite E, EA. now rewrite <- !app_assoc.
Qed.

(** C8, at a message with a long body, an inline file and an
    attachment. *)
Lemma encoded_lines_at_most_76_witness :
  Forall (fun l => length l <= 76)
    (lines (QuotedPrintable.encodeAll longBody)).
Proof.
  apply (encoded_lines_at_most_76 noEntropy noFiles
           (withBody longBody
              (withInline [logo] (withAttachment [testfile] plainMail)))
           (output (ToBytes offline
                      (withBody longBody
                         (withInline [logo]
                            (withAttachment [testfile] plainMail)))))).
  vm_compute; reflexivity.
Defined.

(** ** The loop of the Q encoder has fuel enough *)

Lemma runeLen_pos : forall b s, 1 <= Utf8.runeLen (b :: s).
Proof.
  intros b s. unfold Utf8.runeLen.
  repeat match goal with
  | |- context [if ?x then _ else _] => destruct x
  | |- context [match ?l with [] => _ | _ :: _ => _ end] => destruct l
  end; lia.
Qed.

(** With at least as many turns as the input has bytes the loop reads the
    whole input: more fuel changes nothing. *)
Lemma qEncodeLoop_fuel : forall fuel1 fuel2 cs buf currentLen s,
  length s <= fuel1 -> length s <= fuel2 ->
  Mime.qEncodeLoop fuel1 cs buf currentLen s
  = Mime.qEncodeLoop fuel2 cs buf currentLen s.
Proof.
  induction fuel1 as [|fuel1 IH]; intros fuel2 cs buf currentLen s H1 H2.
  - destruct s; [|simpl in H1; lia]. now destruct fuel2.
  - destruct s as [|b s]; [now destruct fuel2|].
    destruct fuel2 as [|fuel2]; [simpl in H2; lia|].
    cbn [Mime.qEncodeLoop].
    set (safe := between " " "~" b && negb (isByte "=" b)
                 && negb (isByte "?" b) && negb (isByte "_" b)).
    assert (P : 1 <= (if safe then 1 else Utf8.runeLen (b :: s)))
      by (destruct safe; [lia|apply runeLen_pos]).
    apply IH; rewrite length_skipn; cbn [length] in *; lia.
Qed.

(** ** The tests of the repository (part_002, part_001) *)

Example TestMail_ToBytes_PlainText :
  snd (ToBytes offline testPlain) = None
  /\ Contains (output (ToBytes offline testPlain))
       (lit "Content-Type: text/plain") = true.
Proof. split; vm_compute; reflexivity. Qed.

Example TestMail_ToBytes_HTML :
  snd (ToBytes offline testHTML) = None
  /\ Contains (output (ToBytes offline testHTML))
       (lit "Content-Type: text/html") = true.
Proof. split; vm_compute; reflexivity. Qed.

Example TestMail_ToBytes_Attachment :
  snd (ToBytes offline testAttachment) = None
  /\ Contains (output (ToBytes offline testAttachment))
       (lit "Content-Disposition: attachment; filename=" ++ [DQUOTE]
          ++ lit "testfile.txt" ++ [DQUOTE]) = true
  /\ Contains (output (ToBytes offline testAttachment))
       (Base64.Encode (lit "This is the content of the file.")) = true.
Proof. repeat split; vm_compute; reflexivity. Qed.

Example TestMail_ToBytes_InlineImage :
  snd (ToBytes offline testInline) = None
  /\ Contains (output (ToBytes offline testInline))
       (lit "Content-ID: <logo>") = true
  /\ Contains (output (ToBytes offline testInline))
       (lit "Content-Disposition: inline") = true
  /\ Contains (output (ToBytes offline testInline))
       (lit "multipart/related") = true.
Proof. repeat split; vm_compute; reflexivity. Qed.

Example TestMail_ToBytes_EmptyTo :
  snd (ToBytes offline (withTo [] testPlain))
  = Some (lit "recipient list is empty").
Proof. vm_compute; reflexivity. Qed.

Example TestMail_ToBytes_EmptyBody :
  snd (ToBytes offline (withBody [] testPlain))
  = Some (lit "email body is empty").
Proof. vm_compute; reflexivity. Qed.

Example TestMail_ToBytes_InvalidFromEmail :
  snd (ToBytes offline (withFrom (lit "invalid-email") testPlain))
  = Some (lit "invalid From email address: invalid-email").
Proof. vm_compute; reflexivity. Qed.

Example TestMail_ToBytes_InvalidToEmail :
  snd (ToBytes offline (withTo [lit "invalid-email"] testPlain))
  = Some (lit "invalid To email address: invalid-email").
Proof. vm_compute; reflexivity. Qed.

Example TestMail_ToBytes_MultipleRecipients :
  snd (ToBytes offline testRecipients) = None
  /\ Contains (output (ToBytes offline testRecipients))
       (lit "To: recipient1@example.com, recipient2@example.com") = true.
Proof. split; vm_compute; reflexivity. Qed.

(** ** The header block of the output *)

Lemma noCR_boundary : forall c k, noCR (generateBoundary c k) = true.
Proof.
  intros c k. unfold generateBoundary. cbv zeta. rewrite noCR_app.
  apply andb_true_intro. split; [reflexivity|].
  apply noCR_flat_map.
  apply (forall_bytes (fun b => noCR (hexByte lowerhex b))).
  vm_compute; reflexivity.
Qed.

Lemma headerBlock_app : forall hs t,
  Forall (fun l => l <> []) hs -> headerBlock (hs ++ [] :: t) = hs.
Proof.
  induction hs as [|h hs IH]; intros t H; [reflexivity|].
  inversion H as [|? ? Hh Hhs]; subst.
  destruct h as [|x h]; [contradiction|].
  cbn [app headerBlock]. now rewrite IH.
Qed.

Lemma nonempty_of_isEmpty : forall l : bytes, isEmpty l = false -> l <> [].
Proof. intros l H ->. discriminate H. Qed.

Lemma headerLines_nonempty : forall from to subject,
  Forall (fun l => l <> []) (headerLines from to subject).
Proof.
  intros. unfold headerLines.
  repeat constructor; apply nonempty_of_isEmpty; reflexivity.
Qed.

Lemma topLines_noCR : forall c m,
  Forall (fun l => noCR l = true) (topLines c m).
Proof.
  intros c m. unfold topLines, bodyLines.
  destruct ((0 <? length (Attachment m)) || (0 <? length (Inline m))).
  - repeat constructor. now rewrite noCR_app, noCR_boundary.
  - repeat constructor. now destruct (MT m).
Qed.

Lemma topLines_nonempty : forall c m,
  Forall (fun l => l <> []) (topLines c m).
Proof.
  intros c m. unfold topLines, bodyLines.
  destruct ((0 <? length (Attachment m)) || (0 <? length (Inline m)));
    repeat constructor; apply nonempty_of_isEmpty; reflexivity.
Qed.

Lemma endLine_eq : forall l, endLine l = l ++ CRLF.
Proof. reflexivity. Qed.

(** The output of a successful call: the header block, the empty line
    that ends it, and the rest. *)
Lemma ToBytes_top : forall c m out,
  ToBytes c m = (Some out, None) ->
  exists rest,
    out = flat_map endLine
            (headerLines (From m) (To m) (Subject m) ++ topLines c m)
          ++ CRLF ++ rest
    /\ lines out
       = (headerLines (From m) (To m) (Subject m) ++ topLines c m)
         ++ [] :: lines rest
    /\ headerBlock (lines out)
       = headerLines (From m) (To m) (Subject m) ++ topLines c m.
Proof.
  intros c m out S.
  destruct (ToBytes_output c m out S) as (VF & VT & E). cbv zeta in E.
  apply checkTo_None in VT.
  assert (R : exists rest,
            out = flat_map endLine
                    (headerLines (From m) (To m) (Subject m) ++ topLines c m)
                  ++ CRLF ++ rest).
  { unfold topLines.
    destruct (0 <? length (Attachment m)); destruct (0 <? length (Inline m));
      cbn [orb] in *;
      rewrite ?app_nil_l, <- ?app_assoc in E;
      [ match type of E with
        | out = ?h ++ ?ct ++ ?b ++ CRLF ++ CRLF ++ ?tail => exists tail
        end ..
      | match type of E with
        | out = ?h ++ ?bl ++ CRLF ++ ?tail => exists tail
        end ];
      rewrite E at 1; rewrite flat_map_app; cbn [flat_map];
      rewrite ?endLine_eq, ?app_nil_r, <- ?app_assoc; reflexivity. }
  destruct R as (rest & R). exists rest. split; [exact R|].
  assert (L : lines out
              = (headerLines (From m) (To m) (Subject m) ++ topLines c m)
                ++ [] :: lines rest).
  { assert (R2 : out = flat_map endLine
                         ((headerLines (From m) (To m) (Subject m)
                           ++ topLines c m) ++ [[]]) ++ rest).
    { rewrite (flat_map_app endLine _ [[]]).
      change (flat_map endLine [[]]) with CRLF.
      rewrite <- app_assoc. exact R. }
    rewrite R2 at 1. rewrite lines_prefix, <- app_assoc; [reflexivity|].
    apply Forall_app. split; [apply Forall_app; split|].
    - now apply headerLines_noCR.
    - apply topLines_noCR.
    - repeat constructor. }
  split; [exact L|].
  rewrite L. apply headerBlock_app. apply Forall_app. split.
  - apply headerLines_nonempty.
  - apply topLines_nonempty.
Qed.

Lemma hasPrefix_app : forall p t, hasPrefix p (p ++ t) = true.
Proof.
  induction p as [|a p IH]; intro t; [reflexivity|].
  cbn [app hasPrefix]. now rewrite Ascii.eqb_refl, IH.
Qed.

(** A header block without a multipart [Content-Type] declares no
    boundary, and a message that declares none has no delimiter line. *)
Lemma no_multipart_no_boundary : forall out,
  forallb (fun l => negb (hasPrefix (lit "Content-Type: multipart/") l))
    (headerBlock (lines out)) = true ->
  (forall b, ~ declaresBoundary out b)
  /\ (forall l, ~ delimiterLine out l).
Proof.
  intros out H.
  assert (N : forall b, ~ declaresBoundary out b).
  { intros b (sub & Hin). rewrite forallb_forall in H.
    specialize (H _ Hin). rewrite hasPrefix_app in H. discriminate H. }
  split; [exact N|]. intros l (b & D & _). exact (N b D).
Qed.

(** The two definitions at work: the message of
    [TestMail_ToBytes_Attachment] declares its boundary, and the line
    after its header block is a delimiter line. *)
Example delimiterLine_of_a_container :
  declaresBoundary
    (output (ToBytes (mkCollab counting noFiles stdQP) testAttachment))
    (generateBoundary (mkCollab counting noFiles stdQP) 0)
  /\ delimiterLine
       (output (ToBytes (mkCollab counting noFiles stdQP) testAttachment))
       (nth 6 (lines (output (ToBytes (mkCollab counting noFiles stdQP)
                                testAttachment))) []).
Proof.
  assert (D : declaresBoundary
                (output (ToBytes (mkCollab counting noFiles stdQP)
                           testAttachment))
                (generateBoundary (mkCollab counting noFiles stdQP) 0)).
  { exists (lit "mixed").
    replace (lit "Content-Type: multipart/" ++ lit "mixed"
             ++ lit "; boundary="
             ++ generateBoundary (mkCollab counting noFiles stdQP) 0)
      with (nth 4 (headerBlock
                     (lines (output (ToBytes (mkCollab counting noFiles stdQP)
                                       testAttachment)))) [])
      by (vm_compute; reflexivity).
    apply nth_In. vm_compute. lia. }
  split; [exact D|].
  exists (generateBoundary (mkCollab counting noFiles stdQP) 0).
  split; [exact D|]. left. vm_compute. reflexivity.
Qed.

(** ** The header lines *)

(** C9, as amended.  A successful call starts its output with the lines
    [From], [To] (the recipients in the caller's order, joined by a comma
    and a space), [Subject] and [MIME-Version: 1.0], each ended by CRLF.
    The header block is completed by the [Content-Type] header of the
    multipart/mixed container when there are attachments or inline
    files, and otherwise by the [Content-Type] and
    [Content-Transfer-Encoding] headers of the body; an empty line ends
    it.  These are all the lines of the header block: no other message
    header is written.  A message that passes the checks is assembled
    whenever the writer and the file system report no error.  The
    subject is written as it is when all its bytes are printable ASCII
    or tabs; when some byte is below 0x20 (and not a tab) or above 0x7E
    it is written as encoded words with the charset [utf-8] and the [q]
    encoding. *)
Theorem ToBytes_header_lines : forall c m,
  (forall out,
     ToBytes c m = (Some out, None) ->
     exists rest,
       out = lit "From: " ++ From m ++ CRLF
             ++ lit "To: " ++ Join (To m) (lit ", ") ++ CRLF
             ++ lit "Subject: " ++ Mime.Encode (lit "utf-8") (Subject m)
             ++ CRLF ++ lit "MIME-Version: 1.0" ++ CRLF
             ++ (if (0 <? length (Attachment m)) || (0 <? length (Inline m))
                 then lit "Content-Type: multipart/mixed; boundary="
                      ++ generateBoundary c 0 ++ CRLF
                 else lit "Content-Type: " ++ MailType_String (MT m)
                      ++ lit "; charset=UTF-8" ++ CRLF
                      ++ lit "Content-Transfer-Encoding: quoted-printable"
                      ++ CRLF)
             ++ CRLF ++ rest
       /\ headerBlock (lines out)
          = [lit "From: " ++ From m;
             lit "To: " ++ Join (To m) (lit ", ");
             lit "Subject: " ++ Mime.Encode (lit "utf-8") (Subject m);
             lit "MIME-Version: 1.0"]
            ++ (if (0 <? length (Attachment m)) || (0 <? length (Inline m))
                then [lit "Content-Type: multipart/mixed; boundary="
                      ++ generateBoundary c 0]
                else [lit "Content-Type: " ++ MailType_String (MT m)
                      ++ lit "; charset=UTF-8";
                      lit "Content-Transfer-Encoding: quoted-printable"])
       /\ lines out = headerBlock (lines out) ++ [] :: lines rest)
  /\ (To m <> [] -> Body m <> [] ->
      ValidateEmail (From m) = true -> forallb ValidateEmail (To m) = true ->
      qpError (QP c) (Body m) = None ->
      readError (os_ReadFile c) (Attachment m) = None ->
      exists out, ToBytes c m = (Some out, None))
  /\ (Mime.needsEncoding (Subject m) = false ->
      Mime.Encode (lit "utf-8") (Subject m) = Subject m)
  /\ (Mime.needsEncoding (Subject m) = true ->
      exists text,
        Mime.Encode (lit "utf-8") (Subject m)
        = lit "=?utf-8?q?" ++ text ++ lit "?=")
  /\ (Mime.needsEncoding (Subject m) = true <->
      exists b, In b (Subject m)
                /\ ((code b < 32)%N \/ (126 < code b)%N) /\ b <> TAB).
Proof.
  intros c m. split; [|split; [|split; [|split]]].
  - intros out H.
    destruct (ToBytes_top c m out H) as (rest & R & L & B).
    exists rest.
    assert (T : headerLines (From m) (To m) (Subject m) ++ topLines c m
                = [lit "From: " ++ From m;
                   lit "To: " ++ Join (To m) (lit ", ");
                   lit "Subject: " ++ Mime.Encode (lit "utf-8") (Subject m);
                   lit "MIME-Version: 1.0"]
                  ++ (if (0 <? length (Attachment m))
                         || (0 <? length (Inline m))
                      then [lit "Content-Type: multipart/mixed; boundary="
                            ++ generateBoundary c 0]
                      else [lit "Content-Type: " ++ MailType_String (MT m)
                            ++ lit "; charset=UTF-8";
                            lit "Content-Transfer-Encoding: quoted-printable"])).
    { unfold topLines, bodyLines, headerLines.
      destruct ((0 <? length (Attachment m)) || (0 <? length (Inline m)));
        [reflexivity|].
      destruct (MT m); reflexivity. }
    split; [|split].
    + rewrite R at 1. rewrite T.
      destruct ((0 <? length (Attachment m)) || (0 <? length (Inline m)));
        cbn [app flat_map]; rewrite ?endLine_eq, ?app_nil_r, <- ?app_assoc;
        reflexivity.
    + rewrite B. exact T.
    + rewrite B. exact L.
  - apply ToBytes_succeeds.
  - apply Encode_unchanged.
  - intro N. destruct (Encode_word (Subject m) N) as (text & Et & _). eauto.
  - apply needsEncoding_spec.
Qed.

(** C9, at the scenario message: its header block has six lines. *)
Lemma ToBytes_header_lines_witness :
  exists out,
    ToBytes (mkCollab counting noFiles stdQP) plainMail = (Some out, None)
    /\ headerBlock (lines out)
       = [lit "From: " ++ From plainMail;
          lit "To: " ++ Join (To plainMail) (lit ", ");
          lit "Subject: " ++ Mime.Encode (lit "utf-8") (Subject plainMail);
          lit "MIME-Version: 1.0"]
         ++ (if (0 <? length (Attachment plainMail))
                || (0 <? length (Inline plainMail))
             then [lit "Content-Type: multipart/mixed; boundary="
                   ++ generateBoundary (mkCollab counting noFiles stdQP) 0]
             else [lit "Content-Type: " ++ MailType_String (MT plainMail)
                   ++ lit "; charset=UTF-8";
                   lit "Content-Transfer-Encoding: quoted-printable"]).
Proof.
  destruct (ToBytes_header_lines (mkCollab counting noFiles stdQP) plainMail)
    as (A & B & _).
  destruct B as (out & S); try reflexivity; try discriminate.
  destruct (A out S) as (rest & _ & E & _).
  exists out. split; [exact S|exact E].
Defined.

(** C9, the counterexample: a subject of ASCII bytes only, with a
    carriage return and a line feed in it, is not passed through; it is
    written as an encoded word. *)
Lemma ascii_subject_encoded :
  forallb (fun b => (code b <? 128)%N) injectedSubject = true
  /\ ToBytes (mkCollab counting noFiles stdQP)
       (withSubject injectedSubject plainMail)
     = (Some (lit "From: a@b.com" ++ CRLF
              ++ lit "To: c@d.com" ++ CRLF
              ++ lit "Subject: =?utf-8?q?Hi=0D=0ABcc:_x@y.zz?=" ++ CRLF
              ++ lit "MIME-Version: 1.0" ++ CRLF
              ++ lit "Content-Type: text/plain; charset=UTF-8" ++ CRLF
              ++ lit "Content-Transfer-Encoding: quoted-printable" ++ CRLF
              ++ CRLF ++ lit "hello"), None).
Proof. split; vm_compute; reflexivity. Qed.

(** ** A message with a body only *)

(** C6.  For a message without attachments and without inline files that
    passes the checks, [ToBytes] writes no multipart container: the
    output is the four header lines, the [Content-Type] and
    [Content-Transfer-Encoding] lines of the body at the top level, an
    empty line and the quoted-printable text of the body, whatever the
    random source gives.  These six lines are the whole header block; no
    header names a multipart type, so the message declares no boundary,
    and no line of the output is a boundary delimiter line. *)
Theorem ToBytes_body_only : forall rnd readFile m,
  To m <> [] -> Body m <> [] ->
  ValidateEmail (From m) = true -> forallb ValidateEmail (To m) = true ->
  Attachment m = [] -> Inline m = [] ->
  exists out,
    ToBytes (mkCollab rnd readFile stdQP) m = (Some out, None)
    /\ out = lit "From: " ++ From m ++ CRLF
             ++ lit "To: " ++ Join (To m) (lit ", ") ++ CRLF
             ++ lit "Subject: " ++ Mime.Encode (lit "utf-8") (Subject m)
             ++ CRLF ++ lit "MIME-Version: 1.0" ++ CRLF
             ++ lit "Content-Type: " ++ MailType_String (MT m)
             ++ lit "; charset=UTF-8" ++ CRLF
             ++ lit "Content-Transfer-Encoding: quoted-printable" ++ CRLF
             ++ CRLF ++ QuotedPrintable.encodeAll (Body m)
    /\ lines out
       = [lit "From: " ++ From m;
          lit "To: " ++ Join (To m) (lit ", ");
          lit "Subject: " ++ Mime.Encode (lit "utf-8") (Subject m);
          lit "MIME-Version: 1.0";
          lit "Content-Type: " ++ MailType_String (MT m)
            ++ lit "; charset=UTF-8";
          lit "Content-Transfer-Encoding: quoted-printable";
          []]
         ++ lines (QuotedPrintable.encodeAll (Body m))
    /\ headerBlock (lines out)
       = [lit "From: " ++ From m;
          lit "To: " ++ Join (To m) (lit ", ");
          lit "Subject: " ++ Mime.Encode (lit "utf-8") (Subject m);
          lit "MIME-Version: 1.0";
          lit "Content-Type: " ++ MailType_String (MT m)
            ++ lit "; charset=UTF-8";
          lit "Content-Transfer-Encoding: quoted-printable"]
    /\ forallb (fun l => negb (hasPrefix (lit "Content-Type: multipart/") l))
         (headerBlock (lines out)) = true
    /\ (forall b, ~ declaresBoundary out b)
    /\ (forall l, In l (lines out) -> ~ delimiterLine out l).
Proof.
  intros rnd readFile m H1 H2 H3 H4 HA HI.
  set (c := mkCollab rnd readFile stdQP).
  destruct (encodeAll_lines (Body m)) as (ls & last & _ & _ & _ & QO & QE).
  destruct (ToBytes_succeeds c m H1 H2 H3 H4 QE) as (out & S).
  { rewrite HA. reflexivity. }
  exists out. split; [exact S|].
  destruct (ToBytes_output c m out S) as (_ & _ & E). cbv zeta in E.
  rewrite HA, HI in E.
  change (QP c) with stdQP in E. rewrite QO in E.
  change (0 <? length (@nil AttachmentFile)) with false in E.
  change (0 <? length (@nil InlineFile)) with false in E.
  cbn [orb flat_map] in E. rewrite !app_nil_r, !app_nil_l in E.
  assert (E2 : out =
    flat_map endLine
      (headerLines (From m) (To m) (Subject m)
       ++ [lit "Content-Type: " ++ MailType_String (MT m)
             ++ lit "; charset=UTF-8";
           lit "Content-Transfer-Encoding: quoted-printable";
           []])
    ++ QuotedPrintable.encodeAll (Body m)).
  { rewrite E, flat_map_app. unfold endLine at 3. cbn [flat_map].
    unfold endLine at 2 3 4. destruct (MT m); cbn [MailType_String];
      now rewrite ?app_nil_r, ?app_nil_l, <- !app_assoc. }
  assert (L : lines out
              = [lit "From: " ++ From m;
                 lit "To: " ++ Join (To m) (lit ", ");
                 lit "Subject: " ++ Mime.Encode (lit "utf-8") (Subject m);
                 lit "MIME-Version: 1.0";
                 lit "Content-Type: " ++ MailType_String (MT m)
                   ++ lit "; charset=UTF-8";
                 lit "Content-Transfer-Encoding: quoted-printable";
                 []]
                ++ lines (QuotedPrintable.encodeAll (Body m))).
  { rewrite E2 at 1. apply lines_prefix.
    assert (F : Forall (fun l => noCR l = true)
                  (headerLines (From m) (To m) (Subject m)
                   ++ [lit "Content-Type: " ++ MailType_String (MT m)
                         ++ lit "; charset=UTF-8";
                       lit "Content-Transfer-Encoding: quoted-printable";
                       []])).
    { apply Forall_app. split.
      - now apply headerLines_noCR.
      - repeat constructor. now destruct (MT m). }
    exact F. }
  assert (B : headerBlock (lines out)
              = [lit "From: " ++ From m;
                 lit "To: " ++ Join (To m) (lit ", ");
                 lit "Subject: " ++ Mime.Encode (lit "utf-8") (Subject m);
                 lit "MIME-Version: 1.0";
                 lit "Content-Type: " ++ MailType_String (MT m)
                   ++ lit "; charset=UTF-8";
                 lit "Content-Transfer-Encoding: quoted-printable"]).
  { rewrite L.
    apply (headerBlock_app
             [lit "From: " ++ From m;
              lit "To: " ++ Join (To m) (lit ", ");
              lit "Subject: " ++ Mime.Encode (lit "utf-8") (Subject m);
              lit "MIME-Version: 1.0";
              lit "Content-Type: " ++ MailType_String (MT m)
                ++ lit "; charset=UTF-8";
              lit "Content-Transfer-Encoding: quoted-printable"]).
    repeat constructor; apply nonempty_of_isEmpty; reflexivity. }
  assert (N : forallb
                (fun l => negb (hasPrefix (lit "Content-Type: multipart/") l))
                (headerBlock (lines out)) = true).
  { rewrite B. destruct (MT m); reflexivity. }
  split.
  - rewrite E2, flat_map_app. unfold headerLines, endLine. cbn [flat_map].
    now rewrite ?app_nil_r, ?app_nil_l, <- !app_assoc.
  - split; [exact L|]. split; [exact B|]. split; [exact N|].
    destruct (no_multipart_no_boundary out N) as (ND & NL).
    split; [exact ND|]. intros l _. apply NL.
Qed.

(** C6, at the scenario message. *)
Lemma ToBytes_body_only_witness :
  exists out,
    ToBytes (mkCollab counting noFiles stdQP) plainMail = (Some out, None)
    /\ lines out
       = [lit "From: a@b.com"; lit "To: c@d.com"; lit "Subject: Hi";
          lit "MIME-Version: 1.0";
          lit "Content-Type: text/plain; charset=UTF-8";
          lit "Content-Transfer-Encoding: quoted-printable"; []]
         ++ lines (QuotedPrintable.encodeAll (lit "hello"))
    /\ (forall l, In l (lines out) -> ~ delimiterLine out l).
Proof.
  destruct (ToBytes_body_only counting noFiles plainMail)
    as (out & S & _ & L & _ & _ & _ & D); try reflexivity; try discriminate.
  exists out. split; [exact S|]. split; [exact L|exact D].
Defined.

(** ** A random source that fails *)

Lemma existsb_same : forall A (f g : A -> bool) l,
  (forall x, In x l -> f x = g x) -> existsb f l = existsb g l.
Proof.
  intros A f g l H. induction l as [|x l IH]; [reflexivity|].
  cbn [existsb]. rewrite (H x (or_introl eq_refl)), IH; [reflexivity|].
  intros y Hy. apply H. now right.
Qed.

Lemma aborts_Aborts : forall o, aborts o = true <-> o = Aborts.
Proof. intros [stored err|]; split; intro H; (reflexivity || discriminate). Qed.

(** [ToBytes] looks at a random source only through the boundaries it
    renders, and these are made of the bytes stored by the reads of
    [boundaryReads]: the error that a read returns plays no part, nor
    does a read the call does not make. *)
Lemma ToBytes_reads_only : forall rnd rnd' readFile q m,
  (forall k, In k (boundaryReads m) -> fst (rnd' k) = fst (rnd k)) ->
  ToBytes (mkCollab rnd' readFile q) m = ToBytes (mkCollab rnd readFile q) m.
Proof.
  intros rnd rnd' readFile q m H.
  set (c := mkCollab rnd readFile q). set (c' := mkCollab rnd' readFile q).
  assert (G : forall k, In k (boundaryReads m) ->
                        generateBoundary c' k = generateBoundary c k).
  { intros k Hk. unfold generateBoundary, c, c'. cbn [rand_Read].
    now rewrite (H k Hk). }
  pose proof (ToBytes_error c m) as E1.
  pose proof (ToBytes_error c' m) as E2.
  change (QP c') with (QP c) in E2.
  change (os_ReadFile c') with (os_ReadFile c) in E2.
  rewrite <- E1 in E2.
  destruct (ToBytes_result c m) as [(out & S)|(e & S)];
    destruct (ToBytes_result c' m) as [(out' & S')|(e' & S')];
    rewrite S in E1, E2; rewrite S' in E2; rewrite S, S';
    cbn [snd] in E1, E2; try discriminate E2.
  - f_equal. f_equal.
    destruct (ToBytes_output _ _ _ S) as (VF & VT & O).
    destruct (ToBytes_output _ _ _ S') as (_ & _ & O').
    cbv zeta in O, O'.
    change (QP c') with (QP c) in O'.
    change (os_ReadFile c') with (os_ReadFile c) in O'.
    unfold boundaryReads in G.
    destruct (length (To m) =? 0); [discriminate E1|].
    destruct (length (Body m) =? 0); [discriminate E1|].
    rewrite VF, VT in G. cbn [negb] in G.
    destruct (Inline m) as [|i inl].
    + change (0 <? length (@nil InlineFile)) with false in *.
      cbn [flat_map] in O, O'. cbv iota in O, O', G.
      rewrite (G 0) in O' by now left. now rewrite O, O'.
    + change (0 <? length (i :: inl)) with true in *. cbv iota in G.
      rewrite (G 0), (G 1) in O' by (cbn [In]; auto). now rewrite O, O'.
  - now rewrite E2.
Qed.

(** C5, as amended.  A failure of the random source is never given to
    the caller of [ToBytes] as an error, and the code puts no other
    source in its place.  A call that returns reports the error, or
    none, that it reports with any other source: there is no error for
    randomness.  What a read returns as its error is dropped: the
    outcome of a call depends only on which of the reads it makes abort
    the process and on the bytes the others stored.  And a call does not
    return exactly when one of the reads it makes aborts the process; it
    makes none when a check fails. *)
Theorem random_failure_not_reported : forall read readFile q m,
  (forall r rnd,
     runToBytes read readFile q m = Some r ->
     snd r = snd (ToBytes (mkCollab rnd readFile q) m))
  /\ (forall read',
        (forall k, In k (boundaryReads m) ->
                   aborts (read' k) = aborts (read k)
                   /\ fst (returned (read' k)) = fst (returned (read k))) ->
        runToBytes read' readFile q m = runToBytes read readFile q m)
  /\ (runToBytes read readFile q m = None <->
      exists k, In k (boundaryReads m) /\ read k = Aborts).
Proof.
  intros read readFile q m. split; [|split].
  - intros r rnd H. unfold runToBytes in H.
    destruct (existsb _ _); [discriminate|].
    injection H as <-. now rewrite !ToBytes_error.
  - intros read' H. unfold runToBytes.
    rewrite (existsb_same _ (fun k => aborts (read' k))
               (fun k => aborts (read k)))
      by (intros k Hk; now apply H).
    destruct (existsb _ _); [reflexivity|]. f_equal.
    apply ToBytes_reads_only. intros k Hk. now apply H.
  - unfold runToBytes. split.
    + destruct (existsb _ _) eqn:E; [|discriminate]. intros _.
      apply existsb_exists in E as (k & Hin & Hk).
      exists k. split; [exact Hin|now apply aborts_Aborts].
    + intros (k & Hin & Hk).
      replace (existsb (fun k => aborts (read k)) (boundaryReads m))
        with true; [reflexivity|].
      symmetry. apply existsb_exists. exists k.
      split; [exact Hin|now apply aborts_Aborts].
Qed.

(** C5, at a message whose attachment cannot be read: the error is that
    of the file system, with one working source as with another. *)
Lemma random_failure_not_reported_witness :
  snd (ToBytes (mkCollab (fun k => returned (countingRead k)) noFiles stdQP)
         (withAttachment [onDisk] plainMail))
  = snd (ToBytes (mkCollab (fun k => counting (S k)) noFiles stdQP)
           (withAttachment [onDisk] plainMail)).
Proof.
  apply (proj1 (random_failure_not_reported countingRead noFiles stdQP
                  (withAttachment [onDisk] plainMail))
           (ToBytes (mkCollab (fun k => returned (countingRead k)) noFiles
                       stdQP)
              (withAttachment [onDisk] plainMail))
           (fun k => counting (S k))).
  vm_compute. reflexivity.
Defined.

(** C5, the counterexample: the Reader fails, and the caller of
    [ToBytes] gets no error.  Where [rand.Read] aborts the process the
    call does not return; where it returns the error of the Reader the
    call returns a message and no error. *)
Lemma random_failure_no_error :
  runToBytes abortingRead noFiles stdQP (withAttachment [testfile] plainMail)
  = None
  /\ (exists out,
        runToBytes failingRead noFiles stdQP
          (withAttachment [testfile] plainMail)
        = Some (Some out, None)).
Proof.
  split; [vm_compute; reflexivity|].
  eexists. vm_compute. reflexivity.
Qed.

(* ================================================================= *)
(** * Part III: further properties of the code *)
(* ================================================================= *)

(** ** Boundaries *)

Lemma fill16_length : forall read, length (fill16 read) = 16.
Proof.
  intro read. unfold fill16. rewrite length_firstn, length_app, repeat_length.
  lia.
Qed.

Lemma fill16_full : forall read, length read = 16 -> fill16 read = read.
Proof.
  intros read H. unfold fill16. rewrite firstn_app, H.
  change (16 - 16) with 0. rewrite firstn_O, app_nil_r.
  apply firstn_all2. lia.
Qed.

Lemma hex_length : forall table l,
  length (flat_map (hexByte table) l) = 2 * length l.
Proof.
  intros table l. induction l as [|b l IH]; [reflexivity|].
  cbn [flat_map length hexByte app]. rewrite IH. lia.
Qed.

Lemma hex_lower : forall l,
  forallb isLowerHex (flat_map (hexByte lowerhex) l) = true.
Proof.
  induction l as [|b l IH]; [reflexivity|].
  cbn [flat_map]. rewrite forallb_app, IH, andb_true_r.
  apply (forall_bytes (fun b => forallb isLowerHex (hexByte lowerhex b))).
  vm_compute; reflexivity.
Qed.

Lemma unhex_hex : forall b,
  unhexPair lowerhex (hexByte lowerhex b) = Some b.
Proof.
  intro b.
  pose proof (forall_bytes
    (fun b => match unhexPair lowerhex (hexByte lowerhex b) with
              | Some b' => Ascii.eqb b' b
              | None => false
              end)) as F.
  specialize (F ltac:(vm_compute; reflexivity) b). cbv beta in F.
  destruct (unhexPair lowerhex (hexByte lowerhex b)) as [b'|]; [|discriminate].
  apply Ascii.eqb_eq in F. now subst.
Qed.

Lemma app_same_length : forall (a b x y : bytes),
  length a = length b -> a ++ x = b ++ y -> a = b /\ x = y.
Proof.
  induction a as [|c a IH]; intros [|d b] x y L H; try discriminate.
  - now split.
  - injection H as -> H. injection L as L.
    destruct (IH b x y L H) as [-> ->]. now split.
Qed.

Lemma hex_injective : forall l1 l2,
  flat_map (hexByte lowerhex) l1 = flat_map (hexByte lowerhex) l2 -> l1 = l2.
Proof.
  induction l1 as [|a l1 IH]; intros [|b l2] H;
    [reflexivity|discriminate|discriminate|].
  cbn [flat_map] in H.
  apply app_same_length in H as [H1 H2]; [|reflexivity].
  pose proof (unhex_hex a) as Ua. rewrite H1, unhex_hex in Ua.
  injection Ua as ->. f_equal. now apply IH.
Qed.

(** X1.  Whatever the random source does, a boundary is the word
    [boundary-] followed by thirty-two lowercase hexadecimal digits, 41
    bytes in all. *)
Theorem generateBoundary_shape : forall c k,
  exists digits,
    generateBoundary c k = lit "boundary-" ++ digits
    /\ length digits = 32
    /\ forallb isLowerHex digits = true
    /\ length (generateBoundary c k) = 41.
Proof.
  intros c k. unfold generateBoundary.
  exists (flat_map (hexByte lowerhex) (fill16 (fst (rand_Read c k)))).
  split; [reflexivity|].
  assert (L : length (flat_map (hexByte lowerhex)
                        (fill16 (fst (rand_Read c k)))) = 32)
    by (rewrite hex_length, fill16_length; reflexivity).
  split; [exact L|]. split; [apply hex_lower|].
  rewrite length_app, L. reflexivity.
Qed.

(** X2.  Two reads that each store sixteen bytes give the same boundary
    only when they store the same bytes. *)
Theorem generateBoundary_injective : forall c j k,
  length (fst (rand_Read c j)) = 16 ->
  length (fst (rand_Read c k)) = 16 ->
  (generateBoundary c j = generateBoundary c k
   <-> fst (rand_Read c j) = fst (rand_Read c k)).
Proof.
  intros c j k Hj Hk. unfold generateBoundary.
  rewrite (fill16_full _ Hj), (fill16_full _ Hk). split.
  - intro H. apply app_inv_head in H. now apply hex_injective.
  - now intros ->.
Qed.

(** X2, at the counting source: its first two boundaries differ. *)
Lemma generateBoundary_injective_witness :
  generateBoundary (mkCollab counting noFiles stdQP) 0
  = generateBoundary (mkCollab counting noFiles stdQP) 1
  <-> repeat (ascii_of_nat 0) 16 = repeat (ascii_of_nat 1) 16.
Proof.
  apply (generateBoundary_injective (mkCollab counting noFiles stdQP) 0 1);
    reflexivity.
Defined.

(** ** Accepted addresses *)

Lemma count_occ_none : forall (P : ascii -> bool) x l,
  P x = false -> forallb P l = true -> count_occ ascii_dec l x = 0.
Proof.
  intros P x l Hx. induction l as [|c l IH]; simpl; intro H; [reflexivity|].
  apply andb_true_iff in H as [Hc Hl].
  destruct (ascii_dec c x) as [->|_]; [congruence|now apply IH].
Qed.

(** X3.  An accepted address holds letters, digits and the bytes
    [._%+-@] only (so no blank, no control byte and no byte above 0x7F),
    has exactly one at sign, and is at least six bytes long. *)
Theorem ValidateEmail_bytes : forall s,
  ValidateEmail s = true ->
  forallb (fun c => localChar c || isByte "@" c) s = true
  /\ count_occ ascii_dec s "@"%char = 1
  /\ 6 <= length s
  /\ forallb (fun c => negb (isByte CR c || isByte LF c || isByte " " c)) s
     = true.
Proof.
  intros s H. pose proof (ValidateEmail_chars s H) as C.
  split; [exact C|].
  apply ValidateEmail_form in H
    as (l & d & t & -> & Hl1 & Hl2 & Hd1 & Hd2 & Ht1 & Ht2).
  split; [|split].
  - rewrite !count_occ_app.
    rewrite (count_occ_none localChar "@" l eq_refl Hl2).
    rewrite (count_occ_none domainChar "@" d eq_refl Hd2).
    rewrite (count_occ_none isLetter "@" t eq_refl Ht1).
    reflexivity.
  - rewrite !length_app. destruct l; [contradiction|].
    destruct d; [contradiction|]. simpl. lia.
  - revert C. apply forallb_impl.
    apply (forall_bytes
             (fun c => implb (addrChar c)
                         (negb (isByte CR c || isByte LF c || isByte " " c)))).
    vm_compute; reflexivity.
Qed.

(** X3, at an address of [TestValidateEmail]. *)
Lemma ValidateEmail_bytes_witness :
  count_occ ascii_dec (lit "user.name@example.com") "@"%char = 1.
Proof.
  apply (ValidateEmail_bytes (lit "user.name@example.com")).
  vm_compute; reflexivity.
Defined.

(** ** The size of what [writeBytes] appends *)

Lemma endLines_length : forall full,
  Forall (fun l => length l = 76) full ->
  length (flat_map endLine full) = 78 * length full
  /\ length (concat full) = 76 * length full.
Proof.
  induction 1 as [|l full Hl _ [IH1 IH2]]; [split; reflexivity|].
  cbn [flat_map concat]. unfold endLine at 1.
  rewrite !length_app, IH1, IH2, Hl. change (length CRLF) with 2.
  cbn [length]. lia.
Qed.

(** X4.  [writeBytes] never fails and only appends: to a buffer it adds
    the CRLF, the [4 * ceil(n / 3)] characters of the base64 text of its
    [n] input bytes, and one CRLF for every 76 of these characters (for
    no input, the CRLF alone). *)
Theorem writeBytes_appended_length : forall msg file,
  exists appended,
    writeBytes msg file = (msg ++ appended, None)
    /\ length appended
       = 2 + (length file + 2) / 3 * 4
         + 2 * ((length file + 2) / 3 * 4 / 76).
Proof.
  intros msg file. exists (CRLF ++ wrapFrom 0 (Base64.Encode file)).
  split; [apply writeBytes_eq|].
  destruct (wrap_decompose (length (Base64.Encode file))
              (Base64.Encode file) 0)
    as (full & last & E & F & L & W & _); [lia|reflexivity|].
  destruct (endLines_length full F) as [L1 L2].
  pose proof (Encode_length file) as EL. unfold Base64.EncodedLen in EL.
  rewrite E, length_app, L2 in EL.
  rewrite length_app, W, length_app, L1. change (length CRLF) with 2.
  rewrite <- EL.
  replace ((76 * length full + length last) / 76) with (length full).
  - lia.
  - apply (Nat.div_unique _ 76 _ (length last)); lia.
Qed.

(** ** Errors of the collaborators *)

Lemma readError_first : forall readFile ready f rest e,
  (forall g, In g ready ->
             aBody g <> [] \/ snd (readFile (aName g)) = None) ->
  aBody f = [] -> snd (readFile (aName f)) = Some e ->
  readError readFile (ready ++ f :: rest) = Some e.
Proof.
  induction ready as [|g ready IH]; intros f rest e Hr Hf He.
  - cbn [app readError]. rewrite Hf, He. reflexivity.
  - cbn [app readError].
    assert (Hg := Hr g (or_introl eq_refl)).
    assert (IH' : readError readFile (ready ++ f :: rest) = Some e).
    { apply IH; auto. intros x Hx. apply Hr. now right. }
    destruct (0 <? length (aBody g)) eqn:B; [exact IH'|].
    destruct Hg as [Hg|Hg].
    + destruct (aBody g); [contradiction|discriminate].
    + rewrite Hg. exact IH'.
Qed.

(** X5.  For a message that passes the four checks, an error of the
    quoted-printable writer (from [Write], or else from [Close]) ends the
    call with that error, whatever the attachments are; when the writer
    reports none, the first attachment without bytes of its own whose
    file cannot be read ends the call with the error of that read. *)
Theorem ToBytes_collaborator_errors : forall c m,
  To m <> [] -> Body m <> [] ->
  ValidateEmail (From m) = true -> forallb ValidateEmail (To m) = true ->
  (forall st out e,
     qpWrite (QP c) (qpNew (QP c)) (Body m) = (st, out, Some e) ->
     ToBytes c m = (None, Some e))
  /\ (forall st out out2 e,
        qpWrite (QP c) (qpNew (QP c)) (Body m) = (st, out, None) ->
        qpClose (QP c) st = (out2, Some e) ->
        ToBytes c m = (None, Some e))
  /\ (forall st out out2 ready f rest e,
        qpWrite (QP c) (qpNew (QP c)) (Body m) = (st, out, None) ->
        qpClose (QP c) st = (out2, None) ->
        Attachment m = ready ++ f :: rest ->
        (forall g, In g ready ->
                   aBody g <> [] \/ snd (os_ReadFile c (aName g)) = None) ->
        aBody f = [] -> snd (os_ReadFile c (aName f)) = Some e ->
        ToBytes c m = (None, Some e)).
Proof.
  intros c m H1 H2 H3 H4.
  assert (E : forall e,
            match qpError (QP c) (Body m) with
            | Some err => Some err
            | None => if 0 <? length (Attachment m)
                      then readError (os_ReadFile c) (Attachment m)
                      else None
            end = Some e ->
            ToBytes c m = (None, Some e)).
  { intros e He. pose proof (ToBytes_error c m) as HE.
    rewrite (isEmpty_false _ _ H1), (isEmpty_false _ _ H2), H3 in HE.
    cbn [negb] in HE. rewrite (checkTo_all_valid _ H4), He in HE.
    destruct (ToBytes_result c m) as [[o S]|[e' S]]; rewrite S in *;
      cbn [snd] in HE; congruence. }
  split; [|split].
  - intros st out e W. apply E. unfold qpError. now rewrite W.
  - intros st out out2 e W C. apply E. unfold qpError. now rewrite W, C.
  - intros st out out2 ready f rest e W C A R F Fe. apply E.
    unfold qpError. rewrite W, C. cbn [snd]. rewrite A.
    replace (0 <? length (ready ++ f :: rest)) with true
      by (now destruct ready).
    now apply readError_first.
Qed.

(** X5, at a message with one attachment to be read from a file system
    without files. *)
Lemma ToBytes_collaborator_errors_witness :
  ToBytes offline (withAttachment [testfile; onDisk] plainMail)
  = (None, Some (lit "open report.pdf: no such file or directory")).
Proof.
  apply (proj2 (proj2 (ToBytes_collaborator_errors offline
                         (withAttachment [testfile; onDisk] plainMail)
                         ltac:(discriminate) ltac:(discriminate)
                         ltac:(vm_compute; reflexivity)
                         ltac:(vm_compute; reflexivity)))
           (QuotedPrintable.mkWriter (lit "hello") false) [] (lit "hello")
           [testfile] onDisk []).
  - vm_compute; reflexivity.
  - vm_compute; reflexivity.
  - reflexivity.
  - intros g [<-|[]]. left. discriminate.
  - reflexivity.
  - vm_compute; reflexivity.
Defined.

(** ** The variant of mail.go *)

(** X6.  The variant of mail.go, too, returns a buffer and no error or
    an error and no buffer. *)
Theorem Legacy_ToBytes_error_without_buffer : forall c m err,
  snd (Legacy.ToBytes c m) = Some err -> fst (Legacy.ToBytes c m) = None.
Proof.
  intros c m err. unfold Legacy.ToBytes.
  repeat match goal with
  | |- context [if ?b then _ else _] => destruct b
  | |- context [match ?x with _ => _ end] => destruct x
  end; cbn [fst snd]; intro H; solve [reflexivity | discriminate].
Qed.

(** X6, at a message whose attachment cannot be read. *)
Lemma Legacy_ToBytes_error_without_buffer_witness :
  fst (Legacy.ToBytes offline
         (toLegacy (withAttachment [onDisk] plainMail))) = None.
Proof.
  apply (Legacy_ToBytes_error_without_buffer offline
           (toLegacy (withAttachment [onDisk] plainMail))
           (lit "open report.pdf: no such file or directory")).
  vm_compute; reflexivity.
Defined.

(** X7.  The variant of mail.go checks no address: with Go's writer it
    assembles every message without attachments whose [To] and [Body]
    are not empty, and writes [From] and the entries of [To] as they
    are given. *)
Theorem Legacy_ToBytes_checks_no_address : forall rnd readFile m,
  Legacy.To m <> [] -> Legacy.Body m <> [] -> Legacy.Attachment m = [] ->
  Legacy.ToBytes (mkCollab rnd readFile stdQP) m
  = (Some (lit "From: " ++ Legacy.From m ++ CRLF
           ++ lit "To: " ++ Join (Legacy.To m) (lit ", ") ++ CRLF
           ++ lit "Subject: "
           ++ Mime.Encode (lit "utf-8") (Legacy.Subject m) ++ CRLF
           ++ lit "MIME-Version: 1.0" ++ CRLF
           ++ lit "Content-Type: " ++ MailType_String (Legacy.MT m)
           ++ lit "; charset=UTF-8" ++ CRLF
           ++ lit "Content-Transfer-Encoding: quoted-printable" ++ CRLF
           ++ CRLF ++ QuotedPrintable.encodeAll (Legacy.Body m)), None).
Proof.
  intros rnd readFile m H1 H2 H3. unfold Legacy.ToBytes.
  rewrite (isEmpty_false _ _ H1), (isEmpty_false _ _ H2), H3.
  change (0 <? length (@nil AttachmentFile)) with false. cbv iota.
  rewrite writeBody_eq, writeHeaders_eq, app_nil_l.
  change (QP (mkCollab rnd readFile stdQP)) with stdQP.
  destruct (encodeAll_lines (Legacy.Body m)) as (_ & _ & _ & _ & _ & QO & QE).
  rewrite QO, QE. unfold headerLines, bodyLines, endLine. cbn [flat_map].
  destruct (Legacy.MT m); cbn [MailType_String];
    rewrite ?app_nil_r, <- ?app_assoc; reflexivity.
Qed.

(** X7, at a sender that [ValidateEmail] rejects. *)
Lemma Legacy_ToBytes_checks_no_address_witness :
  ValidateEmail brokenAddress = false
  /\ snd (Legacy.ToBytes offline
            (toLegacy (withFrom brokenAddress plainMail))) = None.
Proof.
  split; [vm_compute; reflexivity|]. unfold offline.
  rewrite (Legacy_ToBytes_checks_no_address noEntropy noFiles
             (toLegacy (withFrom brokenAddress plainMail)));
    try reflexivity; discriminate.
Defined.

(** ** What the assembler reads from disk *)

Lemma writeAttachments_own_bytes : forall rnd fs fs' q b files msg,
  (forall f, In f files -> aBody f <> []) ->
  writeAttachments (mkCollab rnd fs q) b msg files
  = writeAttachments (mkCollab rnd fs' q) b msg files.
Proof.
  induction files as [|f files IH]; intros msg H; [reflexivity|].
  cbn [writeAttachments].
  assert (B : (0 <? length (aBody f)) = true).
  { specialize (H f (or_introl eq_refl)). now destruct (aBody f). }
  rewrite B, writeBytes_eq. apply IH. intros g Hg. apply H. now right.
Qed.

(** X8.  When every attachment carries bytes of its own, [ToBytes] reads
    no file: its result is the same on every file system.  Inline files
    do not matter here; they are never read from disk. *)
Theorem ToBytes_reads_no_file : forall rnd fs fs' q m,
  (forall f, In f (Attachment m) -> aBody f <> []) ->
  ToBytes (mkCollab rnd fs q) m = ToBytes (mkCollab rnd fs' q) m.
Proof.
  intros rnd fs fs' q m H. unfold ToBytes.
  change (generateBoundary (mkCollab rnd fs' q))
    with (generateBoundary (mkCollab rnd fs q)).
  change (writeBody (mkCollab rnd fs' q)) with (writeBody (mkCollab rnd fs q)).
  destruct (length (To m) =? 0); [reflexivity|].
  destruct (length (Body m) =? 0); [reflexivity|].
  destruct (negb (ValidateEmail (From m))); [reflexivity|].
  destruct (checkTo (To m)); [reflexivity|].
  match goal with
  | |- match ?X with _ => _ end = _ => destruct X as [msg1 [e|]]
  end; [reflexivity|].
  now rewrite (writeAttachments_own_bytes rnd fs fs' q).
Qed.

(** X8, at the message of [TestMail_ToBytes_Attachment]. *)
Lemma ToBytes_reads_no_file_witness :
  ToBytes (mkCollab noEntropy noFiles stdQP) testAttachment
  = ToBytes (mkCollab noEntropy oneFile stdQP) testAttachment.
Proof.
  apply (ToBytes_reads_no_file noEntropy noFiles oneFile stdQP testAttachment).
  intros f [<-|[]]. discriminate.
Defined.

(** ** The structure of a multipart message *)

Lemma attachPart_text : forall readFile b f,
  attachPart readFile b f
  = CRLF ++ lit "--" ++ b ++ CRLF
    ++ lit "Content-Type: "
    ++ (if isEmpty (aContentType f) then lit "application/octet-stream"
        else aContentType f)
    ++ lit "; name=" ++ [DQUOTE] ++ aName f ++ [DQUOTE] ++ CRLF
    ++ lit "Content-Transfer-Encoding: base64" ++ CRLF
    ++ lit "Content-Disposition: attachment; filename=" ++ [DQUOTE]
    ++ aName f ++ [DQUOTE] ++ CRLF
    ++ fst (writeBytes []
              (if 0 <? length (aBody f) then aBody f
               else fst (readFile (aName f)))).
Proof.
  intros. rewrite writeBytes_text. cbn [fst]. rewrite app_nil_l.
  unfold attachPart, attachHead, attachContent, orOctetStream.
  now rewrite <- !app_assoc.
Qed.

Lemma inlinePart_text : forall rb f,
  inlinePart rb f
  = CRLF ++ lit "--" ++ rb ++ CRLF
    ++ lit "Content-Type: "
    ++ (if isEmpty (iContentType f) then lit "application/octet-stream"
        else iContentType f)
    ++ lit "; name=" ++ [DQUOTE] ++ iName f ++ [DQUOTE] ++ CRLF
    ++ lit "Content-Transfer-Encoding: base64" ++ CRLF
    ++ lit "Content-ID: <" ++ iCID f ++ lit ">" ++ CRLF
    ++ lit "Content-Disposition: inline; filename=" ++ [DQUOTE]
    ++ iName f ++ [DQUOTE] ++ CRLF
    ++ fst (writeBytes [] (iBody f)).
Proof.
  intros. rewrite writeBytes_text. cbn [fst]. rewrite app_nil_l.
  unfold inlinePart, inlineHead, orOctetStream.
  now rewrite <- !app_assoc.
Qed.

Lemma headerLines_text : forall from to subject,
  flat_map endLine (headerLines from to subject)
  = lit "From: " ++ from ++ CRLF
    ++ lit "To: " ++ Join to (lit ", ") ++ CRLF
    ++ lit "Subject: " ++ Mime.Encode (lit "utf-8") subject ++ CRLF
    ++ lit "MIME-Version: 1.0" ++ CRLF.
Proof.
  intros. unfold headerLines, endLine. cbn [flat_map].
  now rewrite ?app_nil_r, <- !app_assoc.
Qed.

Lemma bodyLines_text : forall mt,
  flat_map endLine (bodyLines mt)
  = lit "Content-Type: " ++ MailType_String mt ++ lit "; charset=UTF-8"
    ++ CRLF ++ lit "Content-Transfer-Encoding: quoted-printable" ++ CRLF.
Proof.
  intros. unfold bodyLines, endLine. cbn [flat_map].
  destruct mt; cbn [MailType_String];
    now rewrite ?app_nil_r, <- !app_assoc.
Qed.

Lemma nonempty_ltb : forall A (l : list A), l <> [] -> (0 <? length l) = true.
Proof. intros A [|x l] H; [contradiction|reflexivity]. Qed.

(** X9.  A message with attachments and no inline files comes out as one
    multipart/mixed container on the first boundary: the four headers,
    the container's [Content-Type] and an empty line, the opening
    delimiter, the body part, then for every attachment in the caller's
    order a delimiter, its three header lines (the content type
    [application/octet-stream] when none is given), an empty line and
    the base64 text of its bytes (its own, or those of the file of its
    name), and last the closing delimiter. *)
Theorem ToBytes_mixed_structure : forall rnd readFile m out,
  ToBytes (mkCollab rnd readFile stdQP) m = (Some out, None) ->
  Attachment m <> [] -> Inline m = [] ->
  out =
    lit "From: " ++ From m ++ CRLF
    ++ lit "To: " ++ Join (To m) (lit ", ") ++ CRLF
    ++ lit "Subject: " ++ Mime.Encode (lit "utf-8") (Subject m) ++ CRLF
    ++ lit "MIME-Version: 1.0" ++ CRLF
    ++ lit "Content-Type: multipart/mixed; boundary="
    ++ generateBoundary (mkCollab rnd readFile stdQP) 0 ++ CRLF ++ CRLF
    ++ lit "--" ++ generateBoundary (mkCollab rnd readFile stdQP) 0 ++ CRLF
    ++ lit "Content-Type: " ++ MailType_String (MT m)
    ++ lit "; charset=UTF-8" ++ CRLF
    ++ lit "Content-Transfer-Encoding: quoted-printable" ++ CRLF ++ CRLF
    ++ QuotedPrintable.encodeAll (Body m)
    ++ flat_map
         (fun f =>
            CRLF ++ lit "--"
            ++ generateBoundary (mkCollab rnd readFile stdQP) 0 ++ CRLF
            ++ lit "Content-Type: "
            ++ (if isEmpty (aContentType f)
                then lit "application/octet-stream" else aContentType f)
            ++ lit "; name=" ++ [DQUOTE] ++ aName f ++ [DQUOTE] ++ CRLF
            ++ lit "Content-Transfer-Encoding: base64" ++ CRLF
            ++ lit "Content-Disposition: attachment; filename=" ++ [DQUOTE]
            ++ aName f ++ [DQUOTE] ++ CRLF
            ++ fst (writeBytes []
                      (if 0 <? length (aBody f) then aBody f
                       else fst (readFile (aName f)))))
         (Attachment m)
    ++ CRLF ++ lit "--" ++ generateBoundary (mkCollab rnd readFile stdQP) 0
    ++ lit "--" ++ CRLF.
Proof.
  intros rnd readFile m out S HA HI.
  set (c := mkCollab rnd readFile stdQP) in *.
  destruct (ToBytes_output c m out S) as (_ & _ & E). cbv zeta in E.
  destruct (encodeAll_lines (Body m)) as (_ & _ & _ & _ & _ & QO & _).
  change (QP c) with stdQP in E. rewrite QO in E.
  change (os_ReadFile c) with readFile in E.
  rewrite HI, (nonempty_ltb _ _ HA) in E.
  change (0 <? length (@nil InlineFile)) with false in E.
  cbn [orb flat_map] in E.
  rewrite headerLines_text, bodyLines_text in E.
  rewrite (flat_map_ext _ _ (attachPart_text readFile (generateBoundary c 0)))
    in E.
  rewrite E. rewrite ?app_nil_l, ?app_nil_r, <- ?app_assoc. reflexivity.
Qed.

(** X9, at the message of [TestMail_ToBytes_Attachment]. *)
Lemma ToBytes_mixed_structure_witness :
  Contains (output (ToBytes offline testAttachment))
    (CRLF ++ lit "--" ++ zeroBoundary ++ lit "--" ++ CRLF) = true.
Proof.
  rewrite (ToBytes_mixed_structure noEntropy noFiles testAttachment
             (output (ToBytes offline testAttachment)));
    [vm_compute; reflexivity | vm_compute; reflexivity
     | discriminate | reflexivity].
Defined.

(** X10.  A message with inline files comes out as a multipart/mixed
    container on the first boundary that holds one multipart/related
    container on the second: inside the related container the body part
    and then every inline file in the caller's order, each with its
    delimiter, its four header lines with the [Content-ID] in angle
    brackets, an empty line and the base64 text of its bytes; the related
    container is closed before the attachments, if any, follow on the
    first boundary, and the mixed container is closed last. *)
Theorem ToBytes_related_structure : forall rnd readFile m out,
  ToBytes (mkCollab rnd readFile stdQP) m = (Some out, None) ->
  Inline m <> [] ->
  out =
    lit "From: " ++ From m ++ CRLF
    ++ lit "To: " ++ Join (To m) (lit ", ") ++ CRLF
    ++ lit "Subject: " ++ Mime.Encode (lit "utf-8") (Subject m) ++ CRLF
    ++ lit "MIME-Version: 1.0" ++ CRLF
    ++ lit "Content-Type: multipart/mixed; boundary="
    ++ generateBoundary (mkCollab rnd readFile stdQP) 0 ++ CRLF ++ CRLF
    ++ lit "--" ++ generateBoundary (mkCollab rnd readFile stdQP) 0 ++ CRLF
    ++ lit "Content-Type: multipart/related; boundary="
    ++ generateBoundary (mkCollab rnd readFile stdQP) 1 ++ CRLF ++ CRLF
    ++ lit "--" ++ generateBoundary (mkCollab rnd readFile stdQP) 1 ++ CRLF
    ++ lit "Content-Type: " ++ MailType_String (MT m)
    ++ lit "; charset=UTF-8" ++ CRLF
    ++ lit "Content-Transfer-Encoding: quoted-printable" ++ CRLF ++ CRLF
    ++ QuotedPrintable.encodeAll (Body m)
    ++ flat_map
         (fun f =>
            CRLF ++ lit "--"
            ++ generateBoundary (mkCollab rnd readFile stdQP) 1 ++ CRLF
            ++ lit "Content-Type: "
            ++ (if isEmpty (iContentType f)
                then lit "application/octet-stream" else iContentType f)
            ++ lit "; name=" ++ [DQUOTE] ++ iName f ++ [DQUOTE] ++ CRLF
            ++ lit "Content-Transfer-Encoding: base64" ++ CRLF
            ++ lit "Content-ID: <" ++ iCID f ++ lit ">" ++ CRLF
            ++ lit "Content-Disposition: inline; filename=" ++ [DQUOTE]
            ++ iName f ++ [DQUOTE] ++ CRLF
            ++ fst (writeBytes [] (iBody f)))
         (Inline m)
    ++ CRLF ++ lit "--" ++ generateBoundary (mkCollab rnd readFile stdQP) 1
    ++ lit "--" ++ CRLF
    ++ flat_map
         (fun f =>
            CRLF ++ lit "--"
            ++ generateBoundary (mkCollab rnd readFile stdQP) 0 ++ CRLF
            ++ lit "Content-Type: "
            ++ (if isEmpty (aContentType f)
                then lit "application/octet-stream" else aContentType f)
            ++ lit "; name=" ++ [DQUOTE] ++ aName f ++ [DQUOTE] ++ CRLF
            ++ lit "Content-Transfer-Encoding: base64" ++ CRLF
            ++ lit "Content-Disposition: attachment; filename=" ++ [DQUOTE]
            ++ aName f ++ [DQUOTE] ++ CRLF
            ++ fst (writeBytes []
                      (if 0 <? length (aBody f) then aBody f
                       else fst (readFile (aName f)))))
         (Attachment m)
    ++ CRLF ++ lit "--" ++ generateBoundary (mkCollab rnd readFile stdQP) 0
    ++ lit "--" ++ CRLF.
Proof.
  intros rnd readFile m out S HI.
  set (c := mkCollab rnd readFile stdQP) in *.
  destruct (ToBytes_output c m out S) as (_ & _ & E). cbv zeta in E.
  destruct (encodeAll_lines (Body m)) as (_ & _ & _ & _ & _ & QO & _).
  change (QP c) with stdQP in E. rewrite QO in E.
  change (os_ReadFile c) with readFile in E.
  rewrite (nonempty_ltb _ _ HI), orb_true_r in E.
  rewrite headerLines_text, bodyLines_text in E.
  rewrite (flat_map_ext _ _ (attachPart_text readFile (generateBoundary c 0)))
    in E.
  rewrite (flat_map_ext _ _ (inlinePart_text (generateBoundary c 1))) in E.
  rewrite E. rewrite ?app_nil_l, ?app_nil_r, <- ?app_assoc. reflexivity.
Qed.

(** X10, at the message of [TestMail_ToBytes_InlineImage] with the
    attachment of [TestMail_ToBytes_Attachment] added. *)
Lemma ToBytes_related_structure_witness :
  Contains
    (output (ToBytes (mkCollab counting noFiles stdQP)
               (withAttachment [testfile] testInline)))
    (lit "Content-ID: <logo>" ++ CRLF) = true.
Proof.
  rewrite (ToBytes_related_structure counting noFiles
             (withAttachment [testfile] testInline)
             (output (ToBytes (mkCollab counting noFiles stdQP)
                        (withAttachment [testfile] testInline))));
    [vm_compute; reflexivity | vm_compute; reflexivity | discriminate].
Defined.

(** ** The text of a file part *)

Lemma base64Byte_sextet : forall val sh, base64Byte (Base64.sextet val sh) = true.
Proof.
  intros. unfold Base64.sextet.
  assert (All : forallb base64Byte Base64.encodeStd = true)
    by (vm_compute; reflexivity).
  rewrite forallb_forall in All. apply All. apply nth_In.
  rewrite land_63.
  assert ((N.shiftr val sh) mod 64 < 64)%N
    by (apply N.mod_upper_bound; discriminate).
  change (length Base64.encodeStd) with 64. lia.
Qed.

Lemma Encode_base64Byte : forall src,
  forallb base64Byte (Base64.Encode src) = true.
Proof.
  fix IH 1. intros [|s0 [|s1 [|s2 rest]]]; try reflexivity.
  - cbn [Base64.Encode forallb]. now rewrite !base64Byte_sextet.
  - cbn [Base64.Encode forallb]. now rewrite !base64Byte_sextet.
  - cbn [Base64.Encode forallb]. rewrite !base64Byte_sextet. cbn [andb].
    apply IH.
Qed.

Lemma wrapFrom_base64Byte : forall p index,
  forallb base64Byte p = true -> forallb base64Byte (wrapFrom index p) = true.
Proof.
  induction p as [|b rest IH]; intros index H; [reflexivity|].
  cbn [wrapFrom forallb] in *. apply andb_prop in H as [Hb Hr].
  rewrite Hb, forallb_app, (IH _ Hr), andb_true_r. cbn [andb].
  now destruct ((index + 1) mod 76 =? 0).
Qed.

Lemma base64Text_base64Byte : forall data,
  forallb base64Byte (base64Text data) = true.
Proof.
  intro. apply wrapFrom_base64Byte, Encode_base64Byte.
Qed.

Lemma base64Text_decodes : forall data,
  Base64.DecodeString (base64Text data) = Some data.
Proof.
  intro data. unfold Base64.DecodeString, base64Text.
  rewrite unwrap_wrapFrom, unwrap_plain by apply Encode_plain.
  apply decodeQuanta_Encode.
Qed.

(** X11.  What [writeBytes] appends is made of the sixty-four characters
    of the standard alphabet, the padding character and the two bytes of
    a line break only: whatever the file holds, no hyphen is written, so
    no line of a file part can be taken for a boundary delimiter. *)
Theorem writeBytes_alphabet : forall msg file,
  exists appended,
    writeBytes msg file = (msg ++ appended, None)
    /\ forallb base64Byte appended = true
    /\ ~ In "-"%char appended.
Proof.
  intros msg file. exists (CRLF ++ base64Text file).
  assert (F : forallb base64Byte (CRLF ++ base64Text file) = true).
  { rewrite forallb_app, base64Text_base64Byte. reflexivity. }
  split; [apply writeBytes_text|]. split; [exact F|].
  intro Hin. rewrite forallb_forall in F. specialize (F _ Hin).
  discriminate F.
Qed.

(** One part of a run of parts that all open with the same delimiter,
    with the delimiter that follows it. *)
Lemma flat_map_delimited : forall A (part : A -> bytes) delim
    (content : A -> bytes) files f rest after,
  (forall x, part x = CRLF ++ delim ++ content x) ->
  In f files ->
  rest = CRLF ++ delim ++ after ->
  exists pre post,
    flat_map part files ++ rest
    = pre ++ CRLF ++ delim ++ content f ++ CRLF ++ delim ++ post.
Proof.
  intros A part delim content files f rest after P Hin R.
  destruct (in_split f files Hin) as (l1 & [|g l2] & ->).
  - exists (flat_map part l1), after.
    rewrite flat_map_app. cbn [flat_map]. rewrite P, R.
    now rewrite ?app_nil_r, <- !app_assoc.
  - exists (flat_map part l1), (content g ++ flat_map part l2 ++ rest).
    rewrite flat_map_app. cbn [flat_map]. rewrite !P.
    now rewrite <- !app_assoc.
Qed.

(** X12.  In the output of a successful call every attachment and every
    inline file has a part of its own: the delimiter of its container
    (the first boundary for an attachment, the second for an inline
    file), its header lines, an empty line and a text that ends where
    the next delimiter of that container begins; decoded as base64, the
    text gives back the file's bytes: the attachment's own when it has
    any, otherwise those read from the file of its name. *)
Theorem ToBytes_file_parts_decode : forall c m out,
  ToBytes c m = (Some out, None) ->
  (forall f, In f (Attachment m) ->
     exists pre text post,
       out = pre ++ CRLF ++ lit "--" ++ generateBoundary c 0 ++ CRLF
             ++ lit "Content-Type: "
             ++ (if isEmpty (aContentType f)
                 then lit "application/octet-stream" else aContentType f)
             ++ lit "; name=" ++ [DQUOTE] ++ aName f ++ [DQUOTE] ++ CRLF
             ++ lit "Content-Transfer-Encoding: base64" ++ CRLF
             ++ lit "Content-Disposition: attachment; filename=" ++ [DQUOTE]
             ++ aName f ++ [DQUOTE] ++ CRLF
             ++ CRLF ++ text
             ++ CRLF ++ lit "--" ++ generateBoundary c 0 ++ post
       /\ Base64.DecodeString text
          = Some (if 0 <? length (aBody f) then aBody f
                  else fst (os_ReadFile c (aName f))))
  /\ (forall f, In f (Inline m) ->
        exists pre text post,
          out = pre ++ CRLF ++ lit "--" ++ generateBoundary c 1 ++ CRLF
                ++ lit "Content-Type: "
                ++ (if isEmpty (iContentType f)
                    then lit "application/octet-stream" else iContentType f)
                ++ lit "; name=" ++ [DQUOTE] ++ iName f ++ [DQUOTE] ++ CRLF
                ++ lit "Content-Transfer-Encoding: base64" ++ CRLF
                ++ lit "Content-ID: <" ++ iCID f ++ lit ">" ++ CRLF
                ++ lit "Content-Disposition: inline; filename=" ++ [DQUOTE]
                ++ iName f ++ [DQUOTE] ++ CRLF
                ++ CRLF ++ text
                ++ CRLF ++ lit "--" ++ generateBoundary c 1 ++ post
          /\ Base64.DecodeString text = Some (iBody f)).
Proof.
  intros c m out S.
  destruct (ToBytes_output c m out S) as (_ & _ & E). cbv zeta in E.
  split; intros f Hin.
  - assert (NE : Attachment m <> []) by (intros N; now rewrite N in Hin).
    rewrite (nonempty_ltb _ _ NE) in E. cbn [orb] in E.
    destruct (flat_map_delimited _
                (attachPart (os_ReadFile c) (generateBoundary c 0))
                (lit "--" ++ generateBoundary c 0)
                (fun x =>
                   CRLF ++ lit "Content-Type: "
                   ++ orOctetStream (aContentType x)
                   ++ lit "; name=" ++ [DQUOTE] ++ aName x ++ [DQUOTE] ++ CRLF
                   ++ lit "Content-Transfer-Encoding: base64" ++ CRLF
                   ++ lit "Content-Disposition: attachment; filename="
                   ++ [DQUOTE] ++ aName x ++ [DQUOTE] ++ CRLF
                   ++ CRLF ++ base64Text (attachContent (os_ReadFile c) x))
                (Attachment m) f
                (CRLF ++ lit "--" ++ generateBoundary c 0 ++ lit "--" ++ CRLF)
                (lit "--" ++ CRLF))
      as (pre & post & D); [| exact Hin | now rewrite <- !app_assoc |].
    { intro x. unfold attachPart, attachHead. now rewrite <- !app_assoc. }
    rewrite D in E.
    match type of E with
    | out = ?a1 ++ ?a2 ++ ?a3 ++ ?a4 ++ ?a5 ++ ?a6 ++ ?a7 ++ pre ++ _ =>
        exists (a1 ++ a2 ++ a3 ++ a4 ++ a5 ++ a6 ++ a7 ++ pre)
    end.
    exists (base64Text (attachContent (os_ReadFile c) f)), post.
    split; [|apply base64Text_decodes].
    rewrite E. unfold orOctetStream. rewrite <- !app_assoc. reflexivity.
  - assert (NE : Inline m <> []) by (intros N; now rewrite N in Hin).
    rewrite (nonempty_ltb _ _ NE), orb_true_r in E. cbn [orb] in E.
    destruct (flat_map_delimited _
                (inlinePart (generateBoundary c 1))
                (lit "--" ++ generateBoundary c 1)
                (fun x =>
                   CRLF ++ lit "Content-Type: "
                   ++ orOctetStream (iContentType x)
                   ++ lit "; name=" ++ [DQUOTE] ++ iName x ++ [DQUOTE] ++ CRLF
                   ++ lit "Content-Transfer-Encoding: base64" ++ CRLF
                   ++ lit "Content-ID: <" ++ iCID x ++ lit ">" ++ CRLF
                   ++ lit "Content-Disposition: inline; filename="
                   ++ [DQUOTE] ++ iName x ++ [DQUOTE] ++ CRLF
                   ++ CRLF ++ base64Text (iBody x))
                (Inline m) f
                (CRLF ++ lit "--" ++ generateBoundary c 1 ++ lit "--" ++ CRLF)
                (lit "--" ++ CRLF))
      as (pre & post & D); [| exact Hin | now rewrite <- !app_assoc |].
    { intro x. unfold inlinePart, inlineHead. now rewrite <- !app_assoc. }
    rewrite D in E.
    match type of E with
    | out = ?a1 ++ ?a2 ++ ?a3 ++ ?a4 ++ ?a5 ++ ?a6 ++ (pre ++ _) ++ ?rest =>
        exists (a1 ++ a2 ++ a3 ++ a4 ++ a5 ++ a6 ++ pre);
        exists (base64Text (iBody f)), (post ++ rest)
    end.
    split; [|apply base64Text_decodes].
    rewrite E. unfold orOctetStream. rewrite <- !app_assoc. reflexivity.
Qed.

(** X12, at a message with the inline image of
    [TestMail_ToBytes_InlineImage] and an attachment read from the file
    system. *)
Lemma ToBytes_file_parts_decode_witness :
  (exists pre text post,
     output (ToBytes (mkCollab counting oneFile stdQP)
               (withAttachment [onDisk] testInline))
     = pre ++ CRLF ++ lit "--"
       ++ generateBoundary (mkCollab counting oneFile stdQP) 0 ++ CRLF
       ++ lit "Content-Type: "
       ++ (if isEmpty (aContentType onDisk)
           then lit "application/octet-stream" else aContentType onDisk)
       ++ lit "; name=" ++ [DQUOTE] ++ aName onDisk ++ [DQUOTE] ++ CRLF
       ++ lit "Content-Transfer-Encoding: base64" ++ CRLF
       ++ lit "Content-Disposition: attachment; filename=" ++ [DQUOTE]
       ++ aName onDisk ++ [DQUOTE] ++ CRLF
       ++ CRLF ++ text
       ++ CRLF ++ lit "--"
       ++ generateBoundary (mkCollab counting oneFile stdQP) 0 ++ post
     /\ Base64.DecodeString text = Some (lit "%PDF-1.7")).
Proof.
  apply (proj1 (ToBytes_file_parts_decode (mkCollab counting oneFile stdQP)
                  (withAttachment [onDisk] testInline)
                  (output (ToBytes (mkCollab counting oneFile stdQP)
                             (withAttachment [onDisk] testInline)))
                  ltac:(vm_compute; reflexivity)) onDisk).
  left. reflexivity.
Defined.

(** ** A body that is quoted-printable text already *)

Section VerbatimBody.

Import QuotedPrintable.

Lemma simpleByte_no_break : forall b,
  simpleByte b = true -> isByte LF b || isByte CR b = false.
Proof.
  intros b H.
  pose proof (forall_bytes
                (fun c => implb (simpleByte c)
                            (negb (isByte LF c || isByte CR c)))
                ltac:(vm_compute; reflexivity) b) as F.
  cbv beta in F. rewrite H in F. now apply negb_true_iff in F.
Qed.

Lemma Write1_simple : forall b l c0 out,
  simpleByte b = true -> length l < 75 ->
  Write1 b (mkWriter l c0) out = (mkWriter (l ++ [b]) false, out).
Proof.
  intros b l c0 out H L.
  assert (W : write1 b (mkWriter l c0) out = (mkWriter (l ++ [b]) false, out)).
  { unfold write1. rewrite (simpleByte_no_break b H). cbn [line].
    replace (length l =? lineMaxLen - 1) with false; [reflexivity|].
    symmetry. apply Nat.eqb_neq. unfold lineMaxLen. lia. }
  unfold Write1, simpleByte in *.
  destruct (between "!" "~" b && negb (isByte "=" b)); [exact W|].
  cbn [orb] in H. rewrite H. exact W.
Qed.

Lemma Write_simple : forall p l c0 out,
  forallb simpleByte p = true -> length l + length p <= 75 ->
  exists c1, Write p (mkWriter l c0) out = (mkWriter (l ++ p) c1, out).
Proof.
  induction p as [|b p IH]; intros l c0 out H L.
  - exists c0. now rewrite app_nil_r.
  - cbn [forallb length] in *. apply andb_prop in H as [Hb Hp].
    cbn [Write]. rewrite Write1_simple by (assumption || lia).
    destruct (IH (l ++ [b]) false out Hp) as (c1 & E).
    { rewrite length_app. cbn [length]. lia. }
    exists c1. now rewrite E, <- app_assoc.
Qed.

Lemma checkLastByte_kept : forall l c0 out,
  endsBlank l = false ->
  checkLastByte (mkWriter l c0) out = (mkWriter l c0, out).
Proof.
  intros l c0 out H. unfold checkLastByte, endsBlank in *. cbn [line].
  destruct (rev l); [reflexivity|]. now rewrite H.
Qed.

Lemma Write_CRLF : forall l c0 out,
  endsBlank l = false ->
  Write CRLF (mkWriter l c0) out = (mkWriter [] false, out ++ l ++ CRLF).
Proof.
  intros l c0 out H.
  change CRLF with [CR; LF]. cbn [Write].
  destruct c0;
  change (Write1 CR (mkWriter l _) out)
    with (let '(w, out) := checkLastByte (mkWriter l true) out in
          insertCRLF w out);
  rewrite checkLastByte_kept by assumption; reflexivity.
Qed.

Lemma Write_app : forall a b w out,
  Write (a ++ b) w out = Write b (fst (Write a w out)) (snd (Write a w out)).
Proof.
  induction a as [|x a IH]; intros b w out; [reflexivity|].
  cbn [app Write]. destruct (Write1 x w out) as [w1 out1]. apply IH.
Qed.

Lemma verbatimLine_parts : forall l,
  verbatimLine l = true ->
  forallb simpleByte l = true /\ length l <= 75 /\ endsBlank l = false.
Proof.
  intros l H. unfold verbatimLine in H.
  apply andb_prop in H as [H H3]. apply andb_prop in H as [H1 H2].
  apply Nat.leb_le in H2. apply negb_true_iff in H3. auto.
Qed.

Lemma Write_verbatim : forall ls last c0 out,
  forallb verbatimLine ls = true ->
  forallb simpleByte last = true -> length last <= 75 ->
  exists c1,
    Write (flat_map endLine ls ++ last) (mkWriter [] c0) out
    = (mkWriter last c1, out ++ flat_map endLine ls).
Proof.
  induction ls as [|l ls IH]; intros last c0 out H Hl Ll.
  - destruct (Write_simple last [] c0 out Hl) as (c1 & E); [cbn; lia|].
    exists c1. cbn [flat_map app]. now rewrite E, app_nil_r.
  - cbn [forallb] in H. apply andb_prop in H as [H1 H2].
    apply verbatimLine_parts in H1 as (S1 & L1 & B1).
    cbn [flat_map]. unfold endLine at 1.
    rewrite <- !app_assoc, Write_app.
    destruct (Write_simple l [] c0 out S1) as (c1 & E); [cbn; lia|].
    rewrite E. cbn [fst snd app]. rewrite Write_app, Write_CRLF by assumption.
    cbn [fst snd].
    destruct (IH last false (out ++ l ++ CRLF) H2 Hl Ll) as (c2 & E2).
    exists c2. rewrite E2. unfold endLine. now rewrite <- !app_assoc.
Qed.

Lemma encodeAll_verbatim : forall ls last,
  forallb verbatimLine (ls ++ [last]) = true ->
  encodeAll (flat_map endLine ls ++ last) = flat_map endLine ls ++ last.
Proof.
  intros ls last H. rewrite forallb_app in H. apply andb_prop in H as [H1 H2].
  cbn [forallb] in H2. rewrite andb_true_r in H2.
  apply verbatimLine_parts in H2 as (S & L & B).
  destruct (Write_verbatim ls last false [] H1 S L) as (c1 & E).
  unfold encodeAll, NewWriter. rewrite E. unfold Close.
  rewrite checkLastByte_kept by assumption. reflexivity.
Qed.

End VerbatimBody.

(** X13.  A body that is quoted-printable text already goes into the
    message unchanged: when its lines, separated by CRLF, are each at
    most 75 bytes of printable characters other than the equals sign,
    spaces and tabs, and none ends in a space or a tab, the output of a
    successful call (with Go's writer) holds the body itself after the
    empty line that ends the headers of the body part, and after it
    either nothing or the CRLF and the two hyphens of a delimiter. *)
Theorem ToBytes_body_verbatim : forall rnd readFile m out ls last,
  ToBytes (mkCollab rnd readFile stdQP) m = (Some out, None) ->
  Body m = flat_map endLine ls ++ last ->
  forallb verbatimLine (ls ++ [last]) = true ->
  exists pre post,
    out = pre ++ lit "Content-Transfer-Encoding: quoted-printable" ++ CRLF
          ++ CRLF ++ Body m ++ post
    /\ (post = [] \/ exists t, post = CRLF ++ lit "--" ++ t).
Proof.
  intros rnd readFile m out ls last S B V.
  set (c := mkCollab rnd readFile stdQP) in *.
  destruct (ToBytes_output c m out S) as (_ & _ & E). cbv zeta in E.
  destruct (encodeAll_lines (Body m)) as (_ & _ & _ & _ & _ & QO & _).
  change (QP c) with stdQP in E. rewrite QO in E.
  rewrite B, encodeAll_verbatim, <- B in E by assumption.
  rewrite bodyLines_text in E.
  match type of E with
  | out = ?a1 ++ ?a2 ++ ?a3 ++ (?b1 ++ ?b2 ++ ?b3 ++ ?b4 ++ ?b5 ++ ?b6)
          ++ CRLF ++ Body m ++ ?rest =>
      exists (a1 ++ a2 ++ a3 ++ b1 ++ b2 ++ b3 ++ b4), rest
  end.
  split; [rewrite E at 1; now rewrite <- !app_assoc|].
  destruct (Inline m) as [|i inl].
  - destruct (Attachment m) as [|a as'].
    + left. reflexivity.
    + right. eexists. cbn [flat_map length Nat.ltb Nat.leb orb app].
      unfold attachPart, attachHead. rewrite <- !app_assoc. reflexivity.
  - right. eexists. cbn [flat_map].
    unfold inlinePart, inlineHead. rewrite <- !app_assoc. reflexivity.
Qed.

(** X13, at a body of two lines and one attachment. *)
Lemma ToBytes_body_verbatim_witness :
  exists pre post,
    output (ToBytes offline
              (withBody (lit "Dear all," ++ CRLF ++ lit "see you at 10.")
                 testAttachment))
    = pre ++ lit "Content-Transfer-Encoding: quoted-printable" ++ CRLF
      ++ CRLF
      ++ Body (withBody (lit "Dear all," ++ CRLF ++ lit "see you at 10.")
                 testAttachment)
      ++ post
    /\ (post = [] \/ exists t, post = CRLF ++ lit "--" ++ t).
Proof.
  apply (ToBytes_body_verbatim noEntropy noFiles
           (withBody (lit "Dear all," ++ CRLF ++ lit "see you at 10.")
              testAttachment)
           (output (ToBytes offline
                      (withBody
                         (lit "Dear all," ++ CRLF ++ lit "see you at 10.")
                         testAttachment)))
           [lit "Dear all,"] (lit "see you at 10."));
    vm_compute; reflexivity.
Defined.

(** ** A message of 7-bit bytes *)

Create HintDb seven.

Lemma sevenBit_app : forall a b, sevenBit (a ++ b) = sevenBit a && sevenBit b.
Proof. intros. apply forallb_app. Qed.

Lemma sevenBit_of : forall (P : ascii -> bool) l,
  forallb (fun c => implb (P c) (ascii7 c)) allBytes = true ->
  forallb P l = true -> sevenBit l = true.
Proof.
  intros P l H. unfold sevenBit. apply forallb_impl.
  exact (forall_bytes (fun c => implb (P c) (ascii7 c)) H).
Qed.

Lemma sevenBit_flat_map : forall A (f : A -> bytes) l,
  (forall x, In x l -> sevenBit (f x) = true) ->
  sevenBit (flat_map f l) = true.
Proof.
  intros A f l H. induction l as [|x l IH]; [reflexivity|].
  cbn [flat_map]. rewrite sevenBit_app, (H x (or_introl eq_refl)), IH;
    [reflexivity|]. intros y Hy. apply H. now right.
Qed.

Lemma sevenBit_CRLF : sevenBit CRLF = true.
Proof. reflexivity. Qed.

Lemma sevenBit_DQUOTE : sevenBit [DQUOTE] = true.
Proof. reflexivity. Qed.

#[local] Hint Resolve sevenBit_CRLF sevenBit_DQUOTE : seven.
#[local] Hint Extern 1 (sevenBit (lit _) = true) => reflexivity : seven.

Ltac seven :=
  rewrite ?sevenBit_app;
  repeat match goal with
         | |- (_ && _) = true => apply andb_true_intro; split
         end;
  auto with seven.

Lemma sevenBit_address : forall s, ValidateEmail s = true -> sevenBit s = true.
Proof.
  intros s H. apply ValidateEmail_chars in H. revert H.
  apply sevenBit_of. vm_compute; reflexivity.
Qed.

Lemma sevenBit_Join : forall to,
  forallb ValidateEmail to = true -> sevenBit (Join to (lit ", ")) = true.
Proof.
  induction to as [|a to IH]; intro H; [reflexivity|].
  cbn [forallb] in H. apply andb_prop in H as [Ha H].
  destruct to as [|b to]; [now apply sevenBit_address|].
  change (Join (a :: b :: to) (lit ", "))
    with (a ++ lit ", " ++ Join (b :: to) (lit ", ")).
  pose proof (sevenBit_address a Ha). pose proof (IH H). seven.
Qed.

Lemma sevenBit_boundary : forall c k, sevenBit (generateBoundary c k) = true.
Proof.
  intros c k. unfold generateBoundary. cbv zeta.
  assert (sevenBit (flat_map (hexByte lowerhex) (fill16 (fst (rand_Read c k))))
          = true).
  { apply (sevenBit_of isLowerHex); [vm_compute; reflexivity|apply hex_lower]. }
  seven.
Qed.

Lemma sevenBit_base64Text : forall data, sevenBit (base64Text data) = true.
Proof.
  intro data. apply (sevenBit_of base64Byte); [vm_compute; reflexivity|].
  apply base64Text_base64Byte.
Qed.

#[local] Hint Resolve sevenBit_boundary sevenBit_base64Text : seven.

Section SevenBitWords.

Import Mime.

Lemma sevenBit_writeQByte : forall b, sevenBit (writeQByte b) = true.
Proof.
  apply (forall_bytes (fun b => sevenBit (writeQByte b))).
  vm_compute; reflexivity.
Qed.

Lemma sevenBit_qEncodeLoop : forall fuel cs buf currentLen s,
  sevenBit cs = true -> sevenBit buf = true ->
  sevenBit (qEncodeLoop fuel cs buf currentLen s) = true.
Proof.
  induction fuel as [|fuel IH]; intros cs buf currentLen s Hcs Hbuf.
  - now destruct s.
  - destruct s as [|b s]; [assumption|]. cbn [qEncodeLoop].
    apply IH; [assumption|]. unfold writeQString.
    rewrite sevenBit_app. apply andb_true_intro. split.
    + match goal with |- context [if ?t then _ else _] => destruct t end;
        [|assumption].
      unfold splitWord, openWord, closeWord. seven.
    + apply sevenBit_flat_map. intros x _. apply sevenBit_writeQByte.
Qed.

Lemma sevenBit_subject : forall s,
  sevenBit (Encode (lit "utf-8") s) = true.
Proof.
  intro s. unfold Encode. destruct (needsEncoding s) eqn:N; cbn [negb].
  - unfold encodeWord, qEncode, closeWord.
    change (isUTF8 (lit "utf-8")) with true. cbn [negb].
    rewrite sevenBit_app, sevenBit_qEncodeLoop; reflexivity.
  - apply (sevenBit_of (fun c => negb (needs1 c))); [vm_compute; reflexivity|].
    rewrite needsEncoding_needs1 in N.
    induction s as [|b s IH]; [reflexivity|].
    cbn [existsb forallb] in *. apply orb_false_iff in N as [Nb Ns].
    now rewrite Nb, IH.
Qed.

End SevenBitWords.

Section SevenBitBody.

Import QuotedPrintable.

Lemma sevenBitState_intro : forall l c0 out,
  sevenBit l = true -> sevenBit out = true ->
  sevenBitState (mkWriter l c0, out) = true.
Proof. intros l c0 out Hl Ho. unfold sevenBitState. cbn [fst snd line]. now rewrite Hl, Ho. Qed.

Lemma sevenBitState_elim : forall w out,
  sevenBitState (w, out) = true ->
  sevenBit (line w) = true /\ sevenBit out = true.
Proof. intros w out H. now apply andb_prop in H. Qed.

Lemma sevenBit_hex : forall b,
  sevenBit ("="%char :: hexByte upperhex b) = true.
Proof.
  apply (forall_bytes (fun b => sevenBit ("="%char :: hexByte upperhex b))).
  vm_compute; reflexivity.
Qed.

Lemma sevenBit_encode : forall b w out,
  sevenBitState (w, out) = true -> sevenBitState (encode b w out) = true.
Proof.
  intros b [l c0] out H. apply sevenBitState_elim in H as [Hl Ho].
  cbn [line] in Hl. pose proof (sevenBit_hex b) as Hx. unfold encode.
  destruct (lineMaxLen - 1 - length (line (mkWriter l c0)) <? 3).
  - rewrite insertSoftLineBreak_eq. cbn [line cr app].
    apply sevenBitState_intro; [assumption|]. unfold endLine.
    assert (sevenBit ["="%char] = true) by reflexivity. seven.
  - cbn [line cr]. apply sevenBitState_intro; [|assumption]. seven.
Qed.

Lemma sevenBit_checkLastByte : forall w out,
  sevenBitState (w, out) = true ->
  sevenBitState (checkLastByte w out) = true.
Proof.
  intros w out H. unfold checkLastByte.
  destruct (rev (line w)) as [|b before] eqn:E; [assumption|].
  destruct (isWhitespace b); [|assumption].
  apply sevenBit_encode.
  apply sevenBitState_elim in H as [Hl Ho].
  apply sevenBitState_intro; [|assumption].
  assert (L : line w = rev before ++ [b]).
  { rewrite <- (rev_involutive (line w)), E. reflexivity. }
  rewrite L, sevenBit_app in Hl. now apply andb_prop in Hl.
Qed.

Lemma sevenBit_insertCRLF : forall w out,
  sevenBitState (w, out) = true -> sevenBitState (insertCRLF w out) = true.
Proof.
  intros w out H. apply sevenBitState_elim in H as [Hl Ho].
  rewrite insertCRLF_eq. apply sevenBitState_intro; [reflexivity|].
  unfold endLine. seven.
Qed.

Lemma sevenBit_write1 : forall b w out,
  ascii7 b = true ->
  sevenBitState (w, out) = true -> sevenBitState (write1 b w out) = true.
Proof.
  intros b w out Hb H. unfold write1.
  destruct (isByte LF b || isByte CR b).
  - destruct (cr w && isByte LF b).
    + apply sevenBitState_elim in H as [Hl Ho].
      now apply sevenBitState_intro.
    + assert (H1 : sevenBitState
                     (if isByte CR b then mkWriter (line w) true else w, out)
                   = true).
      { destruct (isByte CR b); [|assumption].
        apply sevenBitState_elim in H as [Hl Ho].
        now apply sevenBitState_intro. }
      apply sevenBit_checkLastByte in H1.
      destruct (checkLastByte _ out) as [w2 out2].
      now apply sevenBit_insertCRLF.
  - apply sevenBitState_elim in H as [Hl Ho].
    assert (B : sevenBit [b] = true)
      by (unfold sevenBit; cbn [forallb]; now rewrite Hb).
    destruct (length (line w) =? lineMaxLen - 1).
    + rewrite insertSoftLineBreak_eq. cbn [line app].
      apply sevenBitState_intro; [assumption|]. unfold endLine.
      assert (sevenBit ["="%char] = true) by reflexivity. seven.
    + apply sevenBitState_intro; [|assumption]. seven.
Qed.

Lemma sevenBit_Write1 : forall b w out,
  sevenBitState (w, out) = true -> sevenBitState (Write1 b w out) = true.
Proof.
  intros b w out H. unfold Write1.
  pose proof (forall_bytes
                (fun b => implb (between "!" "~" b && negb (isByte "=" b)
                                 || (isWhitespace b || isByte LF b
                                     || isByte CR b))
                            (ascii7 b))
                ltac:(vm_compute; reflexivity) b) as F.
  cbv beta in F.
  destruct (between "!" "~" b && negb (isByte "=" b));
    [now apply sevenBit_write1|].
  destruct (isWhitespace b || isByte LF b || isByte CR b);
    [now apply sevenBit_write1|].
  now apply sevenBit_encode.
Qed.

Lemma sevenBit_Write : forall p w out,
  sevenBitState (w, out) = true -> sevenBitState (Write p w out) = true.
Proof.
  induction p as [|b p IH]; intros w out H; [assumption|].
  cbn [Write]. apply (sevenBit_Write1 b) in H.
  destruct (Write1 b w out) as [w1 out1]. now apply IH.
Qed.

Lemma sevenBit_encodeAll : forall p, sevenBit (encodeAll p) = true.
Proof.
  intro p. unfold encodeAll.
  pose proof (sevenBit_Write p NewWriter [] eq_refl) as H.
  destruct (Write p NewWriter []) as [w out].
  apply sevenBit_checkLastByte in H. unfold Close.
  destruct (checkLastByte w out) as [w1 out1].
  apply sevenBitState_elim in H as [Hl Ho]. cbn [flush snd]. seven.
Qed.

End SevenBitBody.

#[local] Hint Resolve sevenBit_subject sevenBit_encodeAll sevenBit_address
  sevenBit_Join : seven.

(** X14.  The message is 7-bit clean whenever the names the caller gives
    are: if the name and content type of every attachment and the name,
    content type and content id of every inline file hold bytes below 128
    only, so does the whole output of a successful call (with Go's
    writer), whatever bytes the subject, the body, the files and the
    random source hold. *)
Theorem ToBytes_seven_bit : forall rnd readFile m out,
  ToBytes (mkCollab rnd readFile stdQP) m = (Some out, None) ->
  (forall f, In f (Attachment m) ->
     sevenBit (aName f ++ aContentType f) = true) ->
  (forall f, In f (Inline m) ->
     sevenBit (iName f ++ iContentType f ++ iCID f) = true) ->
  sevenBit out = true.
Proof.
  intros rnd readFile m out S HA HI.
  set (c := mkCollab rnd readFile stdQP) in *.
  destruct (ToBytes_output c m out S) as (VF & VT & E). cbv zeta in E.
  apply checkTo_None in VT.
  destruct (encodeAll_lines (Body m)) as (_ & _ & _ & _ & _ & QO & _).
  change (QP c) with stdQP in E. rewrite QO in E.
  rewrite headerLines_text, bodyLines_text in E.
  assert (PI : sevenBit (flat_map (inlinePart (generateBoundary c 1))
                           (Inline m)) = true).
  { apply sevenBit_flat_map. intros f Hf. specialize (HI f Hf).
    rewrite !sevenBit_app in HI.
    apply andb_prop in HI as [I1 HI]. apply andb_prop in HI as [I2 I3].
    unfold inlinePart, inlineHead, orOctetStream.
    destruct (isEmpty (iContentType f)); seven. }
  assert (PA : sevenBit (flat_map (attachPart (os_ReadFile c)
                                     (generateBoundary c 0))
                           (Attachment m)) = true).
  { apply sevenBit_flat_map. intros f Hf. specialize (HA f Hf).
    rewrite !sevenBit_app in HA. apply andb_prop in HA as [A1 A2].
    unfold attachPart, attachHead, orOctetStream.
    destruct (isEmpty (aContentType f)); seven. }
  assert (MT7 : sevenBit (MailType_String (MT m)) = true)
    by now destruct (MT m).
  rewrite E.
  destruct (0 <? length (Attachment m)); destruct (0 <? length (Inline m));
    cbn [orb]; seven.
Qed.

(** X14, at the message of [TestMail_ToBytes_InlineImage] with a subject
    and a body outside the 7-bit range. *)
Lemma ToBytes_seven_bit_witness :
  sevenBit
    (output (ToBytes offline
               (withSubject [ascii_of_nat 200; ascii_of_nat 150]
                  (withBody [ascii_of_nat 233; "!"%char] testInline))))
  = true.
Proof.
  apply (ToBytes_seven_bit noEntropy noFiles
           (withSubject [ascii_of_nat 200; ascii_of_nat 150]
              (withBody [ascii_of_nat 233; "!"%char] testInline)));
    [vm_compute; reflexivity | |];
    intros f Hf; repeat (destruct Hf as [<-|Hf]; [vm_compute; reflexivity|]);
    destruct Hf.
Defined.
